(** * AI Video Prompt Genius: the frame sampler and the analysis lifecycle

    A shallow embedding of [src/App.tsx] (the [App] component: the frame
    sampler [extractFramesFromVideo], the orchestrator
    [handleVideoSelection], the exports [copyAllPrompts] and
    [downloadJson], the reset handlers, the rotation of the banner and
    the conditional blocks of the view) together with the types of
    [types.ts].

    - JavaScript numbers are IEEE 754 binary64 values: [spec_float] at
      precision 53 and maximal exponent 1024, with the operations of
      [SpecFloat] (round to nearest, ties to even).
    - Promises are modelled by how they settle: fulfilled, rejected or
      never settled.
    - The browser (media element, canvas, [fetch], object URLs) and the
      analysis provider are an explicit environment; the effects of the
      component are threaded through a state monad over a [World]. *)

From Stdlib Require Import ZArith List String Ascii Bool Lia.
From Stdlib Require Import SpecFloat DecimalString Sorted.
From Stdlib Require Strings.Byte.
Import ListNotations.

Local Open Scope Z_scope.

(* ================================================================== *)
(** ** JavaScript numbers *)

Module Num.

Definition prec : Z := 53.
Definition emax : Z := 1024.

Definition number : Type := spec_float.

(** An integer literal, or an integer-valued attribute read as a number. *)
Definition of_Z (z : Z) : number := binary_normalize prec emax z 0 false.
Definition of_nat (n : nat) : number := of_Z (Z.of_nat n).

Definition mul : number -> number -> number := SFmul prec emax.
Definition div : number -> number -> number := SFdiv prec emax.

Definition leb : number -> number -> bool := SFleb.
Definition ltb : number -> number -> bool := SFltb.

Definition zero : number := S754_zero false.

Definition is_finite (x : number) : bool :=
  match x with
  | S754_zero _ | S754_finite _ _ _ => true
  | S754_infinity _ | S754_nan => false
  end.

(** [Math.min(a, b)]: NaN when either argument is NaN, and -0 below +0. *)
Definition Math_min (a b : number) : number :=
  match SFcompare a b with
  | None => S754_nan
  | Some Lt => a
  | Some Gt => b
  | Some Eq => match a with S754_zero true => a | _ => b end
  end.

(** The integer part (rounding toward zero); 0 for NaN and the infinities. *)
Definition trunc (x : number) : Z :=
  match x with
  | S754_finite s m e =>
      let a := Z.shiftl (Zpos m) e in if s then - a else a
  | _ => 0
  end.

(** The same value, as [Object.is] compares numbers. *)
Definition same (x y : number) : bool :=
  match x, y with
  | S754_zero s, S754_zero t => Bool.eqb s t
  | S754_infinity s, S754_infinity t => Bool.eqb s t
  | S754_nan, S754_nan => true
  | S754_finite s m e, S754_finite t n f =>
      Bool.eqb s t && Pos.eqb m n && Z.eqb e f
  | _, _ => false
  end.

(** WebIDL conversion of a number to [unsigned long]. *)
Definition to_unsigned_long (x : number) : Z := (trunc x) mod 2 ^ 32.

End Num.
Import Num.

(* ================================================================== *)
(** ** Strings *)

Definition LF : string := String (ascii_of_nat 10) EmptyString.

(** [s.includes(sub)] *)
Fixpoint includes (s sub : string) : bool :=
  if prefix sub s then true
  else match s with
       | EmptyString => false
       | String _ s' => includes s' sub
       end.

(** [String(n)] for a non-negative integer. *)
Definition string_of_nat (n : nat) : string :=
  NilEmpty.string_of_uint (Nat.to_uint n).

(** [s.split(',')[1]]: the text between the first and the second comma,
    [None] ([undefined]) when [s] has no comma. *)
Fixpoint upto_comma (s : string) : string :=
  match s with
  | EmptyString => EmptyString
  | String c s' => if Ascii.eqb c "," then EmptyString else String c (upto_comma s')
  end.

Fixpoint split_comma_1 (s : string) : option string :=
  match s with
  | EmptyString => None
  | String c s' => if Ascii.eqb c "," then Some (upto_comma s') else split_comma_1 s'
  end.

(* ================================================================== *)
(** ** Data model ([types.ts]) *)

Record Character := {
  id : string;
  name : string;
  age : string;
  gender : string;
  skinTone : string;
  eyeDetails : string;
  hairDetails : string;
  facialFeatures : string;
  bodyType : string;
  clothing : string;
  handFootwearDetails : string;
  specialFeatures : string
}.

Record CharacterEmotion := {
  characterName : string;
  ce_emotion : string
}.

Record VideoSegment := {
  startTime : string;
  endTime : string;
  charactersInScene : list string;
  characterEmotions : list CharacterEmotion;
  sceneDescription : string;
  cameraAndMotion : string;
  action : string;
  emotion : string;
  emotionalIntensity : number;
  transitionBridge : string;
  generatedPrompt : string
}.

Record AnalysisResult := {
  globalSummary : string;
  emotionalArc : string;
  characterMemory : list Character;
  segments : list VideoSegment;
  fullVideoSummaryPrompt : string
}.

Inductive AnalysisStatus := idle | uploading | analyzing | completed | error.

Record AppState := {
  status : AnalysisStatus;
  progress : number;
  result : option AnalysisResult;
  error_msg : option string
}.

Definition AnalysisStatus_eqb (a b : AnalysisStatus) : bool :=
  match a, b with
  | idle, idle | uploading, uploading | analyzing, analyzing
  | completed, completed | error, error => true
  | _, _ => false
  end.

Definition initialState : AppState :=
  {| status := idle; progress := zero; result := None; error_msg := None |}.

(* ================================================================== *)
(** ** Promises, thrown values and the environment *)

(** A thrown value the [catch] clause can read: a value other than
    [null] and [undefined] whose [message] is a string ([Some]), or is
    [undefined] or another falsy value that is not a string ([None]).
    An [Error], a [TypeError] and a [DOMException] are of this kind. *)
Record Thrown := { message : option string }.

Definition Error (msg : string) : Thrown := {| message := Some msg |}.

(** A thrown value on which the [catch] clause itself throws. *)
Inductive Unreadable :=
| thrown_null        (** [null]: reading [err.message] is a [TypeError] *)
| thrown_undefined   (** [undefined]: the same *)
| message_not_text.  (** the [message] is truthy and not a string, and [includes]
                         is not a function on it (a number, [true], a plain
                         object): calling [errorMessage.includes] is a
                         [TypeError] *)

(** What a [catch (err: any)] receives.  Not represented: a [message]
    that is not a string and yet has a method [includes] of its own (an
    array), and a [message] getter that throws. *)
Inductive Caught :=
| readable (e : Thrown)
| unreadable (v : Unreadable).

Coercion readable : Thrown >-> Caught.

(** How a promise settles; [Pending] is a promise that never settles. *)
Inductive Settled (A : Type) : Type :=
| Fulfilled (a : A)
| Rejected (e : Caught)
| Pending.
Arguments Fulfilled {A} a.
Arguments Rejected {A} e.
Arguments Pending {A}.

Record Blob := {
  blob_type : string;
  blob_bytes : list Byte.byte
}.

Record File := {
  file_name : string;
  file_type : string;
  file_bytes : list Byte.byte
}.

(** [new File([blob], name, { type })] *)
Definition new_File (b : Blob) (nm ty : string) : File :=
  {| file_name := nm; file_type := ty; file_bytes := blob_bytes b |}.

(** The part of a [Response] the component reads, and the two fields it
    never reads ([ok], [status]). *)
Record Response := {
  ok : bool;
  http_status : Z;
  blob : Settled Blob
}.

(** What the media element reports once [loadedmetadata] fires. *)
Record VideoMeta := {
  duration : number;
  videoWidth : Z;
  videoHeight : Z
}.

(** After [video.src] is set: [loadedmetadata] fires, [error] fires, or
    neither ever does. *)
Inductive LoadEvent :=
| loadedmetadata (video : VideoMeta)
| load_error
| load_none.

(** After [video.currentTime] is set to a finite time: [seeked] fires,
    [error] fires, or neither ever does. *)
Inductive SeekEvent := seeked | seek_error | seek_none.

(** One element of [parts]: [{ inlineData: { data, mimeType } }];
    [data] is [None] when [split(',')[1]] is [undefined]. *)
Record Part := {
  data : option string;
  mimeType : string
}.

Record Browser := {
  (** the media element, for the source bound to it *)
  media_load : File -> LoadEvent;
  (** the [i]-th seek of the element, to the requested time *)
  media_seek : File -> nat -> number -> SeekEvent;
  (** [canvas.getContext('2d')] is not [null] *)
  getContext_2d : bool;
  (** [canvas.toDataURL(type, quality)] for the canvas of the given width
      and height after drawing the element positioned at the given time *)
  toDataURL : File -> number -> Z -> Z -> string -> number -> string;
  fetch : string -> Settled Response;
  (** the analysis provider of [services/geminiService]; [None] is an
      answer of [null] or [undefined], and any other answer is taken to
      be of the declared type *)
  analyzeVideo : list Part -> number -> Settled (option AnalysisResult)
}.

(* ================================================================== *)
(** ** The world and the monad of asynchronous computations *)

Inductive Event :=
| ev_setState (s : AppState)
| ev_createObjectURL (u : nat)
| ev_revokeObjectURL (u : nat)
| ev_seek (t : number)
| ev_drawImage (w h : Z)
| ev_console_error (e : Caught)
| ev_clipboard (text : string)
| ev_alert (text : string).

Record World := {
  state : AppState;           (** the [useState] cell of the component *)
  objectURLs : list nat;    (** object URLs created and not yet revoked *)
  fresh : nat;              (** the next object URL *)
  log : list Event          (** effects, oldest first *)
}.

Definition Async (A : Type) : Type := World -> World * Settled A.

Definition ret {A} (a : A) : Async A := fun w => (w, Fulfilled a).

Definition bind {A B} (m : Async A) (k : A -> Async B) : Async B :=
  fun w =>
    match m w with
    | (w', Fulfilled a) => k a w'
    | (w', Rejected e) => (w', Rejected e)
    | (w', Pending) => (w', Pending)
    end.

Declare Scope async_scope.
Delimit Scope async_scope with async.
Notation "x <- m ;; k" := (bind m (fun x => k))
  (at level 61, m at next level, right associativity) : async_scope.
Notation "m ;; k" := (bind m (fun _ => k))
  (at level 61, right associativity) : async_scope.
Local Open Scope async_scope.

Definition throw {A} (e : Caught) : Async A := fun w => (w, Rejected e).

(** Suspended on something that never happens. *)
Definition never {A} : Async A := fun w => (w, Pending).

(** [await p] *)
Definition await {A} (p : Settled A) : Async A := fun w => (w, p).

(** [try { body } catch (err) { handler }] *)
Definition try_catch {A} (body : Async A) (handler : Caught -> Async A) : Async A :=
  fun w =>
    match body w with
    | (w', Rejected e) => handler e w'
    | r => r
    end.

Definition emit (e : Event) : Async unit :=
  fun w =>
    ({| state := state w; objectURLs := objectURLs w; fresh := fresh w;
        log := log w ++ [e] |}, Fulfilled tt).

(** [setState(f)]: the functional update of React. *)
Definition setState (f : AppState -> AppState) : Async unit :=
  fun w =>
    let s := f (state w) in
    ({| state := s; objectURLs := objectURLs w; fresh := fresh w;
        log := log w ++ [ev_setState s] |}, Fulfilled tt).

Definition createObjectURL (_ : File) : Async nat :=
  fun w =>
    let u := fresh w in
    ({| state := state w; objectURLs := u :: objectURLs w; fresh := S u;
        log := log w ++ [ev_createObjectURL u] |}, Fulfilled u).

Definition revokeObjectURL (u : nat) : Async unit :=
  fun w =>
    ({| state := state w; objectURLs := remove Nat.eq_dec u (objectURLs w);
        fresh := fresh w; log := log w ++ [ev_revokeObjectURL u] |},
     Fulfilled tt).

(** Which of [resolve] and [reject] the executor of a promise, or an event
    handler it installs, has called. *)
Inductive Called (A : Type) : Type :=
| resolve (a : A)
| reject (e : Thrown).
Arguments resolve {A} a.
Arguments reject {A} e.

(** [new Promise((resolve, reject) => ...)] whose work is done by [async]
    event handlers: the promise is settled by the call of [resolve] or
    [reject]; what a handler throws rejects the handler's own promise,
    which nobody observes, and leaves this one unsettled. *)
Definition new_Promise {A} (executor : Async (Called A)) : Async A :=
  fun w =>
    match executor w with
    | (w', Fulfilled (resolve v)) => (w', Fulfilled v)
    | (w', Fulfilled (reject e)) => (w', Rejected e)
    | (w', Rejected _) => (w', Pending)
    | (w', Pending) => (w', Pending)
    end.

(* ================================================================== *)
(** ** The frame sampler: [extractFramesFromVideo] *)

(** The loading banner ([setLoadingMessage], and the rotation of messages
    installed by [useEffect]) only feeds the view; it takes no part in
    the control flow and is left out of the world. *)

Definition maxFrames : nat := 250.
Definition targetHeight : Z := 448.

(** [0.45], the JPEG quality. *)
Definition jpegQuality : number := div (of_Z 45) (of_Z 100).

Definition decodeError : Thrown :=
  Error "Failed to process video file. Ensure it is a valid MP4/MOV/WebM.".

(** Assigning a number to [canvas.width] or [canvas.height]: converted to
    [unsigned long]; a value above 2147483647 gives the default of the
    attribute. *)
Definition set_dimension (default : Z) (x : number) : Z :=
  let v := to_unsigned_long x in
  if v <=? 2147483647 then v else default.

(** [video.currentTime = time]: a [TypeError] for a time that is not
    finite. *)
Definition set_currentTime (time : number) : Async unit :=
  if is_finite time then emit (ev_seek time)
  else throw (Error "The provided double value is non-finite.").

Definition scale_of (video : VideoMeta) : number :=
  Math_min (of_Z 1) (div (of_Z targetHeight) (of_Z (videoHeight video))).

Definition canvas_width (video : VideoMeta) : Z :=
  set_dimension 300 (mul (of_Z (videoWidth video)) (scale_of video)).

Definition canvas_height (video : VideoMeta) : Z :=
  set_dimension 150 (mul (of_Z (videoHeight video)) (scale_of video)).

(** [i * interval] *)
Definition sample_time (interval : number) (i : nat) : number :=
  mul (of_nat i) interval.

Definition capture (B : Browser) (file : File) (time : number) (cw ch : Z)
    (frames : list Part) : Async (list Part) :=
  if getContext_2d B then
    emit (ev_drawImage cw ch) ;;
    let base64 :=
      split_comma_1 (toDataURL B file time cw ch "image/jpeg" jpegQuality) in
    ret (frames ++ [ {| data := base64; mimeType := "image/jpeg" |} ])
  else ret frames.

(** The [for] loop, with [n] iterations left: [i = maxFrames - n]. *)
Fixpoint sample_loop (B : Browser) (file : File) (interval : number)
    (cw ch : Z) (n i : nat) (frames : list Part) : Async (Called (list Part)) :=
  match n with
  | O => ret (resolve frames)
  | S n' =>
      let time := sample_time interval i in
      set_currentTime time ;;
      match media_seek B file i time with
      | seeked =>
          frames' <- capture B file time cw ch frames ;;
          sample_loop B file interval cw ch n' (S i) frames'
      | seek_error => ret (reject decodeError)
      | seek_none => never
      end
  end.

Definition extractFramesFromVideo (B : Browser) (file : File)
    : Async (list Part * number) :=
  new_Promise (
    src <- createObjectURL file ;;
    match media_load B file with
    | loadedmetadata video =>
        let duration := duration video in
        let interval := div duration (of_nat maxFrames) in
        let cw := canvas_width video in
        let ch := canvas_height video in
        r <- sample_loop B file interval cw ch maxFrames 0 [] ;;
        match r with
        | resolve frames =>
            revokeObjectURL src ;;
            ret (resolve (frames, duration))
        | reject e => ret (reject e)
        end
    | load_error => ret (reject decodeError)
    | load_none => never
    end).

(* ================================================================== *)
(** ** The orchestrator: [handleVideoSelection] *)

Definition fallbackMessage : string := "An unexpected error occurred.".

Definition memoryOverflowMessage : string :=
  "Memory overflow. The video analysis hit a technical limit. Try a shorter file.".

(** [err.message || "An unexpected error occurred."]: [undefined], the
    other falsy values and the empty string are replaced. *)
Definition message_or_fallback (err : Thrown) : string :=
  match message err with
  | Some EmptyString => fallbackMessage
  | Some m => m
  | None => fallbackMessage
  end.

Definition has_indicator (m : string) : bool :=
  includes m "string length" || includes m "memory" || includes m "allocation".

(** The message the [catch] clause stores for a value it can read. *)
Definition errorMessage (err : Thrown) : string :=
  let m := message_or_fallback err in
  if has_indicator m then memoryOverflowMessage else m.

Definition set_uploading (prev : AppState) : AppState :=
  {| status := uploading; progress := progress prev; result := result prev;
     error_msg := None |}.

Definition set_analyzing (prev : AppState) : AppState :=
  {| status := analyzing; progress := progress prev; result := result prev;
     error_msg := error_msg prev |}.

(** [result] is whatever the provider resolved with. *)
Definition set_completed (r : option AnalysisResult) (prev : AppState) : AppState :=
  {| status := completed; progress := progress prev; result := r;
     error_msg := error_msg prev |}.

Definition set_error (m : string) (prev : AppState) : AppState :=
  {| status := error; progress := progress prev; result := result prev;
     error_msg := Some m |}.

(** The body of the [try] block. *)
Definition try_body (B : Browser) (file : option File) (url : string)
    : Async unit :=
  r <- match file with
       | Some f =>
           setState set_analyzing ;;
           extractFramesFromVideo B f
       | None =>
           response <- await (fetch B url) ;;
           blob <- await (blob response) ;;
           let tempFile := new_File blob "video_source" (blob_type blob) in
           setState set_analyzing ;;
           extractFramesFromVideo B tempFile
       end ;;
  let parts := fst r in
  let totalDuration := snd r in
  setState set_analyzing ;;
  result <- await (analyzeVideo B parts totalDuration) ;;
  setState (set_completed result).

(** The [TypeError] of the [catch] clause on a value it cannot read (in
    the wording of V8). *)
Definition unreadableError (v : Unreadable) : Thrown :=
  match v with
  | thrown_null => Error "Cannot read properties of null (reading 'message')"
  | thrown_undefined =>
      Error "Cannot read properties of undefined (reading 'message')"
  | message_not_text => Error "errorMessage.includes is not a function"
  end.

(** The [catch (err: any)] clause: after [console.error], reading
    [err.message] or calling [errorMessage.includes] may throw, and then
    no state is set. *)
Definition catch_clause (err : Caught) : Async unit :=
  emit (ev_console_error err) ;;
  match err with
  | readable e => setState (set_error (errorMessage e))
  | unreadable v => throw (unreadableError v)
  end.

Definition handleVideoSelection (B : Browser) (file : option File) (url : string)
    : Async unit :=
  setState set_uploading ;;
  try_catch (try_body B file url) catch_clause.

(* ================================================================== *)
(** ** Export and reset *)

(** The template of one block; [i] is the index [map] passes. *)
Definition block (s : VideoSegment) (i : nat) : string :=
  ("[Segment " ++ string_of_nat (i + 1) ++ "] " ++ startTime s ++ "-" ++ endTime s
   ++ LF ++ "PROMPT: " ++ generatedPrompt s
   ++ LF ++ "BRIDGE: " ++ transitionBridge s)%string.

(** [xs.map((s, i) => f(s, i))], counting from [i]. *)
Fixpoint map_index {A B} (f : A -> nat -> B) (i : nat) (xs : list A) : list B :=
  match xs with
  | [] => []
  | x :: xs' => f x i :: map_index f (S i) xs'
  end.

(** [blocks.join(sep)] *)
Definition join (sep : string) (blocks : list string) : string :=
  String.concat sep blocks.

Definition copyAllPrompts : Async unit :=
  fun w =>
    match result (state w) with
    | None => (w, Fulfilled tt)
    | Some r =>
        let all := join (LF ++ LF) (map_index block 0%nat (segments r)) in
        (emit (ev_clipboard all) ;;
         emit (ev_alert "Full prompt chain copied!")) w
    end.

(** The handler of the two reset buttons:
    [setState({status: 'idle', progress: 0, result: null, error: null})]. *)
Definition reset : Async unit :=
  setState (fun _ =>
    {| status := idle; progress := of_Z 0; result := None; error_msg := None |}).

(** The reset buttons the component renders: the one of the navigation
    bar when a result is stored, [Restart Session] in state [error]. *)
Definition reset_offered (s : AppState) : bool :=
  match result s with Some _ => true | None => false end
  || AnalysisStatus_eqb (status s) error.

(* ================================================================== *)
(** ** Reading a run *)

(** The statuses the component went through, from the log. *)
Fixpoint statuses (l : list Event) : list AnalysisStatus :=
  match l with
  | [] => []
  | ev_setState s :: l' => status s :: statuses l'
  | _ :: l' => statuses l'
  end.

(** The times [video.currentTime] was set to, from the log. *)
Fixpoint seeks (l : list Event) : list number :=
  match l with
  | [] => []
  | ev_seek t :: l' => t :: seeks l'
  | _ :: l' => seeks l'
  end.

(** [sub] occurs in [m]. *)
Definition contains (m sub : string) : Prop :=
  exists pre post, m = (pre ++ sub ++ post)%string.

Definition world0 (s : AppState) : World :=
  {| state := s; objectURLs := []; fresh := 0%nat; log := [] |}.

(** The world after further effects. *)
Definition logged (w : World) (l : list Event) : World :=
  {| state := state w; objectURLs := objectURLs w; fresh := fresh w;
     log := log w ++ l |}.

(** The frame pushed by iteration [i] of the loop. *)
Definition frame_at (B : Browser) (file : File) (interval : number) (cw ch : Z)
    (i : nat) : Part :=
  {| data := split_comma_1
       (toDataURL B file (sample_time interval i) cw ch "image/jpeg" jpegQuality);
     mimeType := "image/jpeg" |}.

(** The frames pushed by iterations [i .. i + n - 1]. *)
Definition captured (B : Browser) (file : File) (interval : number) (cw ch : Z)
    (i n : nat) : list Part :=
  if getContext_2d B then map (frame_at B file interval cw ch) (seq i n) else [].

(** The effects of iterations [i .. i + n - 1]. *)
Definition loop_events (B : Browser) (interval : number) (cw ch : Z)
    (i n : nat) : list Event :=
  flat_map (fun j =>
      ev_seek (sample_time interval j)
      :: (if getContext_2d B then [ev_drawImage cw ch] else []))
    (seq i n).

(** Every seek of iterations [i .. i + n - 1] is to a finite time and is
    answered by [seeked]. *)
Definition seeks_complete (B : Browser) (file : File) (interval : number)
    (i n : nat) : Prop :=
  forall j, (i <= j < i + n)%nat ->
    is_finite (sample_time interval j) = true /\
    media_seek B file j (sample_time interval j) = seeked.

(** The sample interval of a source: [duration / maxFrames]. *)
Definition interval_of (video : VideoMeta) : number :=
  div (duration video) (of_nat maxFrames).

(** A duration as the media element reports it for a stream of known
    length: a well-formed binary64 that is finite and not negative. *)
Definition finite_duration (d : number) : Prop :=
  valid_binary prec emax d = true /\ is_finite d = true /\ leb zero d = true.

(** The element answers [seeked] to every seek of iterations
    [i .. i + n - 1]. *)
Definition seeks_answered (B : Browser) (file : File) (interval : number)
    (i n : nat) : Prop :=
  forall j, (i <= j < i + n)%nat ->
    media_seek B file j (sample_time interval j) = seeked.

(** The sampler is answered and can go on: one of the two load events
    fires and, when the metadata loads, the duration is finite and the
    element answers every seek.  (A duration that is not finite is not
    covered: there the sampler stops by itself, whatever the element
    answers.) *)
Definition sampler_answered (B : Browser) (file : File) : Prop :=
  match media_load B file with
  | loadedmetadata video =>
      finite_duration (duration video) /\
      seeks_answered B file (interval_of video) 0 maxFrames
  | load_error => True
  | load_none => False
  end.

(** The source (with a finite duration), the fetch and the provider all
    answer. *)
Definition answered (B : Browser) (file : option File) (url : string) : Prop :=
  match file with
  | Some f => sampler_answered B f
  | None =>
      match fetch B url with
      | Fulfilled response =>
          match blob response with
          | Fulfilled b =>
              sampler_answered B (new_File b "video_source" (blob_type b))
          | Rejected _ => True
          | Pending => False
          end
      | Rejected _ => True
      | Pending => False
      end
  end /\
  forall parts d, analyzeVideo B parts d <> Pending.

(* ================================================================== *)
(** ** Reading the rounding of binary64 *)

(** The number of binary digits of a mantissa. *)
Definition digits (M : positive) : Z := Zpos (digits2_pos M).

(** [a] is the integer nearest to [M / 2 ^ n], the even one on a tie. *)
Definition nearest (M n a : Z) : Prop :=
  (2 * a - 1) * 2 ^ n <= 2 * M <= (2 * a + 1) * 2 ^ n /\
  (2 * M = (2 * a - 1) * 2 ^ n -> Z.even a = true) /\
  (2 * M = (2 * a + 1) * 2 ^ n -> Z.even a = true).

(** The number with rounded mantissa [a] at exponent [e]: a mantissa of
    54 digits is renormalised, an exponent above 971 overflows. *)
Definition pack (a e : Z) : spec_float :=
  if a =? 0 then S754_zero false
  else if a =? 2 ^ 53 then
    if e + 1 <=? 971 then S754_finite false (2 ^ 52)%positive (e + 1)
    else S754_infinity false
  else if e <=? 971 then S754_finite false (Z.to_pos a) e
  else S754_infinity false.

(** The shape of a small positive integer as a number: normal, exact. *)
Definition exact_normal (i : nat) : bool :=
  match of_nat i with
  | S754_finite false m e =>
      (digits m =? 53) && (Zpos m =? Z.of_nat i * 2 ^ (- e))
      && (e =? Z.log2 (Z.of_nat i) - 52)
  | _ => false
  end.

(* ================================================================== *)
(** ** Concrete inputs *)

Module Inputs.

Local Open Scope string_scope.

Definition clip : File :=
  {| file_name := "clip.mp4"; file_type := "video/mp4"; file_bytes := [] |}.

(** Ten minutes of 1080p. *)
Definition video600 : VideoMeta :=
  {| duration := of_Z 600; videoWidth := 1920; videoHeight := 1080 |}.

(** A portrait clip, 320 by 568. *)
Definition video568 : VideoMeta :=
  {| duration := of_Z 600; videoWidth := 320; videoHeight := 568 |}.

Definition segmentA : VideoSegment :=
  {| startTime := "00:00"; endTime := "00:12";
     charactersInScene := ["Mara"];
     characterEmotions := [ {| characterName := "Mara"; ce_emotion := "calm" |} ];
     sceneDescription := "A harbour at dawn.";
     cameraAndMotion := "Slow pan.";
     action := "Mara walks along the pier.";
     emotion := "calm"; emotionalIntensity := of_Z 3;
     transitionBridge := "Cut on the gull taking off.";
     generatedPrompt := "Harbour at dawn, slow pan." |}.

Definition segmentB : VideoSegment :=
  {| startTime := "00:12"; endTime := "00:30";
     charactersInScene := ["Mara"];
     characterEmotions := [ {| characterName := "Mara"; ce_emotion := "tense" |} ];
     sceneDescription := "The deck of a ferry.";
     cameraAndMotion := "Handheld.";
     action := "Mara looks back at the shore.";
     emotion := "tense"; emotionalIntensity := of_Z 6;
     transitionBridge := "Match the gull to the ferry flag.";
     generatedPrompt := "Ferry deck, handheld." |}.

Definition analysis : AnalysisResult :=
  {| globalSummary := "A crossing."; emotionalArc := "Calm to tense.";
     characterMemory := [];
     segments := [segmentA; segmentB];
     fullVideoSummaryPrompt := "A woman crosses a bay by ferry." |}.

Definition mkBrowser (load : LoadEvent) (ctx : bool)
    (response : Settled Response) (provider : Settled (option AnalysisResult))
    : Browser :=
  {| media_load := fun _ => load;
     media_seek := fun _ _ _ => seeked;
     getContext_2d := ctx;
     toDataURL := fun _ _ _ _ _ _ => "data:image/jpeg;base64,AAAA";
     fetch := fun _ => response;
     analyzeVideo := fun _ _ => provider |}.

Definition offline : Settled Response := Rejected (Error "Failed to fetch").

(** A 404 whose body is the server's error page. *)
Definition notFound : Settled Response :=
  Fulfilled {| ok := false; http_status := 404;
               blob := Fulfilled {| blob_type := "text/html"; blob_bytes := [] |} |}.

Definition browser_ok : Browser :=
  mkBrowser (loadedmetadata video600) true offline (Fulfilled (Some analysis)).

Definition browser_no_context : Browser :=
  mkBrowser (loadedmetadata video600) false offline (Fulfilled (Some analysis)).

Definition browser_undecodable : Browser :=
  mkBrowser load_error true offline (Fulfilled (Some analysis)).

Definition browser_404 : Browser :=
  mkBrowser load_error true notFound (Fulfilled (Some analysis)).

Definition browser_allocation : Browser :=
  mkBrowser (loadedmetadata video600) true offline
    (Rejected (Error "Array buffer allocation failed")).

Definition browser_empty_message : Browser :=
  mkBrowser (loadedmetadata video600) true offline (Rejected (Error "")).

(** A provider that rejects with [null]. *)
Definition browser_rejects_null : Browser :=
  mkBrowser (loadedmetadata video600) true offline
    (Rejected (unreadable thrown_null)).

(** A provider that resolves with [null]. *)
Definition browser_answers_null : Browser :=
  mkBrowser (loadedmetadata video600) true offline (Fulfilled None).

Definition browser_568 : Browser :=
  mkBrowser (loadedmetadata video568) true offline (Fulfilled (Some analysis)).

(** A recording without a known length: the duration is [Infinity]. *)
Definition videoLive : VideoMeta :=
  {| duration := S754_infinity false; videoWidth := 1280; videoHeight := 720 |}.

Definition browser_live : Browser :=
  mkBrowser (loadedmetadata videoLive) true offline (Fulfilled (Some analysis)).

Definition completedState : AppState :=
  {| status := completed; progress := zero; result := Some analysis;
     error_msg := None |}.

End Inputs.

(* ================================================================== *)
(** ** The rest of the component: banner, view, JSON export, sessions *)

(** The phrases of the [useEffect] rotation. *)
Definition messages : list string :=
  [ "Encoding video buffer..."%string;
    "Tracking emotional continuity..."%string;
    "Mapping visual bridges between segments..."%string;
    "Constructing character appearance memory..."%string;
    "Generating consistent AI prompt chains..."%string;
    "Scanning full timeline (up to 20m)..."%string;
    "Finalizing narrative flow..."%string ].

(** [messages[i % messages.length]] at the [i]-th firing of the interval;
    [None] is [undefined]. *)
Definition rotating_message (i : nat) : option string :=
  nth_error messages (i mod List.length messages).

(** The effect installs its interval only in state [analyzing]. *)
Definition rotation_active (s : AppState) : bool :=
  AnalysisStatus_eqb (status s) analyzing.

(** What the component renders: each field is one of the conditional
    blocks of the JSX. *)
Record View := {
  nav_actions : bool;      (** [state.result && ...]: Copy All, Export JSON, reset *)
  uploader : bool;         (** [status === 'idle']: the hero with [VideoUploader] *)
  progress_panel : bool;   (** [status === 'uploading' || status === 'analyzing'] *)
  error_panel : bool;      (** [status === 'error']: the message and Restart Session *)
  results_panel : bool     (** [status === 'completed' && state.result] *)
}.

Definition has_result (s : AppState) : bool :=
  match result s with Some _ => true | None => false end.

Definition render (s : AppState) : View :=
  {| nav_actions := has_result s;
     uploader := AnalysisStatus_eqb (status s) idle;
     progress_panel :=
       AnalysisStatus_eqb (status s) uploading
       || AnalysisStatus_eqb (status s) analyzing;
     error_panel := AnalysisStatus_eqb (status s) error;
     results_panel := AnalysisStatus_eqb (status s) completed && has_result s |}.

(** The number of main panels on the page. *)
Definition panels (v : View) : nat :=
  ((if uploader v then 1 else 0) + (if progress_panel v then 1 else 0)
   + (if error_panel v then 1 else 0) + (if results_panel v then 1 else 0))%nat.

(** What the user can do with the rendered controls. *)
Inductive Action :=
| submit (file : option File) (url : string)   (** [VideoUploader]'s [onVideoSelected] *)
| click_copy                                   (** Copy All *)
| click_export                                 (** Export JSON *)
| click_reset                                  (** the reset button of the navigation bar *)
| click_restart.                               (** Restart Session *)

Definition offered (s : AppState) (a : Action) : bool :=
  match a with
  | submit _ _ => uploader (render s)
  | click_copy | click_export | click_reset => nav_actions (render s)
  | click_restart => error_panel (render s)
  end.

(** The file [downloadJson] hands to the browser. *)
Record Download := {
  href : nat;
  download : string;
  content : Blob
}.

(** [downloadJson]; [stringify r] stands for [JSON.stringify(r, null, 2)]. *)
Definition downloadJson (stringify : AnalysisResult -> string) (w : World)
    : World * option Download :=
  match result (state w) with
  | None => (w, None)
  | Some r =>
      let blob := {| blob_type := "application/json";
                     blob_bytes := list_byte_of_string (stringify r) |} in
      let url := fresh w in
      ({| state := state w; objectURLs := url :: objectURLs w; fresh := S url;
          log := log w ++ [ev_createObjectURL url] |},
       Some {| href := url; download := "storyboard_continuity_export.json";
               content := blob |})
  end.

(** The world after the handler of an action has run (as far as it runs). *)
Definition perform (B : Browser) (stringify : AnalysisResult -> string)
    (a : Action) (w : World) : World :=
  match a with
  | submit file url => fst (handleVideoSelection B file url w)
  | click_copy => fst (copyAllPrompts w)
  | click_export => fst (downloadJson stringify w)
  | click_reset | click_restart => fst (reset w)
  end.

(** The worlds of a session: from the initial state, the user only uses
    controls that are rendered, and a handler has run as far as it runs
    before the next control is used (while a run is suspended the page
    renders no control, as proved below, so nothing can come in
    between).  Every action meets an environment of its own: the same
    file or URL may be answered differently each time. *)
Inductive reachable (stringify : AnalysisResult -> string) : World -> Prop :=
| reachable_initial : reachable stringify (world0 initialState)
| reachable_action (w : World) (B : Browser) (a : Action) :
    reachable stringify w ->
    offered (state w) a = true ->
    reachable stringify (perform B stringify a w).

(** The handlers of a list of actions run one after the other, each in
    an environment of its own. *)
Fixpoint perform_all (stringify : AnalysisResult -> string)
    (steps : list (Browser * Action)) (w : World) : World :=
  match steps with
  | [] => w
  | (B, a) :: rest => perform_all stringify rest (perform B stringify a w)
  end.

(** The states the component has been set to, from the log. *)
Fixpoint states (l : list Event) : list AppState :=
  match l with
  | [] => []
  | ev_setState s :: l' => s :: states l'
  | _ :: l' => states l'
  end.

(** What goes together in a state: a result only in [completed] (where
    it is [null] when the provider answered so), an error message
    exactly in [error], and progress 0. *)
Definition consistent (s : AppState) : Prop :=
  progress s = zero /\
  match status s with
  | completed => error_msg s = None
  | error => result s = None /\ error_msg s <> None
  | idle | uploading | analyzing => result s = None /\ error_msg s = None
  end.

(** The page is blank: no panel and no control. *)
Definition blank (s : AppState) : Prop :=
  panels (render s) = 0%nat /\ forall a, offered s a = false.

(** The source the sampler is given: the file, or the body fetched from
    the URL wrapped in a file named [video_source]; [None] when the
    fetch or the reading of the body does not deliver. *)
Definition source_of (B : Browser) (file : option File) (url : string)
    : option File :=
  match file with
  | Some f => Some f
  | None =>
      match fetch B url with
      | Fulfilled response =>
          match blob response with
          | Fulfilled b => Some (new_File b "video_source" (blob_type b))
          | Rejected _ | Pending => None
          end
      | Rejected _ | Pending => None
      end
  end.

(** The [try] block from the call of the sampler on. *)
Definition after_source (B : Browser) (f : File) : Async unit :=
  r <- extractFramesFromVideo B f ;;
  setState set_analyzing ;;
  result <- await (analyzeVideo B (fst r) (snd r)) ;;
  setState (set_completed result).

(** Object URLs are numbered in the order of their creation: the live
    ones are below the next fresh one. *)
Definition urls_numbered (w : World) : Prop :=
  forall u, In u (objectURLs w) -> (u < fresh w)%nat.

(** The smallest normal number, [2 ^ -1022]. *)
Definition min_normal : number := S754_finite false 4503599627370496 (-1074).

(** ** Concrete sessions *)

Module Sessions.

(** A stand-in for [JSON.stringify(result, null, 2)]: the summary alone. *)
Definition stringify (r : AnalysisResult) : string := globalSummary r.

Definition submit_clip : Action := submit (Some Inputs.clip) "".

(** The user submits a clip and the analysis succeeds. *)
Definition analysed : World :=
  perform Inputs.browser_ok stringify submit_clip (world0 initialState).

(** The user submits a recording without a known length. *)
Definition hanging : World :=
  perform Inputs.browser_live stringify submit_clip (world0 initialState).

(** The user submits a file that does not decode. *)
Definition failed : World :=
  perform Inputs.browser_undecodable stringify submit_clip (world0 initialState).

(** The user submits a clip and the provider answers [null]. *)
Definition answered_null : World :=
  perform Inputs.browser_answers_null stringify submit_clip (world0 initialState).

(** The user submits a clip and the provider rejects with [null]. *)
Definition rejected_null : World :=
  perform Inputs.browser_rejects_null stringify submit_clip (world0 initialState).

End Sessions.

(* ================================================================== *)
(** * Properties *)

(** ** Numbers *)

Lemma same_eq (x y : number) : same x y = true -> x = y.
Proof.
  destruct x as [s|s| |s m e], y as [t|t| |t n f]; simpl; try discriminate;
    try reflexivity.
  - intros H; apply Bool.eqb_prop in H; now subst.
  - intros H; apply Bool.eqb_prop in H; now subst.
  - intros H. apply andb_prop in H as [H He]. apply andb_prop in H as [Hs Hm].
    apply Bool.eqb_prop in Hs. apply Pos.eqb_eq in Hm. apply Z.eqb_eq in He.
    now subst.
Qed.

(** ** Rounding to nearest is monotone *)

Lemma iter_pos_nat {A} (f : A -> A) (p : positive) :
  forall x, iter_pos f p x = Nat.iter (Pos.to_nat p) f x.
Proof.
  induction p as [p IH|p IH|]; intros x; cbn [iter_pos].
  - rewrite !IH, Pos2Nat.inj_xI.
    replace (S (2 * Pos.to_nat p)) with (Pos.to_nat p + S (Pos.to_nat p))%nat by lia.
    rewrite Nat.iter_add, Nat.iter_succ_r. reflexivity.
  - rewrite !IH, Pos2Nat.inj_xO.
    replace (2 * Pos.to_nat p)%nat with (Pos.to_nat p + Pos.to_nat p)%nat by lia.
    now rewrite Nat.iter_add.
  - reflexivity.
Qed.

Lemma shr_1_spec (m : Z) (r s : bool) :
  0 <= m ->
  shr_1 {| shr_m := m; shr_r := r; shr_s := s |} =
  {| shr_m := m / 2; shr_r := Z.odd m; shr_s := r || s |}.
Proof.
  intros Hm. rewrite <- Z.div2_div.
  destruct m as [|[p|p|]|p]; try reflexivity. lia.
Qed.

Lemma iter_shr_1 (m : Z) (k : nat) :
  0 <= m ->
  Nat.iter (S k) shr_1 {| shr_m := m; shr_r := false; shr_s := false |} =
  {| shr_m := m / 2 ^ Z.of_nat (S k);
     shr_r := Z.odd (m / 2 ^ Z.of_nat k);
     shr_s := negb (m mod 2 ^ Z.of_nat k =? 0) |}.
Proof.
  intros Hm. induction k as [|k IH].
  - unfold Nat.iter; cbn [nat_rect]. rewrite shr_1_spec by assumption.
    change (2 ^ Z.of_nat 1) with 2. change (2 ^ Z.of_nat 0) with 1.
    rewrite Z.div_1_r, Z.mod_1_r. reflexivity.
  - rewrite Nat.iter_succ, IH.
    assert (Hp : 0 < 2 ^ Z.of_nat k) by (apply Z.pow_pos_nonneg; lia).
    rewrite shr_1_spec by (apply Z.div_pos; [lia | apply Z.pow_pos_nonneg; lia]).
    f_equal.
    + rewrite Z.div_div by lia. f_equal.
      rewrite (Nat2Z.inj_succ (S k)), Z.pow_succ_r by lia. lia.
    + rewrite (Nat2Z.inj_succ k), Z.pow_succ_r by lia.
      set (P := 2 ^ Z.of_nat k) in *.
      pose proof (Z.div_mod m P ltac:(lia)) as Hdm.
      pose proof (Z.mod_pos_bound m P ltac:(lia)) as Hb.
      set (q := m / P) in *. set (l := m mod P) in *.
      pose proof (Z.div_mod q 2 ltac:(lia)) as Hq.
      pose proof (Z.mod_pos_bound q 2 ltac:(lia)) as Hqb.
      assert (Hmod : m mod (2 * P) = (q mod 2) * P + l).
      { symmetry. apply (Z.mod_unique_pos m (2 * P) (q / 2)); nia. }
      rewrite Hmod.
      rewrite Zodd_mod.
      destruct (Z.eqb_spec (q mod 2) 1) as [H1|H1];
        destruct (Z.eqb_spec l 0) as [H0|H0]; simpl;
        symmetry; try apply negb_true_iff; try apply negb_false_iff;
        try apply Z.eqb_neq; try apply Z.eqb_eq; nia.
Qed.

Lemma digits_bounds (M : positive) :
  2 ^ (digits M - 1) <= Zpos M < 2 ^ digits M.
Proof.
  unfold digits. induction M as [p IH|p IH|]; cbn [digits2_pos].
  - rewrite Pos2Z.inj_succ. replace (Z.succ (Zpos (digits2_pos p)) - 1) with (Z.succ (Zpos (digits2_pos p) - 1)) by lia.
    rewrite !Z.pow_succ_r by lia. lia.
  - rewrite Pos2Z.inj_succ. replace (Z.succ (Zpos (digits2_pos p)) - 1) with (Z.succ (Zpos (digits2_pos p) - 1)) by lia.
    rewrite !Z.pow_succ_r by lia. lia.
  - simpl. lia.
Qed.

Lemma digits_pos (M : positive) : 0 < digits M.
Proof. unfold digits. lia. Qed.

Lemma fexp_eq (e : Z) : fexp 53 1024 e = Z.max (e - 53) (-1074).
Proof. reflexivity. Qed.

(** The first shift of [binary_round_aux] on an exact positive mantissa. *)
Lemma shr_fexp_exact (M : positive) (E : Z) :
  let n := fexp 53 1024 (digits M + E) - E in
  0 <= n ->
  shr_fexp 53 1024 (Zpos M) E loc_Exact =
  ({| shr_m := Zpos M / 2 ^ n;
      shr_r := if n =? 0 then false else Z.odd (Zpos M / 2 ^ (n - 1));
      shr_s := if n =? 0 then false else negb (Zpos M mod 2 ^ (n - 1) =? 0) |},
   E + n).
Proof.
  intros n Hn. unfold shr_fexp. cbn [Zdigits2 shr_record_of_loc].
  fold (digits M). fold n. unfold shr.
  destruct n as [|p|p] eqn:Hp.
  - cbn. now rewrite Z.div_1_r, Z.add_0_r.
  - rewrite iter_pos_nat.
    destruct (Pos2Nat.is_succ p) as [k Hk]. rewrite Hk.
    rewrite iter_shr_1 by lia.
    assert (Hkz : Z.of_nat k = Zpos p - 1) by lia.
    rewrite Nat2Z.inj_succ, Hkz.
    replace (Z.succ (Zpos p - 1)) with (Zpos p) by lia. reflexivity.
  - lia.
Qed.

(** Round to nearest, ties to even, of the shifted mantissa. *)
Lemma round_nearest_even_nearest (M : positive) (n : Z) :
  0 <= n ->
  let mrs := {| shr_m := Zpos M / 2 ^ n;
                shr_r := if n =? 0 then false else Z.odd (Zpos M / 2 ^ (n - 1));
                shr_s := if n =? 0 then false else negb (Zpos M mod 2 ^ (n - 1) =? 0) |} in
  nearest (Zpos M) n (round_nearest_even (shr_m mrs) (loc_of_shr_record mrs)).
Proof.
  intros Hn mrs. subst mrs. cbn [shr_m].
  destruct (Z.eqb_spec n 0) as [->|Hn0].
  - cbn. rewrite Z.div_1_r. unfold nearest. cbn. 
    split; [lia |]. split; intros; lia.
  - set (P := 2 ^ (n - 1)).
    assert (HP : 0 < P) by (apply Z.pow_pos_nonneg; lia).
    assert (H2P : 2 ^ n = 2 * P).
    { unfold P. replace n with (Z.succ (n - 1)) at 1 by lia.
      rewrite Z.pow_succ_r by lia. reflexivity. }
    rewrite H2P.
    pose proof (Z.div_mod (Zpos M) P ltac:(lia)) as Hdm.
    pose proof (Z.mod_pos_bound (Zpos M) P ltac:(lia)) as Hb.
    set (h := Zpos M / P) in *. set (l := Zpos M mod P) in *.
    assert (Hq : Zpos M / (2 * P) = h / 2).
    { unfold h. rewrite Z.mul_comm. rewrite <- Z.div_div by lia. reflexivity. }
    rewrite Hq.
    pose proof (Z.div_mod h 2 ltac:(lia)) as Hh.
    pose proof (Z.mod_pos_bound h 2 ltac:(lia)) as Hhb.
    set (q := h / 2) in *.
    rewrite (Zodd_mod h).
    pose proof (Z.div_mod q 2 ltac:(lia)) as Hq2.
    pose proof (Z.mod_pos_bound q 2 ltac:(lia)) as Hq2b.
    unfold nearest.
    destruct (Z.eqb_spec (h mod 2) 1) as [H1|H1];
      destruct (Z.eqb_spec l 0) as [H0|H0]; cbn [negb loc_of_shr_record round_nearest_even].
    + (* tie *)
      rewrite (Zeven_mod q).
      destruct (Z.eqb_spec (q mod 2) 0) as [He|He].
      * split; [nia |]. split; intros; rewrite Zeven_mod; apply Z.eqb_eq; lia.
      * split; [nia |].
        assert (Hev : Z.even (q + 1) = true).
        { rewrite Zeven_mod. apply Z.eqb_eq.
          replace (q + 1) with (2 * (q / 2 + 1) + 0) by lia.
          rewrite Z.add_0_r, Z.mul_comm. apply Z.mod_mul. lia. }
        split; intros; exact Hev.
    + split; [nia |]. split; intros; exfalso; nia.
    + split; [nia |]. split; intros; exfalso; nia.
    + split; [nia |]. split; intros; exfalso; nia.
Qed.

Lemma nearest_bounds (M : positive) (n a : Z) :
  0 <= n -> digits M - 53 <= n ->
  nearest (Zpos M) n a ->
  0 <= a <= 2 ^ 53 /\ (n = digits M - 53 -> 2 ^ 52 <= a).
Proof.
  intros Hn Hd [[Hlo Hhi] _].
  pose proof (digits_bounds M) as [Hdl Hdu].
  pose proof (digits_pos M) as Hdp.
  assert (HP : 0 < 2 ^ n) by (apply Z.pow_pos_nonneg; lia).
  assert (Hup : 2 ^ digits M <= 2 ^ n * 2 ^ 53).
  { rewrite <- Z.pow_add_r by lia. apply Z.pow_le_mono_r; lia. }
  split; [split |].
  - nia.
  - assert ((2 * a - 1) * 2 ^ n < 2 ^ 54 * 2 ^ n).
    { change (2 ^ 54) with (2 * 2 ^ 53). nia. }
    assert (2 * a - 1 < 2 ^ 54) by nia.
    change (2 ^ 54) with (2 * 2 ^ 53) in *. lia.
  - intros ->.
    assert (Hd53 : 2 ^ (digits M - 1) = 2 ^ (digits M - 53) * 2 ^ 52).
    { rewrite <- Z.pow_add_r by lia. f_equal. lia. }
    assert (2 ^ 53 * 2 ^ (digits M - 53) <= (2 * a + 1) * 2 ^ (digits M - 53)).
    { change (2 ^ 53) with (2 * 2 ^ 52). nia. }
    assert (2 ^ 53 <= 2 * a + 1) by nia.
    change (2 ^ 53) with (2 * 2 ^ 52) in *. lia.
Qed.

(** The second shift of [binary_round_aux]: a rounded mantissa of 54
    digits loses its last digit, which is 0. *)
Lemma renormalize_pack (a e : Z) :
  0 <= a <= 2 ^ 53 -> -1074 <= e ->
  (let '(mrs, e') := shr_fexp 53 1024 a e loc_Exact in
   match shr_m mrs with
   | Z0 => S754_zero false
   | Zpos m => if e' <=? 1024 - 53 then S754_finite false m e' else S754_infinity false
   | Zneg _ => S754_nan
   end) = pack a e.
Proof.
  intros Ha He. unfold pack.
  destruct (Z.eqb_spec a 0) as [Ha0|Ha0].
  - rewrite Ha0. unfold shr_fexp. cbn [Zdigits2 shr_record_of_loc]. unfold shr.
    rewrite fexp_eq.
    destruct (Z.max (0 + e - 53) (-1074) - e) eqn:Hs; try lia; reflexivity.
  - destruct (Z.eqb_spec a (2 ^ 53)) as [Ha1|Ha1].
    + rewrite Ha1. vm_compute (2 ^ 53). unfold shr_fexp.
      cbn [Zdigits2 digits2_pos Pos.succ shr_record_of_loc].
      rewrite fexp_eq.
      replace (Z.max (54 + e - 53) (-1074) - e) with 1 by lia.
      cbn [shr iter_pos shr_1 shr_m].
      replace (e + 1 <=? 1024 - 53) with (e + 1 <=? 971) by reflexivity.
      reflexivity.
    + destruct a as [|p|p]; try lia.
      unfold shr_fexp. cbn [Zdigits2 shr_record_of_loc]. unfold shr.
      rewrite fexp_eq. fold (digits p).
      pose proof (digits_bounds p) as [Hpl Hpu].
      assert (Hdp : digits p <= 53).
      { destruct (Z_le_gt_dec (digits p) 53) as [|Hgt]; [assumption |].
        assert (2 ^ 53 <= 2 ^ (digits p - 1)) by (apply Z.pow_le_mono_r; lia).
        lia. }
      destruct (Z.max (digits p + e - 53) (-1074) - e) eqn:Hs; try lia;
        cbn [shr_m]; reflexivity.
Qed.

(** What [binary_round_aux] returns on an exact positive mantissa whose
    first shift is to the right (or none). *)
Lemma binary_round_aux_exact (M : positive) (E : Z) :
  let e := fexp 53 1024 (digits M + E) in
  E <= e ->
  exists a,
    nearest (Zpos M) (e - E) a /\
    0 <= a <= 2 ^ 53 /\
    (-1074 < e -> 2 ^ 52 <= a) /\
    binary_round_aux 53 1024 false (Zpos M) E loc_Exact = pack a e.
Proof.
  intros e He.
  pose proof (shr_fexp_exact M E) as H1. cbv zeta in H1. fold e in H1.
  specialize (H1 ltac:(lia)).
  pose proof (round_nearest_even_nearest M (e - E) ltac:(lia)) as Hn. cbv zeta in Hn.
  unfold binary_round_aux. rewrite H1.
  set (mrs := {| shr_m := _; shr_r := _; shr_s := _ |}) in *.
  set (a := round_nearest_even (shr_m mrs) (loc_of_shr_record mrs)) in *.
  assert (Hfe : e = Z.max (digits M + E - 53) (-1074)) by (unfold e; apply fexp_eq).
  destruct (nearest_bounds M (e - E) a ltac:(lia) ltac:(lia) Hn) as [Ha Hlow].
  exists a. split; [exact Hn |]. split; [exact Ha |]. split; [lia |].
  replace (E + (e - E)) with e by lia.
  apply renormalize_pack; lia.
Qed.

Lemma nearest_mono (M1 M2 n1 n2 a b : Z) :
  0 <= n1 -> 0 <= n2 ->
  nearest M1 n1 a -> nearest M2 n2 b ->
  M1 * 2 ^ n2 <= M2 * 2 ^ n1 ->
  a <= b.
Proof.
  intros Hn1 Hn2 [[Ha _] [Hta _]] [[_ Hb] [_ Htb]] Hle.
  assert (HX : 0 < 2 ^ n1) by (apply Z.pow_pos_nonneg; lia).
  assert (HY : 0 < 2 ^ n2) by (apply Z.pow_pos_nonneg; lia).
  set (X := 2 ^ n1) in *. set (Y := 2 ^ n2) in *.
  destruct (Z_le_gt_dec a b) as [|Hgt]; [assumption | exfalso].
  assert (H1 : (2 * a - 1) * (X * Y) <= 2 * M1 * Y) by nia.
  assert (H2 : 2 * M2 * X <= (2 * b + 1) * (X * Y)) by nia.
  assert (H3 : (2 * a - 1) * (X * Y) <= (2 * b + 1) * (X * Y)) by nia.
  assert (HXY : 0 < X * Y) by nia.
  assert (H4 : 2 * a - 1 <= 2 * b + 1) by nia.
  assert (Hab : a = b + 1) by lia.
  assert (E1 : 2 * M1 = (2 * a - 1) * X) by nia.
  assert (E2 : 2 * M2 = (2 * b + 1) * Y) by nia.
  specialize (Hta E1). specialize (Htb E2).
  rewrite Hab in Hta. rewrite Z.even_add in Hta. rewrite Htb in Hta. discriminate.
Qed.

Lemma pack_mono (a1 e1 a2 e2 : Z) :
  0 <= a1 <= 2 ^ 53 -> 0 <= a2 <= 2 ^ 53 ->
  e1 <= e2 ->
  (e1 < e2 -> 2 ^ 52 <= a2) ->
  (e1 = e2 -> a1 <= a2) ->
  SFleb (pack a1 e1) (pack a2 e2) = true.
Proof.
  intros H1 H2 He Hlt Heq. unfold pack.
  assert (P52 : Zpos (2 ^ 52)%positive = 2 ^ 52) by reflexivity.
  assert (Hcmp : forall x y : positive, Pos.compare_cont Eq x y = (Zpos x ?= Zpos y))
    by reflexivity.
  destruct (Z.eqb_spec a1 0), (Z.eqb_spec a2 0),
           (Z.eqb_spec a1 (2 ^ 53)), (Z.eqb_spec a2 (2 ^ 53)),
           (Z.leb_spec (e1 + 1) 971), (Z.leb_spec (e2 + 1) 971),
           (Z.leb_spec e1 971), (Z.leb_spec e2 971);
    try lia; try reflexivity;
    unfold SFleb, SFcompare; rewrite ?Hcmp, ?P52, ?Z2Pos.id by lia;
    repeat match goal with
           | |- context [?x ?= ?y] => destruct (Z.compare_spec x y)
           end; try reflexivity; try lia.
Qed.

(** Rounding is monotone: of two exact positive values, the smaller one
    does not round above the larger one. *)
Lemma binary_round_aux_mono (M1 M2 : positive) (E1 E2 E0 : Z) :
  E0 <= E1 -> E0 <= E2 ->
  E1 <= fexp 53 1024 (digits M1 + E1) ->
  E2 <= fexp 53 1024 (digits M2 + E2) ->
  Zpos M1 * 2 ^ (E1 - E0) <= Zpos M2 * 2 ^ (E2 - E0) ->
  SFleb (binary_round_aux 53 1024 false (Zpos M1) E1 loc_Exact)
        (binary_round_aux 53 1024 false (Zpos M2) E2 loc_Exact) = true.
Proof.
  intros H01 H02 Hs1 Hs2 Hle.
  destruct (binary_round_aux_exact M1 E1 Hs1) as (a1 & Hn1 & Hb1 & _ & ->).
  destruct (binary_round_aux_exact M2 E2 Hs2) as (a2 & Hn2 & Hb2 & Hlow2 & ->).
  rewrite !fexp_eq in *.
  pose proof (digits_bounds M1) as [Hl1 Hu1].
  pose proof (digits_bounds M2) as [Hl2 Hu2].
  pose proof (digits_pos M1) as Hp1. pose proof (digits_pos M2) as Hp2.
  assert (Hmag : digits M1 + E1 <= digits M2 + E2).
  { assert (HA : 0 < 2 ^ (E1 - E0)) by (apply Z.pow_pos_nonneg; lia).
    assert (HB : 0 < 2 ^ (E2 - E0)) by (apply Z.pow_pos_nonneg; lia).
    assert (H1 : 2 ^ (digits M1 - 1 + (E1 - E0)) <= Zpos M1 * 2 ^ (E1 - E0)).
    { rewrite Z.pow_add_r by lia. nia. }
    assert (H2 : Zpos M2 * 2 ^ (E2 - E0) < 2 ^ (digits M2 + (E2 - E0))).
    { rewrite Z.pow_add_r by lia. nia. }
    assert (H3 : 2 ^ (digits M1 - 1 + (E1 - E0)) < 2 ^ (digits M2 + (E2 - E0))) by lia.
    apply Z.pow_lt_mono_r_iff in H3; lia. }
  set (e1 := Z.max (digits M1 + E1 - 53) (-1074)) in *.
  set (e2 := Z.max (digits M2 + E2 - 53) (-1074)) in *.
  apply pack_mono; try assumption; try lia.
  intros Heq.
  apply (nearest_mono (Zpos M1) (Zpos M2) (e1 - E1) (e2 - E2)); try assumption; try lia.
  assert (HT1 : 2 ^ (e1 - E0) = 2 ^ (E1 - E0) * 2 ^ (e1 - E1)).
  { rewrite <- Z.pow_add_r by lia. f_equal. lia. }
  assert (HT2 : 2 ^ (e1 - E0) = 2 ^ (E2 - E0) * 2 ^ (e2 - E2)).
  { rewrite <- Z.pow_add_r by lia. f_equal. lia. }
  assert (HA : 0 < 2 ^ (E1 - E0)) by (apply Z.pow_pos_nonneg; lia).
  assert (HB : 0 < 2 ^ (E2 - E0)) by (apply Z.pow_pos_nonneg; lia).
  assert (HC : 0 < 2 ^ (e1 - E1)) by (apply Z.pow_pos_nonneg; lia).
  assert (HD : 0 < 2 ^ (e2 - E2)) by (apply Z.pow_pos_nonneg; lia).
  set (A := 2 ^ (E1 - E0)) in *. set (B := 2 ^ (E2 - E0)) in *.
  set (C := 2 ^ (e1 - E1)) in *. set (D := 2 ^ (e2 - E2)) in *.
  set (T := 2 ^ (e1 - E0)) in *.
  assert (HTp : 0 < T) by nia.
  assert (Hk : Zpos M1 * D * T <= Zpos M2 * C * T).
  { replace (Zpos M1 * D * T) with (Zpos M1 * A * (C * D)) by (rewrite HT1; ring).
    replace (Zpos M2 * C * T) with (Zpos M2 * B * (C * D)) by (rewrite HT2; ring).
    apply Z.mul_le_mono_nonneg_r; nia. }
  nia.
Qed.

Lemma digits_mul_normal (m mx : positive) : digits m = 53 -> 53 <= digits (m * mx).
Proof.
  intros Hm. pose proof (digits_bounds m) as [Hl _]. rewrite Hm in Hl.
  pose proof (digits_bounds (m * mx)) as [_ Hu].
  destruct (Z_le_gt_dec 53 (digits (m * mx))) as [|Hgt]; [assumption |].
  assert (2 ^ digits (m * mx) <= 2 ^ 52) by (apply Z.pow_le_mono_r; lia).
  rewrite Pos2Z.inj_mul in Hu. change (2 ^ (53 - 1)) with (2 ^ 52) in Hl. nia.
Qed.


Lemma of_nat_small (i : nat) :
  (1 <= i < 250)%nat ->
  exists m e,
    of_nat i = S754_finite false m e /\
    digits m = 53 /\
    Zpos m = Z.of_nat i * 2 ^ (- e) /\
    e = Z.log2 (Z.of_nat i) - 52.
Proof.
  intros Hi.
  assert (Hall : forallb exact_normal (seq 1 249) = true) by (vm_compute; reflexivity).
  rewrite forallb_forall in Hall.
  specialize (Hall i ltac:(apply in_seq; lia)).
  unfold exact_normal in Hall.
  destruct (of_nat i) as [| | |[] m e]; try discriminate.
  apply andb_prop in Hall as [Hall H3]. apply andb_prop in Hall as [H1 H2].
  exists m, e. repeat split; [now apply Z.eqb_eq | now apply Z.eqb_eq | now apply Z.eqb_eq].
Qed.

Lemma of_nat_cases (k : nat) :
  (k < 250)%nat ->
  (k = 0%nat /\ of_nat k = S754_zero false) \/
  exists m e, of_nat k = S754_finite false m e /\ digits m = 53 /\
              Zpos m = Z.of_nat k * 2 ^ (- e) /\
              e = Z.log2 (Z.of_nat k) - 52.
Proof.
  destruct k as [|k]; intros Hk; [now left | right]. apply of_nat_small. lia.
Qed.


Lemma leb_zero_pack (s : bool) (a e : Z) : leb (S754_zero s) (pack a e) = true.
Proof.
  unfold pack.
  destruct (a =? 0); [reflexivity |].
  destruct (a =? 2 ^ 53).
  - destruct (e + 1 <=? 971); reflexivity.
  - destruct (e <=? 971); reflexivity.
Qed.

Lemma mul_normal_pack (ma mx : positive) (ea ex : Z) :
  digits ma = 53 ->
  exists a e, mul (S754_finite false ma ea) (S754_finite false mx ex) = pack a e.
Proof.
  intros Hd.
  change (exists a e,
             binary_round_aux 53 1024 false (Zpos (ma * mx)) (ea + ex) loc_Exact
             = pack a e).
  destruct (binary_round_aux_exact (ma * mx) (ea + ex)) as (a & _ & _ & _ & ->).
  - rewrite fexp_eq. pose proof (digits_mul_normal ma mx Hd). lia.
  - eauto.
Qed.


(** ** No upscaling *)

(** For a native height up to 448 the scale is exactly 1. *)
Lemma scale_of_small (d : number) (wd h : Z) :
  0 <= h <= 448 ->
  scale_of {| duration := d; videoWidth := wd; videoHeight := h |} = of_Z 1.
Proof.
  intros Hh.
  assert (Hall : forallb (fun k => same (scale_of {| duration := d; videoWidth := wd;
                                                     videoHeight := Z.of_nat k |})
                                        (of_Z 1))
                   (seq 0 449) = true)
    by (vm_compute; reflexivity).
  rewrite forallb_forall in Hall.
  specialize (Hall (Z.to_nat h)). rewrite Z2Nat.id in Hall by lia.
  apply same_eq, Hall, in_seq. lia.
Qed.

Lemma nearest_exact (m n a : Z) :
  0 <= n -> nearest (m * 2 ^ n) n a -> a = m.
Proof.
  intros Hn [[Hlo Hhi] _].
  assert (HP : 0 < 2 ^ n) by (apply Z.pow_pos_nonneg; lia).
  nia.
Qed.

Lemma pack_normal (m : positive) (e : Z) :
  digits m = 53 -> e <= 971 -> pack (Zpos m) e = S754_finite false m e.
Proof.
  intros Hd He. unfold pack.
  pose proof (digits_bounds m) as [_ Hu]. rewrite Hd in Hu.
  destruct (Z.eqb_spec (Zpos m) 0); [lia |].
  destruct (Z.eqb_spec (Zpos m) (2 ^ 53)); [lia |].
  destruct (Z.leb_spec e 971); [| lia]. reflexivity.
Qed.

Lemma digits_shift (m : positive) (k : Z) :
  0 <= k -> forall p, Zpos p = Zpos m * 2 ^ k -> digits p = digits m + k.
Proof.
  intros Hk p Hp.
  pose proof (digits_bounds m) as [Hl Hu]. pose proof (digits_bounds p) as [Hl' Hu'].
  pose proof (digits_pos m). pose proof (digits_pos p).
  assert (HP : 0 < 2 ^ k) by (apply Z.pow_pos_nonneg; lia).
  assert (H1 : 2 ^ (digits m - 1 + k) < 2 ^ digits p).
  { rewrite Z.pow_add_r by lia. nia. }
  assert (H2 : 2 ^ (digits p - 1) < 2 ^ (digits m + k)).
  { rewrite (Z.pow_add_r 2 (digits m)) by lia. nia. }
  apply Z.pow_lt_mono_r_iff in H1; try lia.
  apply Z.pow_lt_mono_r_iff in H2; lia.
Qed.

(** A normal number times 1 is itself. *)
Lemma mul_one_normal (m : positive) (e : Z) :
  digits m = 53 -> -1074 <= e <= 971 ->
  mul (S754_finite false m e) (of_Z 1) = S754_finite false m e.
Proof.
  intros Hd He.
  change (of_Z 1) with (S754_finite false 4503599627370496 (-52)).
  change (binary_round_aux 53 1024 false (Zpos (m * 4503599627370496)) (e + -52) loc_Exact
          = S754_finite false m e).
  assert (Hdm : digits (m * 4503599627370496) = 53 + 52).
  { rewrite <- Hd. apply digits_shift; [lia |]. rewrite Pos2Z.inj_mul. reflexivity. }
  destruct (binary_round_aux_exact (m * 4503599627370496) (e + -52))
    as (a & Hn & _ & _ & ->).
  - rewrite fexp_eq, Hdm. lia.
  - rewrite fexp_eq, Hdm in *.
    replace (Z.max (53 + 52 + (e + -52) - 53) (-1074)) with e in * by lia.
    replace (e - (e + -52)) with 52 in Hn by lia.
    rewrite Pos2Z.inj_mul in Hn. change (Zpos 4503599627370496) with (2 ^ 52) in Hn.
    apply nearest_exact in Hn; [| lia]. subst a.
    apply pack_normal; [assumption | lia].
Qed.

Lemma Pos_iter_xO (p k : positive) : Zpos (Pos.iter xO p k) = Zpos p * 2 ^ Zpos k.
Proof.
  induction k as [|k IH] using Pos.peano_ind.
  - cbn [Pos.iter]. rewrite Pos2Z.inj_xO. change (2 ^ 1) with 2. ring.
  - rewrite Pos.iter_succ, Pos2Z.inj_xO, IH, Pos2Z.inj_succ, Z.pow_succ_r by lia. ring.
Qed.

(** A positive integer below 2 ^ 53 is a normal number, exactly. *)
Lemma of_Z_normal (p : positive) :
  digits p <= 53 ->
  exists m,
    of_Z (Zpos p) = S754_finite false m (digits p - 53) /\
    digits m = 53 /\
    Zpos m = Zpos p * 2 ^ (53 - digits p).
Proof.
  intros Hd. pose proof (digits_pos p) as Hp.
  unfold of_Z, binary_normalize, binary_round, prec, emax.
  change (Zpos (digits2_pos p)) with (digits p).
  rewrite fexp_eq. replace (Z.max (digits p + 0 - 53) (-1074)) with (digits p - 53) by lia.
  assert (Hal : exists m, shl_align p 0 (digits p - 53) = (m, digits p - 53) /\
                          Zpos m = Zpos p * 2 ^ (53 - digits p)).
  { unfold shl_align. rewrite Z.sub_0_r.
    destruct (digits p - 53) as [|k|k] eqn:Hk; try lia.
    - exists p. split; [reflexivity |]. replace (53 - digits p) with 0 by lia.
      rewrite Z.pow_0_r. lia.
    - exists (Pos.iter xO p k). split; [reflexivity |].
      rewrite Pos_iter_xO. f_equal. f_equal. lia. }
  destruct Hal as (m & -> & Hm).
  assert (Hdm : digits m = 53).
  { rewrite (digits_shift p (53 - digits p)) with (p := m); [lia | lia | exact Hm]. }
  exists m. split; [| split; assumption].
  destruct (binary_round_aux_exact m (digits p - 53)) as (a & Hn & _ & _ & ->).
  - rewrite fexp_eq, Hdm. lia.
  - rewrite fexp_eq, Hdm in *.
    replace (Z.max (53 + (digits p - 53) - 53) (-1074)) with (digits p - 53) in * by lia.
    replace (digits p - 53 - (digits p - 53)) with 0 in Hn by lia.
    assert (a = Zpos m).
    { apply (nearest_exact (Zpos m) 0 a); [lia |]. now rewrite Z.pow_0_r, Z.mul_1_r. }
    subst a. apply pack_normal; [assumption | lia].
Qed.

Lemma trunc_of_Z (z : Z) : 0 <= z < 2 ^ 53 -> trunc (of_Z z) = z.
Proof.
  intros Hz. destruct z as [|p|p]; [reflexivity | | lia].
  assert (Hd : digits p <= 53).
  { pose proof (digits_bounds p) as [Hl _].
    destruct (Z_le_gt_dec (digits p) 53) as [|Hgt]; [assumption |].
    assert (2 ^ 53 <= 2 ^ (digits p - 1)) by (apply Z.pow_le_mono_r; lia). lia. }
  destruct (of_Z_normal p Hd) as (m & -> & _ & Hm).
  unfold trunc. pose proof (digits_pos p) as Hp.
  destruct (Z.eq_dec (digits p) 53) as [He|He].
  - rewrite He in *. cbn. rewrite Hm. change (2 ^ (53 - 53)) with 1. lia.
  - rewrite Z.shiftl_div_pow2 by lia. rewrite Hm.
    replace (- (digits p - 53)) with (53 - digits p) by lia.
    apply Z.div_mul. apply Z.pow_nonzero; lia.
Qed.

Lemma mul_of_Z_one (z : Z) : 0 <= z < 2 ^ 53 -> mul (of_Z z) (of_Z 1) = of_Z z.
Proof.
  intros Hz. destruct z as [|p|p]; [reflexivity | | lia].
  assert (Hd : digits p <= 53).
  { pose proof (digits_bounds p) as [Hl _].
    destruct (Z_le_gt_dec (digits p) 53) as [|Hgt]; [assumption |].
    assert (2 ^ 53 <= 2 ^ (digits p - 1)) by (apply Z.pow_le_mono_r; lia). lia. }
  destruct (of_Z_normal p Hd) as (m & -> & Hdm & _).
  pose proof (digits_pos p). apply mul_one_normal; [assumption | lia].
Qed.

(** The sampler never upscales: a source at most 448 high gets a canvas
    of its own width and height. *)
Lemma canvas_native_when_small (video : VideoMeta) :
  0 <= videoHeight video <= 448 ->
  0 <= videoWidth video <= 2147483647 ->
  canvas_width video = videoWidth video /\
  canvas_height video = videoHeight video.
Proof.
  intros Hh Hw. destruct video as [d wd h]. cbn [videoHeight videoWidth] in *.
  unfold canvas_width, canvas_height. rewrite (scale_of_small d wd h Hh).
  cbn [videoHeight videoWidth].
  rewrite !mul_of_Z_one by lia.
  unfold set_dimension, to_unsigned_long. rewrite !trunc_of_Z by lia.
  rewrite !Z.mod_small by lia.
  destruct (Z.leb_spec wd 2147483647), (Z.leb_spec h 2147483647); try lia; auto.
Qed.

(** ** Finite sample times *)

Lemma iter_shr_1_m (k : nat) :
  forall mrs, 0 <= shr_m mrs ->
    shr_m (Nat.iter k shr_1 mrs) = shr_m mrs / 2 ^ Z.of_nat k.
Proof.
  induction k as [|k IH]; intros mrs Hm.
  - simpl. now rewrite Z.div_1_r.
  - rewrite Nat.iter_succ_r. destruct mrs as [m r s]. cbn [shr_m] in Hm.
    rewrite shr_1_spec by assumption. rewrite IH; cbn [shr_m].
    + rewrite Z.div_div by (try lia; apply Z.pow_pos_nonneg; lia).
      f_equal. rewrite Nat2Z.inj_succ, Z.pow_succ_r by lia. reflexivity.
    + apply Z.div_pos; lia.
Qed.

Lemma round_nearest_even_floor (m : Z) (l : location) :
  m <= round_nearest_even m l <= m + 1.
Proof.
  unfold round_nearest_even. destruct l as [|[]]; try lia.
  destruct (Z.even m); lia.
Qed.

Lemma shr_m_record_of_loc (m : Z) (l : location) : shr_m (shr_record_of_loc m l) = m.
Proof. destruct l as [|[]]; reflexivity. Qed.

Lemma Zdigits2_bounds (q : Z) : 0 <= q -> 0 <= Zdigits2 q /\ q < 2 ^ Zdigits2 q /\
  (0 < q -> 2 ^ (Zdigits2 q - 1) <= q).
Proof.
  intros Hq. destruct q as [|p|p]; try lia.
  - cbn. lia.
  - cbn [Zdigits2]. fold (digits p). pose proof (digits_bounds p). pose proof (digits_pos p). lia.
Qed.

(** What [binary_round_aux] returns on a non-negative mantissa with any
    location: the shifted mantissa or its successor, at the exponent of
    the format. *)
Lemma binary_round_aux_floor (q e' : Z) (l : location) :
  0 <= q -> -1074 <= e' ->
  let e := fexp 53 1024 (Zdigits2 q + e') in
  e' <= e ->
  exists a,
    q / 2 ^ (e - e') <= a <= q / 2 ^ (e - e') + 1 /\
    0 <= a <= 2 ^ 53 /\
    (-1074 < e -> 2 ^ 52 <= a) /\
    binary_round_aux 53 1024 false q e' l = pack a e.
Proof.
  intros Hq He' e He.
  destruct (Zdigits2_bounds q Hq) as (Hd0 & Hdu & Hdl).
  assert (Hfe : e = Z.max (Zdigits2 q + e' - 53) (-1074)) by (unfold e; apply fexp_eq).
  set (n := e - e') in *.
  assert (HP : 0 < 2 ^ n) by (apply Z.pow_pos_nonneg; lia).
  assert (Hshr : exists mrs, shr_fexp 53 1024 q e' l = (mrs, e) /\ shr_m mrs = q / 2 ^ n).
  { unfold shr_fexp, shr. fold e. fold n.
    destruct n as [|p|p] eqn:Hn; try lia.
    - exists (shr_record_of_loc q l). split; [f_equal; lia |].
      rewrite shr_m_record_of_loc. now rewrite Z.div_1_r.
    - exists (iter_pos shr_1 p (shr_record_of_loc q l)). split; [f_equal; lia |].
      rewrite iter_pos_nat, iter_shr_1_m by (rewrite shr_m_record_of_loc; lia).
      rewrite shr_m_record_of_loc. f_equal. f_equal. lia. }
  destruct Hshr as (mrs & Hs & Hm).
  unfold binary_round_aux. rewrite Hs.
  set (a := round_nearest_even (shr_m mrs) (loc_of_shr_record mrs)).
  pose proof (round_nearest_even_floor (shr_m mrs) (loc_of_shr_record mrs)) as Ha.
  fold a in Ha. rewrite Hm in Ha.
  assert (Hq0 : 0 <= q / 2 ^ n) by (apply Z.div_pos; lia).
  assert (Hup : q / 2 ^ n < 2 ^ 53).
  { apply Z.div_lt_upper_bound; [lia |].
    rewrite <- Z.pow_add_r by lia.
    apply Z.lt_le_trans with (1 := Hdu). apply Z.pow_le_mono_r; lia. }
  exists a. split; [exact Ha |]. split; [lia |]. split.
  - intros Hn. assert (Hnn : n = Zdigits2 q - 53) by lia.
    assert (0 < q).
    { destruct (Z.eq_dec q 0) as [->|]; [cbn in Hfe; lia | lia]. }
    specialize (Hdl ltac:(lia)).
    assert (2 ^ 52 <= q / 2 ^ n); [| lia].
    apply Z.div_le_lower_bound; [lia |].
    rewrite <- Z.pow_add_r by lia.
    replace (n + 52) with (Zdigits2 q - 1) by lia. exact Hdl.
  - apply renormalize_pack; lia.
Qed.

Lemma bounded_facts (m : positive) (e : Z) :
  bounded 53 1024 m e = true ->
  digits m <= 53 /\ -1074 <= e <= 971 /\ (-1074 < e -> digits m = 53).
Proof.
  unfold bounded, canonical_mantissa. intros H.
  apply andb_prop in H as [Hc Hb]. apply Z.eqb_eq in Hc. apply Z.leb_le in Hb.
  rewrite fexp_eq in Hc. fold (digits m) in Hc.
  change (1024 - 53) with 971 in Hb. lia.
Qed.

(** A valid positive duration divided by 250. *)
Lemma div_250 (md : positive) (ed : Z) :
  bounded 53 1024 md ed = true ->
  exists a e,
    div (S754_finite false md ed) (of_nat 250) = pack a e /\
    0 <= a <= 2 ^ 53 /\
    -1074 <= e <= 964 /\
    (-1074 < e -> 2 ^ 52 <= a) /\
    (a - 1) * 250 * 2 ^ (e + 1200) <= Zpos md * 2 ^ (ed + 1200).
Proof.
  intros Hb. destruct (bounded_facts md ed Hb) as (Hd & He & Hn).
  pose proof (digits_bounds md) as [Hml Hmu]. pose proof (digits_pos md) as Hdp.
  change (of_nat 250) with (S754_finite false 8796093022208000 (-45)).
  unfold div, SFdiv, SFdiv_core_binary, prec, emax. cbn [xorb Zdigits2].
  change (Zpos (digits2_pos 8796093022208000)) with 53. fold (digits md).
  rewrite fexp_eq.
  set (e' := Z.min (Z.max (digits md + ed - (53 + -45) - 53) (-1074)) (ed - -45)).
  assert (He' : e' = Z.max (digits md + ed - 61) (-1074)) by (unfold e'; lia).
  set (s := ed - -45 - e').
  assert (Hs : 45 <= s <= 106 - digits md) by (unfold s; lia).
  destruct s as [|sp|sp] eqn:Hsp; try lia.
  rewrite Z.shiftl_mul_pow2 by lia. rewrite <- Hsp.
  set (m' := Zpos md * 2 ^ s).
  assert (HPs : 0 < 2 ^ s) by (apply Z.pow_pos_nonneg; lia).
  pose proof (Z.div_eucl_eq m' 8796093022208000 ltac:(lia)) as Hdiv.
  pose proof (Z.mod_pos_bound m' 8796093022208000 ltac:(lia)) as Hmod.
  unfold Z.modulo in Hmod.
  destruct (Z.div_eucl m' 8796093022208000) as [q r].
  assert (Hm'u : m' < 2 ^ 106).
  { unfold m'. apply Z.lt_le_trans with (2 ^ digits md * 2 ^ s); [nia |].
    rewrite <- Z.pow_add_r by lia. apply Z.pow_le_mono_r; lia. }
  assert (Hq : 0 <= q) by nia.
  assert (Hqu : q < 2 ^ 54).
  { change (2 ^ 106) with (2 ^ 54 * 2 ^ 52) in Hm'u. nia. }
  destruct (Zdigits2_bounds q Hq) as (Hz0 & Hzu & Hzl).
  assert (Hdq : Zdigits2 q <= 54).
  { destruct (Z.eq_dec q 0) as [->|Hq0]; [cbn; lia |].
    specialize (Hzl ltac:(lia)).
    destruct (Z_le_gt_dec (Zdigits2 q) 54) as [|Hgt]; [assumption |].
    assert (2 ^ 54 <= 2 ^ (Zdigits2 q - 1)) by (apply Z.pow_le_mono_r; lia). lia. }
  assert (Hshift : e' <= fexp 53 1024 (Zdigits2 q + e')).
  { rewrite fexp_eq.
    destruct (Z.eq_dec e' (-1074)) as [->|Hne]; [lia |].
    assert (Hs' : s = 106 - digits md) by (unfold s; lia).
    assert (Hm'l : 2 ^ 105 <= m').
    { unfold m'. rewrite Hs'.
      apply Z.le_trans with (2 ^ (digits md - 1) * 2 ^ (106 - digits md)); [| nia].
      rewrite <- Z.pow_add_r by lia. apply Z.pow_le_mono_r; lia. }
    assert (Hql : 2 ^ 52 <= q).
    { change (2 ^ 105) with (2 ^ 52 * 2 ^ 53) in Hm'l.
      change 8796093022208000 with (250 * 2 ^ 45) in *. 
      change (2 ^ 53) with (256 * 2 ^ 45) in Hm'l. nia. }
    assert (53 <= Zdigits2 q); [| lia].
    destruct (Z_le_gt_dec 53 (Zdigits2 q)) as [|Hgt]; [assumption |].
    assert (2 ^ Zdigits2 q <= 2 ^ 52) by (apply Z.pow_le_mono_r; lia). lia. }
  destruct (binary_round_aux_floor q e' (new_location 8796093022208000 r)
              Hq ltac:(lia) Hshift) as (a & Ha & Hab & Hlow & ->).
  rewrite fexp_eq in *.
  set (e := Z.max (Zdigits2 q + e' - 53) (-1074)) in *.
  exists a, e. split; [reflexivity |]. split; [exact Hab |].
  split; [lia |]. split; [exact Hlow |].
  assert (HPn : 0 < 2 ^ (e - e')) by (apply Z.pow_pos_nonneg; lia).
  pose proof (Z.mul_div_le q (2 ^ (e - e')) HPn) as Hfl.
  assert (H1 : (a - 1) * 2 ^ (e - e') <= q) by nia.
  assert (H2 : (a - 1) * 2 ^ (e - e') * (250 * 2 ^ 45) <= Zpos md * 2 ^ s).
  { fold m'. change 8796093022208000 with (250 * 2 ^ 45) in *. nia. }
  assert (HT : 0 < 2 ^ (e' + 1200 - 45)) by (apply Z.pow_pos_nonneg; lia).
  assert (E1 : 2 ^ (e + 1200) = 2 ^ (e - e') * 2 ^ 45 * 2 ^ (e' + 1200 - 45)).
  { rewrite <- !Z.pow_add_r by lia. f_equal. lia. }
  assert (E2 : 2 ^ (ed + 1200) = 2 ^ s * 2 ^ (e' + 1200 - 45)).
  { rewrite <- !Z.pow_add_r by lia. f_equal. unfold s. lia. }
  rewrite E1, E2.
  set (T := 2 ^ (e' + 1200 - 45)) in *.
  replace ((a - 1) * 250 * (2 ^ (e - e') * 2 ^ 45 * T))
    with ((a - 1) * 2 ^ (e - e') * (250 * 2 ^ 45) * T) by ring.
  replace (Zpos md * (2 ^ s * T)) with (Zpos md * 2 ^ s * T) by ring.
  apply Z.mul_le_mono_nonneg_r; lia.
Qed.

Lemma is_finite_below (a e : Z) (m : positive) (f : Z) :
  leb (pack a e) (S754_finite false m f) = true -> is_finite (pack a e) = true.
Proof.
  unfold pack.
  destruct (a =? 0); [reflexivity |].
  destruct (a =? 2 ^ 53).
  - destruct (e + 1 <=? 971); [reflexivity | discriminate].
  - destruct (e <=? 971); [reflexivity | discriminate].
Qed.

(** A product of a normal number whose value is at most the largest
    finite number is finite. *)
Lemma mul_normal_finite (mi mx : positive) (ei ex : Z) :
  digits mi = 53 -> -1200 <= ei + ex ->
  Zpos mi * Zpos mx * 2 ^ (ei + ex + 1200) <= (2 ^ 53 - 1) * 2 ^ 2171 ->
  is_finite (mul (S754_finite false mi ei) (S754_finite false mx ex)) = true.
Proof.
  intros Hd Hlo Hle.
  change (mul (S754_finite false mi ei) (S754_finite false mx ex))
    with (binary_round_aux 53 1024 false (Zpos (mi * mx)) (ei + ex) loc_Exact).
  assert (Hs1 : ei + ex <= fexp 53 1024 (digits (mi * mx) + (ei + ex))).
  { rewrite fexp_eq. pose proof (digits_mul_normal mi mx Hd). lia. }
  pose proof (binary_round_aux_mono (mi * mx) (2 ^ 105 - 2 ^ 52)%positive
                (ei + ex) 919 (-1200)) as Hm.
  destruct (binary_round_aux_exact (mi * mx) (ei + ex) Hs1) as (a & _ & _ & _ & Hr).
  rewrite Hr in *.
  apply (is_finite_below a _ (2 ^ 53 - 1)%positive 971).
  change (S754_finite false (2 ^ 53 - 1)%positive 971)
    with (binary_round_aux 53 1024 false (Zpos (2 ^ 105 - 2 ^ 52)%positive) 919 loc_Exact).
  apply Hm; try lia.
  - vm_compute. discriminate.
  - rewrite Pos2Z.inj_mul.
    replace (ei + ex - -1200) with (ei + ex + 1200) by lia.
    change (Zpos (2 ^ 105 - 2 ^ 52) * 2 ^ (919 - -1200)) with ((2 ^ 53 - 1) * 2 ^ 2171).
    exact Hle.
Qed.

(** The product of an index below 250 and the 250th of a valid
    non-negative duration does not overflow. *)
Lemma mul_index_finite (i : nat) (md : positive) (ed a e : Z) :
  (i < 250)%nat ->
  digits md <= 53 -> -1074 <= ed <= 971 ->
  0 <= a <= 2 ^ 53 -> -1074 <= e <= 964 ->
  (-1074 < e -> 2 ^ 52 <= a) ->
  (a - 1) * 250 * 2 ^ (e + 1200) <= Zpos md * 2 ^ (ed + 1200) ->
  is_finite (mul (of_nat i) (pack a e)) = true.
Proof.
  intros Hi Hd Hed Ha He Hlow Hval.
  assert (Hx : pack a e = S754_zero false \/
               exists mx ex, pack a e = S754_finite false mx ex /\
                             -1074 <= ex /\
                             Zpos mx * 2 ^ (ex + 1200) = a * 2 ^ (e + 1200)).
  { unfold pack. destruct (Z.eqb_spec a 0); [now left | right].
    destruct (Z.eqb_spec a (2 ^ 53)) as [->|].
    - destruct (Z.leb_spec (e + 1) 971); [| lia].
      exists (2 ^ 52)%positive, (e + 1). split; [reflexivity |]. split; [lia |].
      replace (e + 1 + 1200) with (Z.succ (e + 1200)) by lia.
      rewrite Z.pow_succ_r by lia. change (Zpos (2 ^ 52)) with (2 ^ 52).
      change (2 ^ 53) with (2 * 2 ^ 52). ring.
    - destruct (Z.leb_spec e 971); [| lia].
      exists (Z.to_pos a), e. split; [reflexivity |]. split; [lia |].
      rewrite Z2Pos.id by lia. reflexivity. }
  destruct (of_nat_cases i Hi) as [[_ ->] | (mi & ei & -> & Hdi & Hmi & Hei)].
  - destruct Hx as [-> | (mx & ex & -> & _)]; reflexivity.
  - destruct Hx as [-> | (mx & ex & -> & Hex & Hvx)]; [reflexivity |].
    assert (Hipos : 1 <= Z.of_nat i).
    { destruct i; [discriminate Hmi + (cbn in Hmi; lia) | lia]. }
    assert (Hei' : -52 <= ei <= -45).
    { subst ei. pose proof (Z.log2_nonneg (Z.of_nat i)).
      assert (Z.log2 (Z.of_nat i) <= Z.log2 250) by (apply Z.log2_le_mono; lia).
      change (Z.log2 250) with 7 in *. lia. }
    apply mul_normal_finite; [assumption | lia |].
    rewrite Hmi.
    assert (HP : 2 ^ (ei + ex + 1200) * 2 ^ (- ei) = 2 ^ (ex + 1200)).
    { rewrite <- Z.pow_add_r by lia. f_equal. lia. }
    replace (Z.of_nat i * 2 ^ (- ei) * Zpos mx * 2 ^ (ei + ex + 1200))
      with (Z.of_nat i * (Zpos mx * (2 ^ (ei + ex + 1200) * 2 ^ (- ei)))) by ring.
    rewrite HP, Hvx.
    assert (HQ : 0 < 2 ^ (e + 1200)) by (apply Z.pow_pos_nonneg; lia).
    pose proof (digits_bounds md) as [_ Hmu].
    assert (Hmd : Zpos md <= 2 ^ 53 - 1).
    { assert (2 ^ digits md <= 2 ^ 53) by (apply Z.pow_le_mono_r; lia). lia. }
    destruct (Z_lt_ge_dec a 250) as [Hsmall|Hbig].
    + assert (e = -1074).
      { destruct (Z.eq_dec e (-1074)); [assumption |].
        assert (2 ^ 52 <= a) by (apply Hlow; lia).
        change (2 ^ 52) with 4503599627370496 in *. lia. }
      subst e. change (2 ^ (-1074 + 1200)) with (2 ^ 126).
      apply Z.le_trans with (250 * 250 * 2 ^ 126).
      * assert (0 < 2 ^ 126) by (apply Z.pow_pos_nonneg; lia). nia.
      * vm_compute. discriminate.
    + assert (Hia : Z.of_nat i * a <= (a - 1) * 250) by nia.
      apply Z.le_trans with ((a - 1) * 250 * 2 ^ (e + 1200)).
      { rewrite Z.mul_assoc. apply Z.mul_le_mono_nonneg_r; lia. }
      apply Z.le_trans with (1 := Hval).
      apply Z.le_trans with ((2 ^ 53 - 1) * 2 ^ (ed + 1200)).
      * apply Z.mul_le_mono_nonneg_r; [apply Z.pow_nonneg; lia | lia].
      * apply Z.mul_le_mono_nonneg_l; [lia |].
        apply Z.pow_le_mono_r; lia.
Qed.

(** For a valid, finite, non-negative duration every sample time is
    finite. *)
Lemma sample_time_finite (d : number) (i : nat) :
  valid_binary 53 1024 d = true ->
  is_finite d = true -> leb zero d = true ->
  (i < 250)%nat ->
  is_finite (sample_time (div d (of_nat 250)) i) = true.
Proof.
  intros Hv Hf Hp Hi. unfold sample_time.
  destruct d as [s| | |[] md ed]; try discriminate.
  - destruct (of_nat_cases i Hi) as [[_ ->] | (mi & ei & -> & _)];
      destruct s; reflexivity.
  - cbn [valid_binary] in Hv.
    destruct (bounded_facts md ed Hv) as (Hd & He & _).
    destruct (div_250 md ed Hv) as (a & e & -> & Ha & Hea & Hlow & Hval).
    apply (mul_index_finite i md ed a e); try assumption; lia.
Qed.

(** ** Substrings *)

Lemma prefix_app (p s : string) :
  prefix p s = true <-> exists post, s = (p ++ post)%string.
Proof.
  revert s; induction p as [|c p IH]; intros s.
  - split; [intros _; now exists s | now destruct s].
  - destruct s as [|d s]; simpl.
    + split; [discriminate | intros [post H]; discriminate].
    + destruct (ascii_dec c d) as [->|Hne].
      * rewrite IH. split; intros [post H]; exists post.
        -- now rewrite H.
        -- now injection H.
      * split; [discriminate |].
        intros [post H]. injection H as H1 _. now elim Hne.
Qed.

Lemma includes_unfold (s sub : string) :
  includes s sub =
  if prefix sub s then true
  else match s with
       | EmptyString => false
       | String _ s' => includes s' sub
       end.
Proof. now destruct s. Qed.

(** [includes s sub] holds exactly when [sub] occurs in [s]. *)
Lemma includes_spec (s sub : string) :
  includes s sub = true <-> exists pre post, s = (pre ++ sub ++ post)%string.
Proof.
  induction s as [|c s IH]; rewrite includes_unfold.
  - destruct (prefix sub "") eqn:Hp.
    + split; [intros _ | reflexivity].
      apply prefix_app in Hp as [post H]. now exists ""%string, post.
    + split; [discriminate |].
      intros [pre [post H]]. destruct pre; simpl in H.
      * assert (prefix sub "" = true) by (apply prefix_app; now exists post).
        congruence.
      * discriminate.
  - destruct (prefix sub (String c s)) eqn:Hp.
    + split; [intros _ | reflexivity].
      apply prefix_app in Hp as [post H]. now exists ""%string, post.
    + rewrite IH. split.
      * intros [pre [post H]]. exists (String c pre), post. simpl. now rewrite H.
      * intros [pre [post H]]. destruct pre as [|d pre]; simpl in H.
        -- assert (prefix sub (String c s) = true) by (apply prefix_app; now exists post).
           congruence.
        -- injection H as _ H. now exists pre, post.
Qed.

(** ** The monad *)

(** A run that ended without further steps: the world and the outcome
    are those at hand. *)
Ltac inv_run :=
  let H := fresh "Hrun" in
  intros H; injection H as <- <-.

Lemma bind_Rejected {A B} (m : Async A) (k : A -> Async B) w w' e :
  m w = (w', Rejected e) -> bind m k w = (w', Rejected e).
Proof. unfold bind; now intros ->. Qed.

Lemma bind_assoc {A B C} (m : Async A) (k : A -> Async B) (k' : B -> Async C) w :
  bind (bind m k) k' w = bind m (fun a => bind (k a) k') w.
Proof. unfold bind. destruct (m w) as [w' [a|e|]]; reflexivity. Qed.

Lemma bind_await_Fulfilled {A B} (a : A) (k : A -> Async B) w :
  bind (await (Fulfilled a)) k w = k a w.
Proof. reflexivity. Qed.

Lemma bind_setState {B} (f : AppState -> AppState) (k : unit -> Async B) w :
  bind (setState f) k w = k tt (fst (setState f w)).
Proof. reflexivity. Qed.

Lemma statuses_app (l1 l2 : list Event) :
  statuses (l1 ++ l2) = (statuses l1 ++ statuses l2)%list.
Proof.
  induction l1 as [|e l1 IH]; simpl; [reflexivity |].
  destruct e; simpl; now rewrite ?IH.
Qed.

Lemma seeks_app (l1 l2 : list Event) :
  seeks (l1 ++ l2) = (seeks l1 ++ seeks l2)%list.
Proof.
  induction l1 as [|e l1 IH]; simpl; [reflexivity |].
  destruct e; simpl; now rewrite ?IH.
Qed.

(** ** The sampling loop *)

(** With a finite duration, answered seeks are complete seeks: no sample
    time overflows. *)
Lemma seeks_answered_complete B file video :
  finite_duration (duration video) ->
  seeks_answered B file (interval_of video) 0 maxFrames ->
  seeks_complete B file (interval_of video) 0 maxFrames.
Proof.
  intros (Hv & Hf & Hp) Ha j Hj. split; [| exact (Ha j Hj)].
  apply (sample_time_finite (duration video) j Hv Hf Hp).
  change maxFrames with 250%nat in Hj. lia.
Qed.

Lemma logged_nil (w : World) : logged w [] = w.
Proof. destruct w; unfold logged; simpl. now rewrite app_nil_r. Qed.

Section Loop.

Variables (B : Browser) (file : File) (interval : number) (cw ch : Z).

Lemma seeks_complete_step (i n : nat) :
  seeks_complete B file interval i (S n) ->
  is_finite (sample_time interval i) = true /\
  media_seek B file i (sample_time interval i) = seeked /\
  seeks_complete B file interval (S i) n.
Proof.
  intros H. destruct (H i ltac:(lia)) as [Hf Hs].
  repeat split; auto; apply H; lia.
Qed.

(** When every seek completes, the loop resolves: it has made [n] seeks
    in index order and pushed one frame per iteration if there is a 2D
    context, none otherwise. *)
Lemma sample_loop_complete (n : nat) :
  forall i frames w,
    seeks_complete B file interval i n ->
    sample_loop B file interval cw ch n i frames w =
    (logged w (loop_events B interval cw ch i n),
     Fulfilled (resolve (frames ++ captured B file interval cw ch i n))).
Proof.
  induction n as [|n IH]; intros i frames w Hc.
  - unfold captured, loop_events; simpl. rewrite logged_nil.
    destruct (getContext_2d B); simpl; now rewrite app_nil_r.
  - apply seeks_complete_step in Hc as (Hf & Hs & Hc).
    cbn [sample_loop]. unfold set_currentTime. rewrite Hf.
    unfold bind at 1. cbn [emit]. rewrite Hs.
    unfold capture, captured, loop_events in *.
    destruct (getContext_2d B) eqn:Hctx.
    + unfold bind, emit, ret. cbn [log state objectURLs fresh].
      rewrite IH by assumption.
      cbn [seq map flat_map]. unfold logged, frame_at. cbn [log state objectURLs fresh].
      rewrite <- !app_assoc. reflexivity.
    + unfold bind, ret.
      rewrite IH by assumption.
      cbn [seq flat_map]. unfold logged. cbn [log state objectURLs fresh].
      rewrite <- !app_assoc. reflexivity.
Qed.

(** Whatever the loop does, it leaves the state cell and the object URLs
    alone; it calls [reject] only with the decode error; and it resolves
    only when every seek has completed. *)
Lemma sample_loop_sound (n : nat) :
  forall i frames w w' r,
    sample_loop B file interval cw ch n i frames w = (w', r) ->
    state w' = state w /\ objectURLs w' = objectURLs w /\ fresh w' = fresh w /\
    match r with
    | Fulfilled (resolve _) => seeks_complete B file interval i n
    | Fulfilled (reject e) => e = decodeError
    | _ => True
    end.
Proof.
  induction n as [|n IH]; intros i frames w w' r H.
  - simpl in H. unfold ret in H. injection H as <- <-.
    repeat split; try (exfalso; lia).
  - cbn [sample_loop] in H. unfold set_currentTime in H.
    destruct (is_finite (sample_time interval i)) eqn:Hf.
    + unfold bind at 1 in H. cbn [emit] in H.
      destruct (media_seek B file i (sample_time interval i)) eqn:Hs.
      * unfold capture in H.
        destruct (getContext_2d B).
        -- unfold bind, emit, ret in H. apply IH in H. cbn in H.
           destruct H as (H1 & H2 & H3 & H4). repeat split; auto.
           destruct r as [[?|?]| |]; auto.
           intros j Hj. destruct (Nat.eq_dec j i) as [->|]; [auto | apply H4; lia].
        -- unfold bind, ret in H. apply IH in H. cbn in H.
           destruct H as (H1 & H2 & H3 & H4). repeat split; auto.
           destruct r as [[?|?]| |]; auto.
           intros j Hj. destruct (Nat.eq_dec j i) as [->|]; [auto | apply H4; lia].
      * unfold ret in H. injection H as <- <-. cbn. auto.
      * unfold never in H. injection H as <- <-. cbn. auto.
    + unfold bind, throw in H. injection H as <- <-. auto.
Qed.

Lemma captured_length (i n : nat) :
  List.length (captured B file interval cw ch i n) = if getContext_2d B then n else 0%nat.
Proof.
  unfold captured. destruct (getContext_2d B); [| reflexivity].
  now rewrite length_map, length_seq.
Qed.


End Loop.

(** ** The sampler *)

(** The world the sampler leaves when it resolves. *)
Lemma extractFramesFromVideo_complete B file w video :
  media_load B file = loadedmetadata video ->
  seeks_complete B file (interval_of video) 0 maxFrames ->
  extractFramesFromVideo B file w =
  ({| state := state w;
      objectURLs := remove Nat.eq_dec (fresh w) (fresh w :: objectURLs w);
      fresh := S (fresh w);
      log := log w ++ [ev_createObjectURL (fresh w)]
             ++ loop_events B (interval_of video) (canvas_width video)
                  (canvas_height video) 0 maxFrames
             ++ [ev_revokeObjectURL (fresh w)] |},
   Fulfilled (captured B file (interval_of video) (canvas_width video)
                (canvas_height video) 0 maxFrames,
              duration video)).
Proof.
  intros Hl Hc.
  unfold extractFramesFromVideo, new_Promise.
  unfold bind at 1. cbn [createObjectURL]. rewrite Hl.
  unfold bind at 1. fold (interval_of video).
  rewrite sample_loop_complete by assumption.
  unfold bind, revokeObjectURL, ret, logged. cbn [state objectURLs fresh log].
  rewrite <- !app_assoc. reflexivity.
Qed.

(** The world the sampler leaves when the [error] event fires. *)
Lemma extractFramesFromVideo_load_error B file w :
  media_load B file = load_error ->
  extractFramesFromVideo B file w =
  ({| state := state w; objectURLs := fresh w :: objectURLs w;
      fresh := S (fresh w); log := log w ++ [ev_createObjectURL (fresh w)] |},
   Rejected decodeError).
Proof.
  intros Hl. unfold extractFramesFromVideo, new_Promise, bind.
  cbn [createObjectURL]. now rewrite Hl.
Qed.

(** Every way the sampler can end. *)
Lemma extractFramesFromVideo_sound B file w w' r :
  extractFramesFromVideo B file w = (w', r) ->
  state w' = state w /\
  match r with
  | Fulfilled (parts, d) =>
      exists video,
        media_load B file = loadedmetadata video /\
        seeks_complete B file (interval_of video) 0 maxFrames /\
        parts = captured B file (interval_of video) (canvas_width video)
                  (canvas_height video) 0 maxFrames /\
        d = duration video
  | Rejected e =>
      e = decodeError /\ objectURLs w' = fresh w :: objectURLs w
  | Pending => objectURLs w' = fresh w :: objectURLs w
  end.
Proof.
  intros H. pose proof H as H0.
  unfold extractFramesFromVideo, new_Promise in H0.
  unfold bind at 1 in H0. cbn [createObjectURL] in H0.
  destruct (media_load B file) as [video| |] eqn:Hl.
  - unfold bind at 1 in H0.
    match type of H0 with
    | context [sample_loop ?b ?f ?iv ?cw ?ch ?n ?i ?fr ?w0] =>
        destruct (sample_loop b f iv cw ch n i fr w0) as [w1 r1] eqn:Hloop
    end.
    apply sample_loop_sound in Hloop. cbn [state objectURLs fresh] in Hloop.
    destruct Hloop as (Hs & Hu & Hf & Hr).
    destruct r1 as [[frames|e]|e|].
    + clear H0. fold (interval_of video) in Hr.
      rewrite (extractFramesFromVideo_complete B file w video Hl Hr) in H.
      pose proof (f_equal fst H) as Hw. pose proof (f_equal snd H) as Hres.
      cbn [fst snd] in Hw, Hres. subst w' r.
      split; [reflexivity |]. exists video.
      split; [reflexivity |]. split; [exact Hr |]. split; reflexivity.
    + unfold ret in H0. injection H0 as <- <-. subst e. auto.
    + injection H0 as <- <-. auto.
    + injection H0 as <- <-. auto.
  - unfold ret in H0. injection H0 as <- <-. cbn. auto.
  - unfold never in H0. injection H0 as <- <-. cbn. auto.
Qed.

(** On its success path the sampler revokes the object URL it created. *)
Lemma extractFramesFromVideo_releases_on_success B file w w' parts d :
  extractFramesFromVideo B file w = (w', Fulfilled (parts, d)) ->
  ~ In (fresh w) (objectURLs w').
Proof.
  intros H. pose proof H as Hs. apply extractFramesFromVideo_sound in Hs.
  destruct Hs as (_ & video & Hl & Hc & _ & _).
  rewrite (extractFramesFromVideo_complete B file w video Hl Hc) in H.
  injection H as <- _ _.
  exact (remove_In Nat.eq_dec (fresh w :: objectURLs w) (fresh w)).
Qed.

Lemma finite_duration_video600 : finite_duration (duration Inputs.video600).
Proof. repeat split; reflexivity. Qed.

Lemma seeks_complete_video600 (ctx : bool) r p :
  seeks_complete
    (Inputs.mkBrowser (loadedmetadata Inputs.video600) ctx r p)
    Inputs.clip (interval_of Inputs.video600) 0 maxFrames.
Proof.
  apply seeks_answered_complete; [exact finite_duration_video600 |].
  intros j _. reflexivity.
Qed.

(** C1, as the code has it.  The sampler ends in one of three ways: its
    promise is rejected with the decode error, it never settles, or it is
    fulfilled; when fulfilled, the batch has exactly 250 frames if the
    canvas gave a 2D context and is empty if [getContext('2d')] was null,
    whatever the duration and the resolution.  When the metadata loads
    with a finite duration and the element answers every seek, the
    promise is fulfilled. *)
Theorem extractFramesFromVideo_frame_count (B : Browser) (file : File) (w : World) :
  (forall parts d,
      snd (extractFramesFromVideo B file w) = Fulfilled (parts, d) ->
      List.length parts = if getContext_2d B then 250%nat else 0%nat) /\
  (forall e,
      snd (extractFramesFromVideo B file w) = Rejected e -> e = decodeError) /\
  (forall video,
      media_load B file = loadedmetadata video ->
      finite_duration (duration video) ->
      seeks_answered B file (interval_of video) 0 250 ->
      exists parts,
        snd (extractFramesFromVideo B file w) = Fulfilled (parts, duration video) /\
        List.length parts = if getContext_2d B then 250%nat else 0%nat).
Proof.
  destruct (extractFramesFromVideo B file w) as [w' r] eqn:Hrun.
  pose proof (extractFramesFromVideo_sound _ _ _ _ _ Hrun) as [_ Hr].
  cbn [snd]. repeat split.
  - intros parts d ->. destruct Hr as (video & _ & _ & -> & _).
    apply captured_length.
  - intros e ->. now destruct Hr.
  - intros video Hl Hd Ha.
    pose proof (seeks_answered_complete B file video Hd Ha) as Hc.
    rewrite (extractFramesFromVideo_complete B file w video Hl Hc) in Hrun.
    injection Hrun as _ <-. eexists; split; [reflexivity |].
    apply captured_length.
Qed.

Lemma extractFramesFromVideo_frame_count_witness :
  exists parts,
    snd (extractFramesFromVideo Inputs.browser_ok Inputs.clip (world0 initialState))
    = Fulfilled (parts, of_Z 600) /\
    List.length parts = 250%nat.
Proof.
  destruct (extractFramesFromVideo_frame_count
              Inputs.browser_ok Inputs.clip (world0 initialState)) as (_ & _ & H).
  apply (H Inputs.video600).
  - reflexivity.
  - repeat split; reflexivity.
  - intros j _. reflexivity.
Defined.

(** C1 as stated fails: a source that loads with duration 600 > 0 and a
    canvas without a 2D context give a fulfilled promise with an empty
    batch. *)
Lemma extractFramesFromVideo_empty_batch :
  media_load Inputs.browser_no_context Inputs.clip = loadedmetadata Inputs.video600 /\
  ltb zero (duration Inputs.video600) = true /\
  snd (extractFramesFromVideo Inputs.browser_no_context Inputs.clip
         (world0 initialState))
  = Fulfilled ([], of_Z 600).
Proof.
  split; [reflexivity |]. split; [reflexivity |].
  pose proof (extractFramesFromVideo_complete Inputs.browser_no_context Inputs.clip
                (world0 initialState) Inputs.video600 eq_refl
                (seeks_complete_video600 false _ _)) as H.
  rewrite H. reflexivity.
Qed.

(** C9 at the failing input: when the [error] event fires, the promise is
    rejected and the object URL created for the element is still live;
    no [revokeObjectURL] has happened. *)
Theorem extractFramesFromVideo_error_keeps_object_URL :
  extractFramesFromVideo Inputs.browser_undecodable Inputs.clip (world0 initialState)
  = ({| state := initialState; objectURLs := [0%nat]; fresh := 1%nat;
        log := [ev_createObjectURL 0] |},
     Rejected decodeError).
Proof. reflexivity. Qed.

(** The same on every source whose [error] event fires, and on every
    run that is rejected or never settles. *)
Lemma extractFramesFromVideo_leak B file w w' r :
  extractFramesFromVideo B file w = (w', r) ->
  (forall parts d, r <> Fulfilled (parts, d)) ->
  In (fresh w) (objectURLs w').
Proof.
  intros H Hr. apply extractFramesFromVideo_sound in H as [_ H].
  destruct r as [[parts d]|e|].
  - now elim (Hr parts d).
  - destruct H as [_ ->]. now left.
  - rewrite H. now left.
Qed.

(** C6 at the failing input: a 320 by 568 source gets a canvas 447 high,
    because 568 * (448 / 568) rounds to the double just below 448 and the
    assignment to [canvas.height] drops the fraction. *)
Theorem canvas_height_568 :
  scale_of Inputs.video568 = div (of_Z 448) (of_Z 568) /\
  ltb (mul (of_Z 568) (scale_of Inputs.video568)) (of_Z 448) = true /\
  canvas_height Inputs.video568 = 447 /\
  canvas_width Inputs.video568 = 252 /\
  nth_error (log (fst (extractFramesFromVideo Inputs.browser_568 Inputs.clip
                         (world0 initialState)))) 2
  = Some (ev_drawImage 252 447).
Proof. vm_compute. repeat split; reflexivity. Qed.

(** The same sampler on the 1080p clip draws 448 high. *)
Lemma canvas_height_1080 :
  canvas_height Inputs.video600 = 448 /\ canvas_width Inputs.video600 = 796.
Proof. vm_compute. split; reflexivity. Qed.


(** ** The orchestrator *)

Lemma sampler_answered_settles B file w :
  sampler_answered B file -> snd (extractFramesFromVideo B file w) <> Pending.
Proof.
  unfold sampler_answered. intros H.
  destruct (media_load B file) as [video| |] eqn:Hl.
  - destruct H as [Hd Ha].
    rewrite (extractFramesFromVideo_complete B file w video Hl
               (seeks_answered_complete B file video Hd Ha)).
    discriminate.
  - unfold extractFramesFromVideo, new_Promise, bind. cbn [createObjectURL].
    rewrite Hl. cbn. discriminate.
  - contradiction.
Qed.

(** How the [try] block ends. *)
Lemma try_body_outcome B file url w w1 r :
  try_body B file url w = (w1, r) ->
  match r with
  | Fulfilled _ =>
      status (state w1) = completed /\
      error_msg (state w1) = error_msg (state w)
  | Rejected _ =>
      (status (state w1) = analyzing /\ error_msg (state w1) = error_msg (state w))
      \/ state w1 = state w
  | Pending => status (state w1) = analyzing \/ state w1 = state w
  end.
Proof.
  unfold try_body.
  assert (Hsampler : forall f w0 w2 r2,
    (r0 <- extractFramesFromVideo B f ;;
     setState set_analyzing ;;
     result <- await (analyzeVideo B (fst r0) (snd r0)) ;;
     setState (set_completed result)) w0 = (w2, r2) ->
    match r2 with
    | Fulfilled _ =>
        status (state w2) = completed /\
        error_msg (state w2) = error_msg (state w0)
    | Rejected _ =>
        (status (state w2) = analyzing /\ error_msg (state w2) = error_msg (state w0))
        \/ state w2 = state w0
    | Pending => status (state w2) = analyzing \/ state w2 = state w0
    end).
  { intros f w0 w2 r2. unfold bind at 1.
    destruct (extractFramesFromVideo B f w0) as [w3 r3] eqn:Hx.
    apply extractFramesFromVideo_sound in Hx as [Hst _].
    destruct r3 as [[parts d]|e|].
    - unfold bind, setState, await. cbn [fst snd state].
      destruct (analyzeVideo B parts d) as [res|e|].
      + inv_run. cbn. rewrite Hst. split; reflexivity.
      + inv_run. cbn. rewrite Hst. left. split; reflexivity.
      + inv_run. cbn. now left.
    - inv_run. now right.
    - inv_run. now right. }
  destruct file as [f|].
  - intros H.
    assert (H' : (r0 <- extractFramesFromVideo B f ;;
                  setState set_analyzing ;;
                  result <- await (analyzeVideo B (fst r0) (snd r0)) ;;
                  setState (set_completed result))
                   (fst (setState set_analyzing w)) = (w1, r)).
    { rewrite <- H. unfold bind, setState. cbn [fst].
      destruct (extractFramesFromVideo B f _) as [w3 [[parts d]|e|]]; reflexivity. }
    apply Hsampler in H'. cbn [setState fst state] in H'.
    destruct r as [u|e|]; [exact H' | |].
    + left. destruct H' as [H'|H']; [exact H' | now rewrite H'].
    + left. destruct H' as [H'|H']; [exact H' | now rewrite H'].
  - unfold bind at 1. unfold bind at 1. unfold bind at 1. unfold await at 1.
    destruct (fetch B url) as [response|e|].
    + unfold bind at 1. unfold await at 1.
      destruct (blob response) as [b|e|].
      * intros H.
        assert (H' : (r0 <- extractFramesFromVideo B
                               (new_File b "video_source" (blob_type b)) ;;
                      setState set_analyzing ;;
                      result <- await (analyzeVideo B (fst r0) (snd r0)) ;;
                      setState (set_completed result))
                       (fst (setState set_analyzing w)) = (w1, r)).
        { rewrite <- H. unfold bind, setState. cbn [fst].
          destruct (extractFramesFromVideo B _ _) as [w3 [[parts d]|e|]]; reflexivity. }
        apply Hsampler in H'. cbn [setState fst state] in H'.
        destruct r as [u|e'|]; [exact H' | |].
        -- left. destruct H' as [H'|H']; [exact H' | now rewrite H'].
        -- left. destruct H' as [H'|H']; [exact H' | now rewrite H'].
      * inv_run. now right.
      * inv_run. now right.
    + inv_run. now right.
    + inv_run. now right.
Qed.

(** When everything answers, the [try] block does not stay suspended. *)
Lemma try_body_answered B file url w :
  answered B file url -> snd (try_body B file url w) <> Pending.
Proof.
  intros [Hsrc Hprov]. unfold try_body.
  assert (Hsampler : forall f w0,
    sampler_answered B f ->
    snd ((r0 <- extractFramesFromVideo B f ;;
          setState set_analyzing ;;
          result <- await (analyzeVideo B (fst r0) (snd r0)) ;;
          setState (set_completed result)) w0) <> Pending).
  { intros f w0 Hf. pose proof (sampler_answered_settles B f w0 Hf) as Hx.
    unfold bind at 1.
    destruct (extractFramesFromVideo B f w0) as [w3 [[parts d]|e|]];
      cbn [snd] in *; try discriminate; [| congruence].
    unfold bind, setState, await. cbn [fst snd].
    specialize (Hprov parts d).
    destruct (analyzeVideo B parts d); cbn; congruence. }
  destruct file as [f|].
  - specialize (Hsampler f (fst (setState set_analyzing w)) Hsrc).
    intros H. apply Hsampler. rewrite <- H.
    unfold bind, setState. cbn [fst].
    destruct (extractFramesFromVideo B f _) as [w3 [[parts d]|e|]]; reflexivity.
  - unfold bind at 1. unfold bind at 1. unfold bind at 1. unfold await at 1.
    destruct (fetch B url) as [response|e|];
      [| cbn [snd]; discriminate | contradiction].
    unfold bind at 1. unfold await at 1.
    destruct (blob response) as [b|e|];
      [| cbn [snd]; discriminate | contradiction].
    specialize (Hsampler _ (fst (setState set_analyzing w)) Hsrc).
    intros H. apply Hsampler. rewrite <- H.
    unfold bind, setState. cbn [fst].
    destruct (extractFramesFromVideo B _ _) as [w3 [[parts d]|e|]]; reflexivity.
Qed.

(** [handleVideoSelection] in terms of how its [try] block ends. *)
Lemma handleVideoSelection_unfold B file url w :
  handleVideoSelection B file url w =
  match try_body B file url (fst (setState set_uploading w)) with
  | (w1, Rejected (readable err)) =>
      ({| state := set_error (errorMessage err) (state w1);
          objectURLs := objectURLs w1; fresh := fresh w1;
          log := log w1 ++ [ev_console_error err;
                            ev_setState (set_error (errorMessage err) (state w1))] |},
       Fulfilled tt)
  | (w1, Rejected (unreadable v)) =>
      (logged w1 [ev_console_error (unreadable v)], Rejected (unreadableError v))
  | other => other
  end.
Proof.
  unfold handleVideoSelection, try_catch. unfold bind at 1. cbn [setState fst].
  destruct (try_body B file url _) as [w1 [[]|[e|v]|]]; try reflexivity.
  unfold catch_clause, bind, emit, setState. cbn. rewrite <- app_assoc. reflexivity.
Qed.

Lemma has_indicator_spec (m : string) :
  has_indicator m = true <->
  contains m "string length" \/ contains m "memory" \/ contains m "allocation".
Proof.
  unfold has_indicator, contains.
  rewrite !orb_true_iff, !includes_spec. tauto.
Qed.

Lemma message_or_fallback_nonempty (err : Thrown) (m : string) :
  message err = Some m -> m <> ""%string -> message_or_fallback err = m.
Proof.
  unfold message_or_fallback. intros -> Hm. destruct m; [now elim Hm | reflexivity].
Qed.

Lemma message_or_fallback_absent (err : Thrown) :
  message err = None \/ message err = Some ""%string ->
  message_or_fallback err = fallbackMessage.
Proof. unfold message_or_fallback. now intros [-> | ->]. Qed.

(** What a caught failure leaves in the state. *)
Lemma handleVideoSelection_caught B file url w (err : Thrown) :
  snd (try_body B file url (fst (setState set_uploading w))) = Rejected err ->
  snd (handleVideoSelection B file url w) = Fulfilled tt /\
  status (state (fst (handleVideoSelection B file url w))) = error /\
  error_msg (state (fst (handleVideoSelection B file url w))) = Some (errorMessage err).
Proof.
  rewrite handleVideoSelection_unfold.
  destruct (try_body B file url _) as [w1 r]. cbn [snd]. intros ->. cbn. auto.
Qed.

(** How a run can end.  A fulfilled call leaves the status [completed],
    or [error] with a message stored.  A call that never settles, or
    that is rejected, leaves it at [uploading] or [analyzing]; the call
    is rejected only by its own [catch] clause, on a value it cannot
    read.  When the source (with a finite duration), the fetch and the
    provider all answer, the call does settle. *)
Lemma handleVideoSelection_outcomes
    (B : Browser) (file : option File) (url : string) (w : World) :
  let run := handleVideoSelection B file url w in
  (snd run = Fulfilled tt ->
     status (state (fst run)) = completed \/
     (status (state (fst run)) = error /\
      exists m, error_msg (state (fst run)) = Some m)) /\
  (snd run = Pending \/ (exists e, snd run = Rejected e) ->
     status (state (fst run)) = uploading \/ status (state (fst run)) = analyzing) /\
  (forall e, snd run = Rejected e ->
     exists v,
       snd (try_body B file url (fst (setState set_uploading w)))
       = Rejected (unreadable v) /\
       e = unreadableError v) /\
  (answered B file url -> snd run <> Pending).
Proof.
  cbv zeta. rewrite handleVideoSelection_unfold.
  pose proof (try_body_answered B file url (fst (setState set_uploading w))) as Hlive.
  destruct (try_body B file url _) as [w1 r] eqn:Hbody.
  apply try_body_outcome in Hbody. cbn [setState fst state set_uploading] in Hbody.
  assert (Hbusy : forall s : AppState,
             (status s = analyzing /\ error_msg s = None)
             \/ s = set_uploading (state w) ->
             status s = uploading \/ status s = analyzing).
  { intros s [[H _] | ->]; [now right | now left]. }
  destruct r as [[]|[err|v]|]; cbn [fst snd state logged] in *.
  - split; [intros _; left; exact (proj1 Hbody) |].
    split; [intros [H | [e H]]; discriminate |].
    split; [intros e H; discriminate |]. discriminate.
  - split; [intros _; right; split; [reflexivity | now eexists] |].
    split; [intros [H | [e H]]; discriminate |].
    split; [intros e H; discriminate |]. discriminate.
  - split; [discriminate |].
    split; [intros _; now apply Hbusy |].
    split; [| discriminate].
    intros e H. exists v. split; [reflexivity |]. now injection H.
  - split; [discriminate |].
    split; [intros _; destruct Hbody as [H | ->]; [now right | now left] |].
    split; [intros e H; discriminate |]. intros Ha. now elim (Hlive Ha).
Qed.

Lemma answered_browser_ok :
  answered Inputs.browser_ok (Some Inputs.clip) "".
Proof.
  split.
  - split; [exact finite_duration_video600 | intros j _; reflexivity].
  - intros parts d. discriminate.
Qed.

(** C2.  The claim fails on a recording without a known length.  From
    [idle], the metadata loads with the duration [Infinity], and the
    element, the fetch and the provider would answer whatever they are
    asked; yet the call never settles.  The first sample time is
    [0 * Infinity], not a number; the assignment to [video.currentTime]
    throws inside the [async] [onloadedmetadata] handler, where neither
    the [try] block nor [video.onerror] sees it; [resolve] and [reject]
    are never called, and the status stays [analyzing] with no error
    stored. *)
Theorem handleVideoSelection_hangs_on_unbounded_duration :
  status (state (world0 initialState)) = idle /\
  media_load Inputs.browser_live Inputs.clip = loadedmetadata Inputs.videoLive /\
  duration Inputs.videoLive = S754_infinity false /\
  (forall i t, media_seek Inputs.browser_live Inputs.clip i t = seeked) /\
  (forall parts d, analyzeVideo Inputs.browser_live parts d
                   = Fulfilled (Some Inputs.analysis)) /\
  sample_time (interval_of Inputs.videoLive) 0 = S754_nan /\
  handleVideoSelection Inputs.browser_live (Some Inputs.clip) "" (world0 initialState)
  = ({| state := {| status := analyzing; progress := zero; result := None;
                    error_msg := None |};
        objectURLs := [0%nat]; fresh := 1%nat;
        log := [ev_setState {| status := uploading; progress := zero;
                               result := None; error_msg := None |};
                ev_setState {| status := analyzing; progress := zero;
                               result := None; error_msg := None |};
                ev_createObjectURL 0] |},
     Pending).
Proof. vm_compute. repeat split; reflexivity. Qed.

(** C3, as the code has it.  With a remote URL, a fetch that rejects
    takes the state through [uploading] to [error] and the stored
    message comes from the fetch failure.  A response that arrives, with
    whatever HTTP status, is not a failure: its body goes to the sampler,
    and when the body does not load as a video the state goes through
    [uploading] and [analyzing] to [error] with the sampler's message. *)
Theorem handleVideoSelection_remote_failures (B : Browser) (url : string) (w : World) :
  (forall e : Thrown,
      fetch B url = Rejected e ->
      snd (handleVideoSelection B None url w) = Fulfilled tt /\
      statuses (log (fst (handleVideoSelection B None url w)))
      = (statuses (log w) ++ [uploading; error])%list /\
      error_msg (state (fst (handleVideoSelection B None url w)))
      = Some (errorMessage e)) /\
  (forall response b,
      fetch B url = Fulfilled response ->
      blob response = Fulfilled b ->
      media_load B (new_File b "video_source" (blob_type b)) = load_error ->
      snd (handleVideoSelection B None url w) = Fulfilled tt /\
      statuses (log (fst (handleVideoSelection B None url w)))
      = (statuses (log w) ++ [uploading; analyzing; error])%list /\
      error_msg (state (fst (handleVideoSelection B None url w)))
      = Some "Failed to process video file. Ensure it is a valid MP4/MOV/WebM."%string).
Proof.
  split.
  - intros e He. rewrite handleVideoSelection_unfold.
    unfold try_body, bind, await. rewrite He. cbn.
    rewrite !statuses_app. cbn. rewrite <- app_assoc. auto.
  - intros response b Hf Hb Hl. rewrite handleVideoSelection_unfold.
    unfold try_body.
    rewrite bind_assoc, Hf, bind_await_Fulfilled.
    rewrite bind_assoc, Hb, bind_await_Fulfilled.
    rewrite bind_assoc, bind_setState.
    erewrite bind_Rejected by (apply extractFramesFromVideo_load_error, Hl).
    cbn [fst snd setState state log error_msg set_error].
    rewrite !statuses_app. cbn [statuses]. rewrite <- !app_assoc. auto.
Qed.

Lemma handleVideoSelection_remote_failures_witness :
  statuses (log (fst (handleVideoSelection Inputs.browser_ok None "https://example.org/a.mp4"
                        (world0 initialState))))
  = [uploading; error] /\
  error_msg (state (fst (handleVideoSelection Inputs.browser_ok None
                           "https://example.org/a.mp4" (world0 initialState))))
  = Some "Failed to fetch"%string.
Proof.
  destruct (handleVideoSelection_remote_failures Inputs.browser_ok
              "https://example.org/a.mp4" (world0 initialState)) as [H _].
  destruct (H (Error "Failed to fetch") eq_refl) as (_ & H1 & H2).
  split; [exact H1 | exact H2].
Defined.

(** C3 as stated fails: the URL answers 404, the fetch is fulfilled all
    the same, and the failure stored is the sampler's, after the state
    has been through [analyzing]. *)
Lemma handleVideoSelection_404 :
  fetch Inputs.browser_404 "https://example.org/missing.mp4" = Inputs.notFound /\
  statuses (log (fst (handleVideoSelection Inputs.browser_404 None
                        "https://example.org/missing.mp4" (world0 initialState))))
  = [uploading; analyzing; error] /\
  statuses (log (fst (handleVideoSelection Inputs.browser_404 None
                        "https://example.org/missing.mp4" (world0 initialState))))
  <> [uploading; error] /\
  error_msg (state (fst (handleVideoSelection Inputs.browser_404 None
                           "https://example.org/missing.mp4" (world0 initialState))))
  = Some "Failed to process video file. Ensure it is a valid MP4/MOV/WebM."%string.
Proof.
  split; [reflexivity |]. split; [reflexivity |]. split; [discriminate | reflexivity].
Qed.

Lemma memoryOverflowMessage_no_indicator :
  has_indicator memoryOverflowMessage = false.
Proof. reflexivity. Qed.

(** C4, as the code has it.  For a failure caught by
    [handleVideoSelection] whose message contains "string length",
    "memory" or "allocation", the message stored is the standardized one
    and differs from the raw one; a failure whose message is not empty
    and contains none of the three is stored verbatim. *)
Theorem handleVideoSelection_error_message
    (B : Browser) (file : option File) (url : string) (w : World)
    (err : Thrown) (m : string) :
  snd (try_body B file url (fst (setState set_uploading w))) = Rejected err ->
  message err = Some m ->
  (contains m "string length" \/ contains m "memory" \/ contains m "allocation" ->
   error_msg (state (fst (handleVideoSelection B file url w)))
   = Some "Memory overflow. The video analysis hit a technical limit. Try a shorter file."%string
   /\ memoryOverflowMessage <> m) /\
  (~ (contains m "string length" \/ contains m "memory" \/ contains m "allocation") ->
   m <> ""%string ->
   error_msg (state (fst (handleVideoSelection B file url w))) = Some m).
Proof.
  intros Hbody Hm.
  destruct (handleVideoSelection_caught B file url w err Hbody) as (_ & _ & ->).
  unfold errorMessage. split.
  - intros Hc. apply has_indicator_spec in Hc.
    destruct (Bool.bool_dec (m =? "")%string true) as [He|He].
    + apply String.eqb_eq in He. subst m. discriminate Hc.
    + assert (m <> ""%string) by (intros ->; now apply He).
      rewrite (message_or_fallback_nonempty err m Hm) by assumption.
      rewrite Hc. split; [reflexivity |].
      intros <-. rewrite memoryOverflowMessage_no_indicator in Hc. discriminate.
  - intros Hc Hne.
    rewrite (message_or_fallback_nonempty err m Hm Hne).
    destruct (has_indicator m) eqn:Hi; [| reflexivity].
    apply has_indicator_spec in Hi. contradiction.
Qed.

Lemma try_body_browser_allocation :
  snd (try_body Inputs.browser_allocation (Some Inputs.clip) ""
         (fst (setState set_uploading (world0 initialState))))
  = Rejected (Error "Array buffer allocation failed").
Proof. vm_compute. reflexivity. Qed.

Lemma handleVideoSelection_error_message_witness :
  error_msg (state (fst (handleVideoSelection Inputs.browser_allocation
                           (Some Inputs.clip) "" (world0 initialState))))
  = Some "Memory overflow. The video analysis hit a technical limit. Try a shorter file."%string.
Proof.
  destruct (handleVideoSelection_error_message Inputs.browser_allocation
              (Some Inputs.clip) "" (world0 initialState)
              (Error "Array buffer allocation failed")
              "Array buffer allocation failed"
              try_body_browser_allocation eq_refl) as [H _].
  apply H. right. right.
  exists "Array buffer "%string, " failed"%string. reflexivity.
Defined.

(** C4 as stated fails on its second half: the provider fails with an
    empty message, which contains none of the three substrings, and the
    message stored is the fallback, not the empty message. *)
Lemma handleVideoSelection_empty_message_not_verbatim :
  snd (try_body Inputs.browser_empty_message (Some Inputs.clip) ""
         (fst (setState set_uploading (world0 initialState))))
  = Rejected (Error "") /\
  has_indicator "" = false /\
  error_msg (state (fst (handleVideoSelection Inputs.browser_empty_message
                           (Some Inputs.clip) "" (world0 initialState))))
  = Some "An unexpected error occurred."%string /\
  error_msg (state (fst (handleVideoSelection Inputs.browser_empty_message
                           (Some Inputs.clip) "" (world0 initialState))))
  <> Some ""%string.
Proof.
  assert (H : snd (try_body Inputs.browser_empty_message (Some Inputs.clip) ""
                     (fst (setState set_uploading (world0 initialState))))
              = Rejected (Error "")) by (vm_compute; reflexivity).
  split; [exact H |]. split; [reflexivity |].
  destruct (handleVideoSelection_caught _ _ _ _ _ H) as (_ & _ & ->).
  split; [reflexivity | discriminate].
Qed.

(** C10, as the code has it.  The [catch] clause reads [err.message] and
    calls [includes] on it.  On a thrown value it can read (an object
    whose [message] is a string, absent or falsy) the call is fulfilled,
    the status becomes [error] and a string is stored in [error]: a
    message that is not empty is stored as it is or replaced by the
    standardized one; with no message, or an empty one, the fallback is
    stored.  On [null], on [undefined] and on a [message] that is
    truthy, not a string and without a method [includes], the clause
    itself throws a [TypeError]: the call is rejected with it, no state
    is set after the [try] block, the status stays [uploading] or
    [analyzing] and [error] stays [null]. *)
Theorem handleVideoSelection_caught_failure
    (B : Browser) (file : option File) (url : string) (w : World) (err : Caught) :
  snd (try_body B file url (fst (setState set_uploading w))) = Rejected err ->
  match err with
  | readable e =>
      snd (handleVideoSelection B file url w) = Fulfilled tt /\
      status (state (fst (handleVideoSelection B file url w))) = error /\
      (exists text,
         error_msg (state (fst (handleVideoSelection B file url w))) = Some text) /\
      (forall m, message e = Some m -> m <> ""%string ->
         error_msg (state (fst (handleVideoSelection B file url w))) = Some m \/
         (has_indicator m = true /\
          error_msg (state (fst (handleVideoSelection B file url w)))
          = Some memoryOverflowMessage)) /\
      (message e = None \/ message e = Some ""%string ->
         error_msg (state (fst (handleVideoSelection B file url w)))
         = Some "An unexpected error occurred."%string)
  | unreadable v =>
      snd (handleVideoSelection B file url w) = Rejected (unreadableError v) /\
      state (fst (handleVideoSelection B file url w))
      = state (fst (try_body B file url (fst (setState set_uploading w)))) /\
      (status (state (fst (handleVideoSelection B file url w))) = uploading \/
       status (state (fst (handleVideoSelection B file url w))) = analyzing) /\
      error_msg (state (fst (handleVideoSelection B file url w))) = None
  end.
Proof.
  intros Hbody. destruct err as [e | v].
  - destruct (handleVideoSelection_caught B file url w e Hbody) as (-> & -> & ->).
    split; [reflexivity |]. split; [reflexivity |]. split; [now eexists |]. split.
    + intros m Hm Hne. unfold errorMessage.
      rewrite (message_or_fallback_nonempty e m Hm Hne).
      destruct (has_indicator m); auto.
    + intros Hm. unfold errorMessage.
      now rewrite (message_or_fallback_absent e Hm).
  - rewrite handleVideoSelection_unfold.
    destruct (try_body B file url _) as [w1 r] eqn:Hrun.
    cbn [snd] in Hbody. subst r.
    apply try_body_outcome in Hrun. cbn [setState fst state set_uploading] in Hrun.
    cbn [fst snd state logged].
    split; [reflexivity |]. split; [reflexivity |].
    destruct Hrun as [[-> ->] | ->]; cbn; auto.
Qed.

Lemma handleVideoSelection_caught_failure_witness :
  error_msg (state (fst (handleVideoSelection Inputs.browser_empty_message
                           (Some Inputs.clip) "" (world0 initialState))))
  = Some "An unexpected error occurred."%string.
Proof.
  assert (H : snd (try_body Inputs.browser_empty_message (Some Inputs.clip) ""
                     (fst (setState set_uploading (world0 initialState))))
              = Rejected (Error "")) by (vm_compute; reflexivity).
  destruct (handleVideoSelection_caught_failure Inputs.browser_empty_message
              (Some Inputs.clip) "" (world0 initialState) (Error "") H)
    as (_ & _ & _ & _ & Hf).
  apply Hf. now right.
Defined.

(** C10 as stated fails: the sampler returns its frames and the provider
    rejects with [null].  The failure is caught (the [catch] clause logs
    it), reading [err.message] throws, the call is rejected with that
    [TypeError], the status stays [analyzing] and no string is stored:
    [error] is still [null]. *)
Lemma handleVideoSelection_null_rejection :
  snd (try_body Inputs.browser_rejects_null (Some Inputs.clip) ""
         (fst (setState set_uploading (world0 initialState))))
  = Rejected (unreadable thrown_null) /\
  last (log (fst (handleVideoSelection Inputs.browser_rejects_null
                    (Some Inputs.clip) "" (world0 initialState))))
       (ev_console_error (Error ""))
  = ev_console_error (unreadable thrown_null) /\
  snd (handleVideoSelection Inputs.browser_rejects_null (Some Inputs.clip) ""
         (world0 initialState))
  = Rejected (Error "Cannot read properties of null (reading 'message')") /\
  state (fst (handleVideoSelection Inputs.browser_rejects_null (Some Inputs.clip) ""
                (world0 initialState)))
  = {| status := analyzing; progress := zero; result := None; error_msg := None |}.
Proof. vm_compute. repeat split; reflexivity. Qed.

(** ** Export and reset *)

Lemma map_index_length {A B} (f : A -> nat -> B) (xs : list A) :
  forall i, List.length (map_index f i xs) = List.length xs.
Proof. induction xs as [|x xs IH]; intros i; simpl; [reflexivity | now rewrite IH]. Qed.

Lemma map_index_nth {A B} (f : A -> nat -> B) (xs : list A) :
  forall i n x, nth_error xs n = Some x ->
    nth_error (map_index f i xs) n = Some (f x (i + n)%nat).
Proof.
  induction xs as [|y xs IH]; intros i [|n] x; simpl; try discriminate.
  - intros H; injection H as ->. now rewrite Nat.add_0_r.
  - intros H. rewrite (IH (S i) n x H). f_equal. f_equal. lia.
Qed.

(** C7.  With a result stored, [copyAllPrompts] writes to the clipboard
    the blocks of the segments joined by an empty line: as many blocks
    as segments, in the order of the segments, block [n] (counting from
    1) being "[Segment n] start-end", a line feed, "PROMPT: " and the
    prompt, a line feed, "BRIDGE: " and the bridge. *)
Theorem copyAllPrompts_blocks (w : World) (r : AnalysisResult) :
  result (state w) = Some r ->
  exists blocks : list string,
    List.length blocks = List.length (segments r) /\
    (forall n s, nth_error (segments r) n = Some s ->
       nth_error blocks n =
       Some ("[Segment " ++ string_of_nat (n + 1) ++ "] "
             ++ startTime s ++ "-" ++ endTime s ++ LF
             ++ "PROMPT: " ++ generatedPrompt s ++ LF
             ++ "BRIDGE: " ++ transitionBridge s)%string) /\
    copyAllPrompts w =
    (logged w [ev_clipboard (String.concat (LF ++ LF) blocks);
               ev_alert "Full prompt chain copied!"],
     Fulfilled tt).
Proof.
  intros Hr. exists (map_index block 0%nat (segments r)).
  split; [apply map_index_length |]. split.
  - intros n s Hn. rewrite (map_index_nth block _ 0%nat n s Hn). reflexivity.
  - unfold copyAllPrompts. rewrite Hr. unfold bind, emit, logged, join. cbn.
    rewrite <- app_assoc. reflexivity.
Qed.

Lemma copyAllPrompts_blocks_witness :
  exists blocks : list string,
    List.length blocks = 2%nat /\
    nth_error blocks 1 =
    Some ("[Segment 2] 00:12-00:30" ++ LF ++ "PROMPT: Ferry deck, handheld." ++ LF
          ++ "BRIDGE: Match the gull to the ferry flag.")%string /\
    copyAllPrompts (world0 Inputs.completedState) =
    (logged (world0 Inputs.completedState)
       [ev_clipboard (String.concat (LF ++ LF) blocks);
        ev_alert "Full prompt chain copied!"],
     Fulfilled tt).
Proof.
  destruct (copyAllPrompts_blocks (world0 Inputs.completedState) Inputs.analysis eq_refl)
    as (blocks & Hlen & Hnth & Hrun).
  exists blocks. split; [exact Hlen |]. split; [| exact Hrun].
  exact (Hnth 1%nat Inputs.segmentB eq_refl).
Defined.

(** Without a result, [copyAllPrompts] does nothing. *)
Lemma copyAllPrompts_no_result (w : World) :
  result (state w) = None -> copyAllPrompts w = (w, Fulfilled tt).
Proof. unfold copyAllPrompts. now intros ->. Qed.

(** C8.  The reset handler, from [completed], from [error] and from any
    other state, leaves exactly the state [idle] with progress 0, no
    result and no error. *)
Theorem reset_yields_initial_state (w : World) :
  state (fst (reset w)) =
  {| status := idle; progress := of_Z 0; result := None; error_msg := None |} /\
  result (state (fst (reset w))) = None /\
  error_msg (state (fst (reset w))) = None /\
  snd (reset w) = Fulfilled tt.
Proof. repeat split. Qed.

(** In [error], and in [completed] with its result, a reset button is
    rendered. *)
Lemma reset_offered_terminal (s : AppState) :
  status s = error \/ (status s = completed /\ result s <> None) ->
  reset_offered s = true.
Proof.
  unfold reset_offered. intros [H | [_ H]].
  - rewrite H. apply orb_true_r.
  - destruct (result s); [reflexivity | now elim H].
Qed.

(** ** Sample times *)





(* ================================================================== *)
(** ** The states of a run *)

Lemma states_app (l1 l2 : list Event) :
  states (l1 ++ l2) = (states l1 ++ states l2)%list.
Proof.
  induction l1 as [|e l1 IH]; simpl; [reflexivity |].
  destruct e; simpl; now rewrite ?IH.
Qed.

Lemma statuses_states (l : list Event) : statuses l = map status (states l).
Proof.
  induction l as [|e l IH]; simpl; [reflexivity |].
  destruct e; simpl; now rewrite ?IH.
Qed.

(** The sampling loop sets no state, however it ends. *)
Lemma sample_loop_states B file interval cw ch n :
  forall i frames w w' r,
    sample_loop B file interval cw ch n i frames w = (w', r) ->
    states (log w') = states (log w).
Proof.
  induction n as [|n IH]; intros i frames w w' r H.
  - simpl in H. unfold ret in H. now injection H as <- _.
  - cbn [sample_loop] in H. unfold set_currentTime in H.
    destruct (is_finite (sample_time interval i)).
    + unfold bind at 1 in H. cbn [emit] in H.
      destruct (media_seek B file i (sample_time interval i)).
      * unfold capture in H. destruct (getContext_2d B).
        -- unfold bind, emit, ret in H. apply IH in H. cbn [log] in H.
           rewrite H, !states_app. cbn. now rewrite !app_nil_r.
        -- unfold bind, ret in H. apply IH in H. cbn [log] in H.
           rewrite H, !states_app. cbn. now rewrite !app_nil_r.
      * unfold ret in H. injection H as <- _. cbn [log].
        rewrite states_app. cbn. now rewrite app_nil_r.
      * unfold never in H. injection H as <- _. cbn [log].
        rewrite states_app. cbn. now rewrite app_nil_r.
    + unfold bind, throw in H. now injection H as <- _.
Qed.

(** Nor does the sampler. *)
Lemma extractFramesFromVideo_states B file w w' r :
  extractFramesFromVideo B file w = (w', r) ->
  states (log w') = states (log w).
Proof.
  unfold extractFramesFromVideo, new_Promise.
  unfold bind at 1. cbn [createObjectURL].
  destruct (media_load B file) as [video| |].
  - unfold bind at 1.
    match goal with
    | |- context [sample_loop ?b ?f ?iv ?cw ?ch ?n ?i ?fr ?w0] =>
        destruct (sample_loop b f iv cw ch n i fr w0) as [w1 r1] eqn:Hloop
    end.
    apply sample_loop_states in Hloop. cbn [log] in Hloop.
    rewrite states_app in Hloop. cbn in Hloop. rewrite app_nil_r in Hloop.
    destruct r1 as [[frames|e]|e|].
    + unfold bind, revokeObjectURL, ret. intros H. injection H as <- _.
      cbn [log]. rewrite states_app, Hloop. cbn. now rewrite app_nil_r.
    + unfold ret. intros H. now injection H as <- _.
    + intros H. now injection H as <- _.
    + intros H. now injection H as <- _.
  - unfold ret. intros H. injection H as <- _. cbn [log].
    rewrite states_app. cbn. now rewrite app_nil_r.
  - unfold never. intros H. injection H as <- _. cbn [log].
    rewrite states_app. cbn. now rewrite app_nil_r.
Qed.

(** From the sampler on: the states set and the way the step ends. *)
Lemma after_source_trace B f w0 w1 r1 :
  (r0 <- extractFramesFromVideo B f ;;
   setState set_analyzing ;;
   result <- await (analyzeVideo B (fst r0) (snd r0)) ;;
   setState (set_completed result)) w0 = (w1, r1) ->
  exists tail,
    states (log w1) = (states (log w0) ++ tail)%list /\
    state w1 = last tail (state w0) /\
    match r1 with
    | Fulfilled _ =>
        exists r, tail = [set_analyzing (state w0);
                          set_completed r (set_analyzing (state w0))]
    | Rejected _ | Pending => tail = [] \/ tail = [set_analyzing (state w0)]
    end.
Proof.
  unfold bind at 1.
  destruct (extractFramesFromVideo B f w0) as [w2 r2] eqn:Hx.
  pose proof (extractFramesFromVideo_states _ _ _ _ _ Hx) as Hlog.
  apply extractFramesFromVideo_sound in Hx as [Hst _].
  destruct r2 as [[parts d]|e|].
  - unfold bind, setState, await. cbn [fst snd].
    destruct (analyzeVideo B parts d) as [res|e|]; intros H; injection H as <- <-;
      cbn [log state].
    + exists [set_analyzing (state w0); set_completed res (set_analyzing (state w0))].
      rewrite !states_app, Hlog, Hst. cbn. rewrite <- app_assoc. cbn.
      split; [reflexivity |]. split; [reflexivity |]. now exists res.
    + exists [set_analyzing (state w0)].
      rewrite !states_app, Hlog, Hst. cbn. auto.
    + exists [set_analyzing (state w0)].
      rewrite !states_app, Hlog, Hst. cbn. auto.
  - intros H; injection H as <- <-. exists []. rewrite Hlog, Hst, app_nil_r. cbn. auto.
  - intros H; injection H as <- <-. exists []. rewrite Hlog, Hst, app_nil_r. cbn. auto.
Qed.

(** The states the [try] block sets. *)
Lemma try_body_trace B file url w0 w1 r1 :
  try_body B file url w0 = (w1, r1) ->
  exists tail,
    states (log w1) = (states (log w0) ++ tail)%list /\
    state w1 = last tail (state w0) /\
    match r1 with
    | Fulfilled _ =>
        exists r, tail = [set_analyzing (state w0); set_analyzing (state w0);
                          set_completed r (set_analyzing (state w0))]
    | Rejected _ | Pending =>
        tail = [] \/ tail = [set_analyzing (state w0)]
        \/ tail = [set_analyzing (state w0); set_analyzing (state w0)]
    end.
Proof.
  assert (Hsrc : forall f,
    (r0 <- extractFramesFromVideo B f ;;
     setState set_analyzing ;;
     result <- await (analyzeVideo B (fst r0) (snd r0)) ;;
     setState (set_completed result)) (fst (setState set_analyzing w0)) = (w1, r1) ->
    exists tail,
      states (log w1) = (states (log w0) ++ tail)%list /\
      state w1 = last tail (state w0) /\
      match r1 with
      | Fulfilled _ =>
          exists r, tail = [set_analyzing (state w0); set_analyzing (state w0);
                            set_completed r (set_analyzing (state w0))]
      | Rejected _ | Pending =>
          tail = [] \/ tail = [set_analyzing (state w0)]
          \/ tail = [set_analyzing (state w0); set_analyzing (state w0)]
      end).
  { intros f Hrun.
    destruct (after_source_trace B f _ w1 r1 Hrun) as (tail & H1 & H2 & H3).
    cbn [setState fst log state] in H1, H2, H3. rewrite states_app in H1. cbn in H1.
    exists (set_analyzing (state w0) :: tail).
    rewrite H1, <- app_assoc. split; [reflexivity |].
    destruct r1 as [[]|e|].
    - destruct H3 as [r ->]. split; [exact H2 |]. now exists r.
    - destruct H3 as [-> | ->]; (split; [exact H2 |]); auto.
    - destruct H3 as [-> | ->]; (split; [exact H2 |]); auto. }
  unfold try_body. destruct file as [f|].
  - rewrite bind_assoc, bind_setState. apply Hsrc.
  - rewrite bind_assoc. unfold bind at 1. unfold await at 1.
    destruct (fetch B url) as [response|e|].
    + rewrite bind_assoc. unfold bind at 1. unfold await at 1.
      destruct (blob response) as [b|e|].
      * rewrite bind_assoc, bind_setState. apply Hsrc.
      * intros H; injection H as <- <-. exists []. rewrite app_nil_r. auto.
      * intros H; injection H as <- <-. exists []. rewrite app_nil_r. auto.
    + intros H; injection H as <- <-. exists []. rewrite app_nil_r. auto.
    + intros H; injection H as <- <-. exists []. rewrite app_nil_r. auto.
Qed.

(** The states a run of [handleVideoSelection] sets.  It sets
    [uploading] first, then [analyzing] at most twice, and ends with
    [completed] or [error] exactly when the call is fulfilled; at most
    four states in all. *)
Lemma handleVideoSelection_states
    (B : Browser) (file : option File) (url : string) (w : World) :
  let u := set_uploading (state w) in
  let a := set_analyzing u in
  exists tail,
    states (log (fst (handleVideoSelection B file url w)))
    = (states (log w) ++ u :: tail)%list /\
    state (fst (handleVideoSelection B file url w)) = last tail u /\
    (((snd (handleVideoSelection B file url w) = Pending \/
       exists e, snd (handleVideoSelection B file url w) = Rejected e) /\
      (tail = [] \/ tail = [a] \/ tail = [a; a])) \/
     (snd (handleVideoSelection B file url w) = Fulfilled tt /\
      ((exists m, tail = [set_error m u] \/ tail = [a; set_error m a]
                  \/ tail = [a; a; set_error m a]) \/
       (exists r, tail = [a; a; set_completed r a])))).
Proof.
  cbv zeta. rewrite handleVideoSelection_unfold.
  destruct (try_body B file url (fst (setState set_uploading w))) as [w1 r1] eqn:Hbody.
  destruct (try_body_trace _ _ _ _ _ _ Hbody) as (tail & H1 & H2 & H3).
  cbn [setState fst log state] in H1, H2, H3. rewrite states_app in H1. cbn in H1.
  rewrite <- app_assoc in H1. cbn in H1.
  set (u := set_uploading (state w)) in *.
  destruct r1 as [[]|[err|v]|]; cbn [fst snd].
  - destruct H3 as [r ->]. eexists. split; [exact H1 |]. split; [exact H2 |].
    right. split; [reflexivity |]. right. now exists r.
  - cbn [log state]. rewrite states_app, H1, H2. cbn. rewrite <- app_assoc. cbn.
    destruct H3 as [-> | [-> | ->]]; cbn; eexists;
      (split; [reflexivity |]); (split; [reflexivity |]);
      right; (split; [reflexivity |]); left; exists (errorMessage err); auto.
  - unfold logged. cbn [log state]. rewrite states_app, H1. cbn. rewrite app_nil_r.
    eexists. split; [reflexivity |]. split; [exact H2 |].
    left. split; [right; now eexists | exact H3].
  - eexists. split; [exact H1 |]. split; [exact H2 |]. left. auto.
Qed.

(** ** The source of a run *)

(** The [try] block either gets no source and ends where it stands, or
    sets [analyzing] and goes on with the sampler. *)
Lemma try_body_cases B file url w :
  match source_of B file url with
  | Some f => try_body B file url w = after_source B f (fst (setState set_analyzing w))
  | None =>
      fst (try_body B file url w) = w /\
      forall u, snd (try_body B file url w) <> Fulfilled u
  end.
Proof.
  unfold try_body, source_of, after_source. destruct file as [f|].
  - rewrite bind_assoc, bind_setState. reflexivity.
  - rewrite bind_assoc.
    destruct (fetch B url) as [response|e|];
      [| split; [reflexivity | discriminate] ..].
    rewrite bind_await_Fulfilled, bind_assoc.
    destruct (blob response) as [b|e|];
      [| split; [reflexivity | discriminate] ..].
    rewrite bind_await_Fulfilled, bind_assoc, bind_setState. reflexivity.
Qed.

Lemma after_source_fulfilled B f w0 w1 u :
  after_source B f w0 = (w1, Fulfilled u) ->
  exists video r,
    media_load B f = loadedmetadata video /\
    seeks_complete B f (interval_of video) 0 maxFrames /\
    analyzeVideo B (captured B f (interval_of video) (canvas_width video)
                      (canvas_height video) 0 maxFrames) (duration video)
    = Fulfilled r /\
    state w1 = set_completed r (set_analyzing (state w0)).
Proof.
  unfold after_source. unfold bind at 1.
  destruct (extractFramesFromVideo B f w0) as [w2 r2] eqn:Hx.
  apply extractFramesFromVideo_sound in Hx as [Hst Hx].
  destruct r2 as [[parts d]|e|]; [| discriminate | discriminate].
  destruct Hx as (video & Hl & Hc & -> & ->).
  unfold bind, setState, await. cbn [fst snd].
  destruct (analyzeVideo B _ (duration video)) as [res|e|] eqn:Ha;
    [| discriminate | discriminate].
  intros H. injection H as <- _. cbn [state]. rewrite Hst.
  exists video, res. auto.
Qed.

(** X1.  The statuses a run of [handleVideoSelection] goes through,
    whatever the state it starts from and whatever the environment
    does: [uploading] first, then [analyzing] at most twice, and last
    [completed] or [error] exactly when the call is fulfilled.  A call
    that never settles, or that is rejected (by its own [catch] clause,
    on a thrown value it cannot read), sets neither and leaves the
    status at [uploading] or [analyzing].  A run never sets [idle] and
    sets at most four states. *)
Theorem handleVideoSelection_status_sequence
    (B : Browser) (file : option File) (url : string) (w : World) :
  exists t,
    statuses (log (fst (handleVideoSelection B file url w)))
    = (statuses (log w) ++ uploading :: t)%list /\
    status (state (fst (handleVideoSelection B file url w))) = last t uploading /\
    (((snd (handleVideoSelection B file url w) = Pending \/
       exists e, snd (handleVideoSelection B file url w) = Rejected e) /\
      (t = [] \/ t = [analyzing] \/ t = [analyzing; analyzing])) \/
     (snd (handleVideoSelection B file url w) = Fulfilled tt /\
      (t = [error] \/ t = [analyzing; error] \/ t = [analyzing; analyzing; error]
       \/ t = [analyzing; analyzing; completed]))).
Proof.
  destruct (handleVideoSelection_states B file url w) as (tail & H1 & H2 & H3).
  cbv zeta in H1, H2, H3.
  exists (map status tail). rewrite !statuses_states, H1, H2, map_app.
  split; [reflexivity |].
  destruct H3 as [[Hp [-> | [-> | ->]]] | [Hf [[m [-> | [-> | ->]]] | [r ->]]]];
    (split; [reflexivity |]); cbn; tauto.
Qed.

(** X2.  When a run ends in [completed], the result stored is the answer
    of the provider to the frames captured from the source (the file, or
    the fetched body wrapped in a file) on a canvas of the scaled size,
    together with the duration the media element reported, stored as
    it came (a provider that answers null leaves a null result); the
    call has settled. *)
Theorem handleVideoSelection_completed_result
    (B : Browser) (file : option File) (url : string) (w : World) :
  status (state (fst (handleVideoSelection B file url w))) = completed ->
  exists f video r,
    source_of B file url = Some f /\
    media_load B f = loadedmetadata video /\
    analyzeVideo B (captured B f (interval_of video) (canvas_width video)
                      (canvas_height video) 0 maxFrames) (duration video)
    = Fulfilled r /\
    result (state (fst (handleVideoSelection B file url w))) = r /\
    snd (handleVideoSelection B file url w) = Fulfilled tt.
Proof.
  rewrite handleVideoSelection_unfold.
  destruct (try_body B file url (fst (setState set_uploading w))) as [w1 r1] eqn:Hbody.
  destruct r1 as [[]|[err|v]|]; cbn [fst snd state].
  - intros _. pose proof (try_body_cases B file url (fst (setState set_uploading w))) as Hc.
    destruct (source_of B file url) as [f|].
    + rewrite Hbody in Hc. symmetry in Hc.
      apply after_source_fulfilled in Hc as (video & r & Hl & _ & Ha & Hs).
      exists f, video, r. rewrite Hs. auto.
    + rewrite Hbody in Hc. destruct Hc as [_ Hc]. now elim (Hc tt).
  - discriminate.
  - apply try_body_outcome in Hbody. cbn [setState fst state logged] in Hbody |- *.
    destruct Hbody as [[-> _] | ->]; discriminate.
  - apply try_body_outcome in Hbody. cbn [setState fst state] in Hbody.
    destruct Hbody as [-> | ->]; discriminate.
Qed.

Lemma handleVideoSelection_completed_result_witness :
  exists f video r,
    source_of Inputs.browser_ok (Some Inputs.clip) "" = Some f /\
    media_load Inputs.browser_ok f = loadedmetadata video /\
    analyzeVideo Inputs.browser_ok
      (captured Inputs.browser_ok f (interval_of video) (canvas_width video)
         (canvas_height video) 0 maxFrames) (duration video)
    = Fulfilled r /\
    result (state (fst (handleVideoSelection Inputs.browser_ok (Some Inputs.clip) ""
                          (world0 initialState)))) = r /\
    snd (handleVideoSelection Inputs.browser_ok (Some Inputs.clip) ""
           (world0 initialState)) = Fulfilled tt.
Proof.
  apply handleVideoSelection_completed_result. vm_compute. reflexivity.
Defined.

(** ** The text of the error panel *)

Lemma errorMessage_clean (err : Thrown) :
  has_indicator (errorMessage err) = false /\ errorMessage err <> ""%string.
Proof.
  unfold errorMessage.
  destruct (has_indicator (message_or_fallback err)) eqn:Hi.
  - split; [reflexivity | discriminate].
  - split; [exact Hi |]. unfold message_or_fallback.
    destruct (message err) as [[|c m]|]; discriminate.
Qed.

(** X3.  When a run ends in [error], the text stored for the error panel
    is the one the [catch] clause computes from what was thrown; it is
    never empty, and it contains none of "string length", "memory" and
    "allocation": a raw message with one of them never reaches the page. *)
Theorem handleVideoSelection_error_text
    (B : Browser) (file : option File) (url : string) (w : World) :
  status (state (fst (handleVideoSelection B file url w))) = error ->
  exists (err : Thrown) text,
    snd (try_body B file url (fst (setState set_uploading w))) = Rejected err /\
    error_msg (state (fst (handleVideoSelection B file url w))) = Some text /\
    text = errorMessage err /\
    text <> ""%string /\
    includes text "string length" = false /\
    includes text "memory" = false /\
    includes text "allocation" = false.
Proof.
  rewrite handleVideoSelection_unfold.
  destruct (try_body B file url (fst (setState set_uploading w))) as [w1 r1] eqn:Hbody.
  apply try_body_outcome in Hbody.
  destruct r1 as [[]|[err|v]|]; cbn [fst snd state logged].
  - destruct Hbody as (-> & _). discriminate.
  - intros _. exists err, (errorMessage err).
    destruct (errorMessage_clean err) as [Hi Hne].
    unfold has_indicator in Hi.
    apply orb_false_iff in Hi as [Hi H3]. apply orb_false_iff in Hi as [H1 H2].
    cbn. repeat split; auto.
  - cbn [setState fst state] in Hbody. destruct Hbody as [[-> _] | ->]; discriminate.
  - cbn [setState fst state] in Hbody. destruct Hbody as [-> | ->]; discriminate.
Qed.

Lemma handleVideoSelection_error_text_witness :
  exists (err : Thrown) text,
    snd (try_body Inputs.browser_allocation (Some Inputs.clip) ""
           (fst (setState set_uploading (world0 initialState)))) = Rejected err /\
    error_msg (state (fst (handleVideoSelection Inputs.browser_allocation
                             (Some Inputs.clip) "" (world0 initialState))))
    = Some text /\
    text = errorMessage err /\
    text <> ""%string /\
    includes text "string length" = false /\
    includes text "memory" = false /\
    includes text "allocation" = false.
Proof.
  apply handleVideoSelection_error_text. vm_compute. reflexivity.
Defined.

(** ** Sessions *)

Lemma reachable_submit_clip (B : Browser) :
  reachable Sessions.stringify
    (perform B Sessions.stringify Sessions.submit_clip (world0 initialState)).
Proof.
  exact (reachable_action _ (world0 initialState) B Sessions.submit_clip
           (reachable_initial _) eq_refl).
Qed.

Lemma reachable_analysed : reachable Sessions.stringify Sessions.analysed.
Proof. exact (reachable_submit_clip Inputs.browser_ok). Qed.

Lemma reachable_hanging : reachable Sessions.stringify Sessions.hanging.
Proof. exact (reachable_submit_clip Inputs.browser_live). Qed.

Lemma reachable_failed : reachable Sessions.stringify Sessions.failed.
Proof. exact (reachable_submit_clip Inputs.browser_undecodable). Qed.

Lemma reachable_answered_null : reachable Sessions.stringify Sessions.answered_null.
Proof. exact (reachable_submit_clip Inputs.browser_answers_null). Qed.

Lemma reachable_rejected_null : reachable Sessions.stringify Sessions.rejected_null.
Proof. exact (reachable_submit_clip Inputs.browser_rejects_null). Qed.

(** The states a run started in a consistent idle state can set. *)
Lemma consistent_idle (s : AppState) :
  consistent s -> status s = idle ->
  result s = None /\
  consistent (set_uploading s) /\
  consistent (set_analyzing (set_uploading s)) /\
  (forall m, consistent (set_error m (set_uploading s))) /\
  (forall m, consistent (set_error m (set_analyzing (set_uploading s)))) /\
  (forall r, consistent (set_completed r (set_analyzing (set_uploading s)))).
Proof.
  unfold consistent. intros [Hp Hs] Hi. rewrite Hi in Hs. destruct Hs as [Hr He].
  cbn. rewrite Hp, Hr. repeat split; try reflexivity; discriminate.
Qed.

(** A run started in a consistent idle state sets consistent states
    only. *)
Lemma handleVideoSelection_consistent B file url w :
  consistent (state w) -> status (state w) = idle ->
  Forall consistent (states (log w)) ->
  consistent (state (fst (handleVideoSelection B file url w))) /\
  Forall consistent (states (log (fst (handleVideoSelection B file url w)))).
Proof.
  intros Hc Hi Hall.
  destruct (consistent_idle _ Hc Hi) as (_ & Hu & Ha & Heu & Hea & Hca).
  destruct (handleVideoSelection_states B file url w) as (tail & H1 & H2 & H3).
  cbv zeta in H1, H2, H3. rewrite H1, H2.
  assert (Ht : Forall consistent tail).
  { destruct H3 as [[_ [-> | [-> | ->]]] | [_ [[m [-> | [-> | ->]]] | [r ->]]]];
      repeat (apply Forall_cons; [solve [auto] |]); apply Forall_nil. }
  split.
  - assert (Hl : forall (l : list AppState) d, Forall consistent l -> consistent d ->
                                             consistent (last l d)).
    { induction l as [|x l IH]; intros d Hl Hd; [exact Hd |].
      inversion Hl; subst. destruct l; [assumption |]. apply IH; assumption. }
    apply Hl; assumption.
  - apply Forall_app. split; [assumption |]. constructor; assumption.
Qed.

(** Session invariant: every state a session sets is consistent. *)
Lemma reachable_consistent (stringify : AnalysisResult -> string) (w : World) :
  reachable stringify w ->
  consistent (state w) /\ Forall consistent (states (log w)).
Proof.
  induction 1 as [|w B a Hw [Hc Hall] Ha].
  - split; [| constructor]. unfold consistent. cbn. auto.
  - destruct a as [file url| | | |]; cbn [perform offered render uploader nav_actions
                                          error_panel] in *.
    + apply handleVideoSelection_consistent; try assumption.
      destruct (status (state w)); try discriminate; reflexivity.
    + unfold copyAllPrompts. destruct (result (state w)); [| auto].
      cbn. rewrite !states_app. cbn. rewrite !app_nil_r. auto.
    + unfold downloadJson. destruct (result (state w)); [| auto].
      cbn. rewrite states_app. cbn. rewrite app_nil_r. auto.
    + cbn. rewrite states_app. cbn.
      assert (Hi : consistent {| status := idle; progress := of_Z 0;
                                 result := None; error_msg := None |})
        by (unfold consistent; cbn; auto).
      split; [exact Hi |]. apply Forall_app. split; [assumption |].
      constructor; [exact Hi | constructor].
    + cbn. rewrite states_app. cbn.
      assert (Hi : consistent {| status := idle; progress := of_Z 0;
                                 result := None; error_msg := None |})
        by (unfold consistent; cbn; auto).
      split; [exact Hi |]. apply Forall_app. split; [assumption |].
      constructor; [exact Hi | constructor].
Qed.

Lemma reachable_state_consistent
    (stringify : AnalysisResult -> string) (w : World) (s : AppState) :
  reachable stringify w -> s = state w \/ In s (states (log w)) -> consistent s.
Proof.
  intros Hw Hs. apply reachable_consistent in Hw as [Hc Hall].
  destruct Hs as [-> | Hin]; [assumption |].
  rewrite Forall_forall in Hall. now apply Hall.
Qed.

(** X4.  Session invariant.  Whatever the user does with the controls
    that are rendered, and whatever each environment answers, every
    state the component is set to is consistent: [progress] is 0
    (nothing ever updates it), an error text is stored exactly in
    [error], and a result is stored in no status but [completed], where
    it is what the provider answered, [null] included. *)
Theorem session_consistent (stringify : AnalysisResult -> string) (w : World) :
  reachable stringify w ->
  consistent (state w) /\ Forall consistent (states (log w)).
Proof.
  apply reachable_consistent.
Qed.

Lemma session_consistent_witness :
  consistent (state Sessions.analysed) /\
  Forall consistent (states (log Sessions.analysed)).
Proof. exact (session_consistent _ _ reachable_analysed). Defined.

Lemma consistent_panels (s : AppState) :
  consistent s ->
  match status s, result s with
  | completed, None => blank s
  | _, _ => panels (render s) = 1%nat
  end.
Proof.
  unfold consistent, blank, offered, panels, render, has_result. intros [_ H].
  destruct (status s); cbn; try (destruct (result s); reflexivity).
  destruct (result s); [reflexivity |].
  split; [reflexivity | intros a; destruct a; reflexivity].
Qed.

Lemma consistent_busy_nothing_offered (s : AppState) (a : Action) :
  consistent s -> status s = uploading \/ status s = analyzing ->
  offered s a = false.
Proof.
  unfold consistent, offered, render, has_result. intros [_ H] [Hs | Hs];
    rewrite Hs in *; destruct H as [-> _]; destruct a; reflexivity.
Qed.

(** X5.  In a session the page never shows two panels, and it shows none
    in one case only.  Every state the session sets renders exactly one
    of the hero with the uploader, the progress panel, the error panel
    and the results, except [completed] with a [null] result (the
    provider resolved with [null]): there the page is blank, with no
    panel and no control. *)
Theorem session_one_panel
    (stringify : AnalysisResult -> string) (w : World) (s : AppState) :
  reachable stringify w ->
  s = state w \/ In s (states (log w)) ->
  match status s, result s with
  | completed, None => blank s
  | _, _ => panels (render s) = 1%nat
  end.
Proof.
  intros Hw Hs. apply consistent_panels.
  exact (reachable_state_consistent stringify w s Hw Hs).
Qed.

Lemma session_one_panel_witness :
  panels (render (state Sessions.failed)) = 1%nat /\
  blank (state Sessions.answered_null).
Proof.
  split.
  - exact (session_one_panel _ _ _ reachable_failed (or_introl eq_refl)).
  - exact (session_one_panel _ _ _ reachable_answered_null (or_introl eq_refl)).
Defined.

(** X6.  No re-entrance: while a session is in [uploading] or
    [analyzing], no control is rendered: no second submit, no reset, no
    export. *)
Theorem session_busy_no_controls
    (stringify : AnalysisResult -> string) (w : World) (s : AppState) (a : Action) :
  reachable stringify w ->
  s = state w \/ In s (states (log w)) ->
  status s = uploading \/ status s = analyzing ->
  offered s a = false.
Proof.
  intros Hw Hs Hb. apply consistent_busy_nothing_offered; [| assumption].
  exact (reachable_state_consistent stringify w s Hw Hs).
Qed.

Lemma session_busy_no_controls_witness :
  offered (state Sessions.hanging) (submit None "https://example.org/clip.mp4") = false.
Proof.
  apply (session_busy_no_controls _ _ _ _ reachable_hanging (or_introl eq_refl)).
  right. vm_compute. reflexivity.
Defined.



(** X8.  A run that is not fulfilled leaves the user with nothing to do.
    Started in a consistent idle state (every idle state of a session is
    one), a call that never settles or that is rejected leaves the page
    on the progress panel with no control rendered: the session cannot
    go on. *)
Theorem handleVideoSelection_stuck_unless_fulfilled
    (B : Browser) (stringify : AnalysisResult -> string) (w : World)
    (file : option File) (url : string) :
  consistent (state w) -> status (state w) = idle ->
  snd (handleVideoSelection B file url w) = Pending \/
  (exists e, snd (handleVideoSelection B file url w) = Rejected e) ->
  render (state (perform B stringify (submit file url) w))
  = {| nav_actions := false; uploader := false; progress_panel := true;
       error_panel := false; results_panel := false |} /\
  forall a, offered (state (perform B stringify (submit file url) w)) a = false.
Proof.
  intros Hc Hi Hp. cbn [perform].
  destruct (consistent_idle _ Hc Hi) as (Hr & _).
  destruct (handleVideoSelection_states B file url w) as (tail & _ & H2 & H3).
  cbv zeta in H2, H3.
  destruct H3 as [[_ H3] | [H3 _]].
  - rewrite H2.
    destruct H3 as [-> | [-> | ->]]; cbn [last]; unfold offered, render, has_result;
      cbn; rewrite Hr; (split; [reflexivity | intros a; destruct a; reflexivity]).
  - rewrite H3 in Hp. destruct Hp as [Hp | [e Hp]]; discriminate.
Qed.

Lemma consistent_initialState : consistent (state (world0 initialState)).
Proof. unfold consistent. cbn. auto. Qed.

Lemma handleVideoSelection_stuck_unless_fulfilled_witness :
  (render (state Sessions.hanging)
   = {| nav_actions := false; uploader := false; progress_panel := true;
        error_panel := false; results_panel := false |} /\
   forall a, offered (state Sessions.hanging) a = false) /\
  (render (state Sessions.rejected_null)
   = {| nav_actions := false; uploader := false; progress_panel := true;
        error_panel := false; results_panel := false |} /\
   forall a, offered (state Sessions.rejected_null) a = false).
Proof.
  split.
  - apply (handleVideoSelection_stuck_unless_fulfilled Inputs.browser_live
             Sessions.stringify (world0 initialState) (Some Inputs.clip) ""
             consistent_initialState eq_refl).
    left. vm_compute. reflexivity.
  - apply (handleVideoSelection_stuck_unless_fulfilled Inputs.browser_rejects_null
             Sessions.stringify (world0 initialState) (Some Inputs.clip) ""
             consistent_initialState eq_refl).
    right. eexists. vm_compute. reflexivity.
Defined.

(** ** Object URLs *)

(** The sampler takes one object URL, the next fresh one, and gives it
    back only when it resolves. *)
Lemma extractFramesFromVideo_urls B file w w' r :
  extractFramesFromVideo B file w = (w', r) ->
  fresh w' = S (fresh w) /\
  objectURLs w' =
  match r with
  | Fulfilled _ => remove Nat.eq_dec (fresh w) (fresh w :: objectURLs w)
  | Rejected _ | Pending => fresh w :: objectURLs w
  end.
Proof.
  unfold extractFramesFromVideo, new_Promise.
  unfold bind at 1. cbn [createObjectURL].
  destruct (media_load B file) as [video| |].
  - unfold bind at 1.
    match goal with
    | |- context [sample_loop ?b ?f ?iv ?cw ?ch ?n ?i ?fr ?w0] =>
        destruct (sample_loop b f iv cw ch n i fr w0) as [w1 r1] eqn:Hloop
    end.
    apply sample_loop_sound in Hloop. cbn [state objectURLs fresh] in Hloop.
    destruct Hloop as (_ & Hu & Hf & _).
    destruct r1 as [[frames|e]|e|].
    + unfold bind, revokeObjectURL, ret. intros H. injection H as <- <-.
      cbn [fresh objectURLs]. rewrite Hu, Hf. auto.
    + unfold ret. intros H. injection H as <- <-. auto.
    + intros H. injection H as <- <-. auto.
    + intros H. injection H as <- <-. auto.
  - unfold ret. intros H. injection H as <- <-. auto.
  - unfold never. intros H. injection H as <- <-. auto.
Qed.

Lemma after_source_urls B f w0 :
  fresh (fst (after_source B f w0)) = S (fresh w0) /\
  objectURLs (fst (after_source B f w0)) =
  match snd (extractFramesFromVideo B f w0) with
  | Fulfilled _ => remove Nat.eq_dec (fresh w0) (fresh w0 :: objectURLs w0)
  | Rejected _ | Pending => fresh w0 :: objectURLs w0
  end.
Proof.
  remember (after_source B f w0) as p eqn:Hp.
  unfold after_source in Hp. unfold bind at 1 in Hp. revert Hp.
  destruct (extractFramesFromVideo B f w0) as [w2 r2] eqn:Hx.
  apply extractFramesFromVideo_urls in Hx as [Hf Hu].
  destruct r2 as [[parts d]|e|]; cbn [fst snd];
    [| intros ->; cbn [fst]; auto ..].
  unfold bind, setState, await. cbn [fst snd].
  destruct (analyzeVideo B parts d) as [res|e|]; intros ->; cbn [fst fresh objectURLs]; auto.
Qed.

(** The object URLs a run leaves: those it found when it got no source
    or the sampler resolved, one more otherwise. *)
Lemma handleVideoSelection_urls B file url w :
  let w' := fst (handleVideoSelection B file url w) in
  match source_of B file url with
  | None => fresh w' = fresh w /\ objectURLs w' = objectURLs w
  | Some f =>
      fresh w' = S (fresh w) /\
      objectURLs w' =
      match snd (extractFramesFromVideo B f
                   (fst (setState set_analyzing (fst (setState set_uploading w))))) with
      | Fulfilled _ => remove Nat.eq_dec (fresh w) (fresh w :: objectURLs w)
      | Rejected _ | Pending => fresh w :: objectURLs w
      end
  end.
Proof.
  cbv zeta.
  assert (Hw : fresh (fst (handleVideoSelection B file url w))
               = fresh (fst (try_body B file url (fst (setState set_uploading w)))) /\
               objectURLs (fst (handleVideoSelection B file url w))
               = objectURLs (fst (try_body B file url (fst (setState set_uploading w))))).
  { rewrite handleVideoSelection_unfold.
    destruct (try_body B file url _) as [w1 [[]|[e|v]|]]; auto. }
  destruct Hw as [-> ->].
  pose proof (try_body_cases B file url (fst (setState set_uploading w))) as Hc.
  destruct (source_of B file url) as [f|].
  - rewrite Hc. exact (after_source_urls B f _).
  - destruct Hc as [-> _]. auto.
Qed.

Lemma remove_fresh (u : nat) (l : list nat) :
  ~ In u l -> remove Nat.eq_dec u (u :: l) = l.
Proof.
  intros H. cbn. destruct (Nat.eq_dec u u) as [_|Hn]; [| now elim Hn].
  now apply notin_remove.
Qed.

(** Every handler keeps the numbering of object URLs and revokes none
    that was live before it. *)
Lemma perform_urls B stringify a w :
  urls_numbered w ->
  urls_numbered (perform B stringify a w) /\
  incl (objectURLs w) (objectURLs (perform B stringify a w)).
Proof.
  intros Hn.
  assert (Hnot : ~ In (fresh w) (objectURLs w)).
  { intros Hin. apply Hn in Hin. lia. }
  assert (Hone : forall w', fresh w' = S (fresh w) ->
                            objectURLs w' = fresh w :: objectURLs w ->
                            urls_numbered w' /\ incl (objectURLs w) (objectURLs w')).
  { intros w' Hf Hu. unfold urls_numbered. rewrite Hf, Hu. split.
    - intros u [<- | Hin]; [lia |]. apply Hn in Hin. lia.
    - apply incl_tl, incl_refl. }
  assert (Hsame : forall w', (fresh w <= fresh w')%nat ->
                             objectURLs w' = objectURLs w ->
                             urls_numbered w' /\ incl (objectURLs w) (objectURLs w')).
  { intros w' Hf Hu. unfold urls_numbered. rewrite Hu. split.
    - intros u Hin. apply Hn in Hin. lia.
    - apply incl_refl. }
  destruct a as [file url| | | |]; cbn [perform].
  - pose proof (handleVideoSelection_urls B file url w) as H. cbv zeta in H.
    destruct (source_of B file url) as [f|].
    + destruct H as [Hf Hu].
      destruct (snd (extractFramesFromVideo B f _)).
      * rewrite remove_fresh in Hu by assumption. apply Hsame; [lia | assumption].
      * now apply Hone.
      * now apply Hone.
    + destruct H as [Hf Hu]. apply Hsame; [lia | assumption].
  - apply Hsame; unfold copyAllPrompts; destruct (result (state w)); reflexivity.
  - unfold downloadJson. destruct (result (state w)).
    + now apply Hone.
    + now apply Hsame.
  - now apply Hsame.
  - now apply Hsame.
Qed.

Lemma perform_fresh B stringify a w :
  (fresh w <= fresh (perform B stringify a w))%nat.
Proof.
  destruct a as [file url| | | |]; cbn [perform].
  - pose proof (handleVideoSelection_urls B file url w) as H. cbv zeta in H.
    destruct (source_of B file url); destruct H as [-> _]; lia.
  - unfold copyAllPrompts; destruct (result (state w)); cbn; lia.
  - unfold downloadJson; destruct (result (state w)); cbn; lia.
  - cbn; lia.
  - cbn; lia.
Qed.

Lemma reachable_urls_numbered stringify w :
  reachable stringify w -> urls_numbered w.
Proof.
  induction 1 as [|w B a _ IH _].
  - intros u [].
  - now apply perform_urls.
Qed.

Lemma perform_all_app stringify l1 l2 w :
  perform_all stringify (l1 ++ l2) w
  = perform_all stringify l2 (perform_all stringify l1 w).
Proof.
  revert w. induction l1 as [|[B a] l1 IH]; intros w; [reflexivity |].
  cbn [app perform_all]. apply IH.
Qed.

(** Every world of a session is the initial world after a list of
    actions. *)
Lemma reachable_perform_all stringify w :
  reachable stringify w ->
  exists steps, w = perform_all stringify steps (world0 initialState).
Proof.
  induction 1 as [|w B a _ [steps ->] _].
  - now exists [].
  - exists (steps ++ [(B, a)])%list. now rewrite perform_all_app.
Qed.

(** X9.  No handler revokes an object URL that an earlier one has left
    live.  From every world whose object URLs are numbered in the order
    of their creation (the initial world and every world of a session
    are), whatever actions follow, rendered or not, and whatever the
    environment of each: the URLs that are live stay live (the URL of a
    run whose sampler did not resolve, the URL of every export, also
    through the two resets), the numbering is kept, and the next fresh
    URL never goes back, so that no URL is reused. *)
Theorem object_URLs_kept
    (stringify : AnalysisResult -> string) (steps : list (Browser * Action))
    (w : World) :
  urls_numbered w ->
  incl (objectURLs w) (objectURLs (perform_all stringify steps w)) /\
  urls_numbered (perform_all stringify steps w) /\
  (fresh w <= fresh (perform_all stringify steps w))%nat.
Proof.
  revert w. induction steps as [|[B a] rest IH]; intros w Hn; cbn [perform_all].
  - split; [apply incl_refl |]. split; [exact Hn | lia].
  - destruct (perform_urls B stringify a w Hn) as [Hn1 Hi1].
    pose proof (perform_fresh B stringify a w) as Hf1.
    destruct (IH _ Hn1) as (Hi & Hn2 & Hf).
    split; [exact (incl_tran Hi1 Hi) |]. split; [exact Hn2 | lia].
Qed.

Lemma object_URLs_kept_witness :
  objectURLs Sessions.failed = [0%nat] /\
  incl (objectURLs Sessions.failed)
       (objectURLs (perform_all Sessions.stringify
                      [(Inputs.browser_undecodable, click_restart);
                       (Inputs.browser_ok, Sessions.submit_clip);
                       (Inputs.browser_ok, click_export)]
                      Sessions.failed)) /\
  urls_numbered (perform_all Sessions.stringify
                   [(Inputs.browser_undecodable, click_restart);
                    (Inputs.browser_ok, Sessions.submit_clip);
                    (Inputs.browser_ok, click_export)]
                   Sessions.failed) /\
  (fresh Sessions.failed
   <= fresh (perform_all Sessions.stringify
               [(Inputs.browser_undecodable, click_restart);
                (Inputs.browser_ok, Sessions.submit_clip);
                (Inputs.browser_ok, click_export)]
               Sessions.failed))%nat.
Proof.
  split; [vm_compute; reflexivity |].
  apply object_URLs_kept. exact (reachable_urls_numbered _ _ reachable_failed).
Defined.

(** X10.  A run that ends in [completed] leaves no object URL behind:
    the live URLs are those it found, whatever their number. *)
Theorem handleVideoSelection_completed_releases
    (B : Browser) (file : option File) (url : string) (w : World) :
  urls_numbered w ->
  status (state (fst (handleVideoSelection B file url w))) = completed ->
  objectURLs (fst (handleVideoSelection B file url w)) = objectURLs w /\
  fresh (fst (handleVideoSelection B file url w)) = S (fresh w).
Proof.
  intros Hn Hs.
  assert (Hnot : ~ In (fresh w) (objectURLs w)).
  { intros Hin. apply Hn in Hin. lia. }
  pose proof (handleVideoSelection_urls B file url w) as Hu. cbv zeta in Hu.
  rewrite handleVideoSelection_unfold in Hs.
  destruct (try_body B file url (fst (setState set_uploading w))) as [w1 r1] eqn:Hbody.
  pose proof (try_body_cases B file url (fst (setState set_uploading w))) as Hc.
  destruct r1 as [[]|[err|v]|]; cbn [fst snd state logged] in Hs.
  - destruct (source_of B file url) as [f|].
    + rewrite Hbody in Hc. symmetry in Hc.
      apply after_source_fulfilled in Hc as (video & r & Hl & Hcomp & _ & _).
      rewrite (extractFramesFromVideo_complete B f _ video Hl Hcomp) in Hu.
      cbn [snd] in Hu. destruct Hu as [-> ->].
      split; [now apply remove_fresh | reflexivity].
    + rewrite Hbody in Hc. destruct Hc as [_ Hc]. now elim (Hc tt).
  - discriminate.
  - apply try_body_outcome in Hbody. cbn [setState fst state] in Hbody.
    destruct Hbody as [[Hb _] | Hb]; rewrite Hb in Hs; discriminate.
  - apply try_body_outcome in Hbody. cbn [setState fst state] in Hbody.
    destruct Hbody as [Hb | Hb]; rewrite Hb in Hs; discriminate.
Qed.

Lemma handleVideoSelection_completed_releases_witness :
  objectURLs (fst (handleVideoSelection Inputs.browser_ok (Some Inputs.clip) ""
                     (world0 initialState))) = [] /\
  fresh (fst (handleVideoSelection Inputs.browser_ok (Some Inputs.clip) ""
                (world0 initialState))) = 1%nat.
Proof.
  apply (handleVideoSelection_completed_releases Inputs.browser_ok (Some Inputs.clip) ""
           (world0 initialState)).
  - intros u [].
  - vm_compute. reflexivity.
Defined.

(** ** Export *)

Lemma downloadJson_stored (stringify : AnalysisResult -> string) (w : World)
    (r : AnalysisResult) :
  result (state w) = Some r ->
  fst (downloadJson stringify w) =
  {| state := state w; objectURLs := fresh w :: objectURLs w; fresh := S (fresh w);
     log := log w ++ [ev_createObjectURL (fresh w)] |}.
Proof. unfold downloadJson. now intros ->. Qed.

Lemma downloadJson_iter (stringify : AnalysisResult -> string) (w : World)
    (r : AnalysisResult) (n : nat) :
  result (state w) = Some r ->
  let w' := Nat.iter n (fun v => fst (downloadJson stringify v)) w in
  state w' = state w /\
  fresh w' = (n + fresh w)%nat /\
  objectURLs w' = (rev (seq (fresh w) n) ++ objectURLs w)%list.
Proof.
  intros Hr. cbv zeta. induction n as [|n IH].
  - cbn. auto.
  - rewrite !Nat.iter_succ. destruct IH as (Hs & Hf & Hu).
    rewrite (downloadJson_stored stringify _ r) by now rewrite Hs.
    cbn [state fresh objectURLs].
    rewrite Hf, Hu. split; [assumption |]. split; [reflexivity |].
    rewrite seq_S, rev_app_distr. cbn [rev app]. f_equal. lia.
Qed.

(** X11.  [downloadJson] never revokes the object URL it creates: [n]
    exports of a stored result leave [n] more live URLs, numbered from
    the first fresh one, and the state as it was. *)
Theorem downloadJson_never_revokes
    (stringify : AnalysisResult -> string) (w : World) (r : AnalysisResult) (n : nat) :
  result (state w) = Some r ->
  state (Nat.iter n (fun v => fst (downloadJson stringify v)) w) = state w /\
  List.length (objectURLs (Nat.iter n (fun v => fst (downloadJson stringify v)) w))
  = (n + List.length (objectURLs w))%nat /\
  forall k, (k < n)%nat ->
    In (fresh w + k)%nat
       (objectURLs (Nat.iter n (fun v => fst (downloadJson stringify v)) w)).
Proof.
  intros Hr. destruct (downloadJson_iter stringify w r n Hr) as (Hs & _ & Hu).
  cbv zeta in Hs, Hu. rewrite Hs, Hu. split; [reflexivity |]. split.
  - now rewrite length_app, length_rev, length_seq.
  - intros k Hk. apply in_or_app. left. apply in_rev. rewrite rev_involutive.
    apply in_seq. lia.
Qed.

Lemma downloadJson_never_revokes_witness :
  state (Nat.iter 3 (fun v => fst (downloadJson Sessions.stringify v))
           (world0 Inputs.completedState)) = Inputs.completedState /\
  List.length (objectURLs (Nat.iter 3 (fun v => fst (downloadJson Sessions.stringify v))
                             (world0 Inputs.completedState))) = 3%nat /\
  forall k, (k < 3)%nat ->
    In (0 + k)%nat
       (objectURLs (Nat.iter 3 (fun v => fst (downloadJson Sessions.stringify v))
                      (world0 Inputs.completedState))).
Proof.
  exact (downloadJson_never_revokes Sessions.stringify (world0 Inputs.completedState)
           Inputs.analysis 3 eq_refl).
Defined.

(** ** The rotation of the banner *)

(** X12.  The interval installed by [useEffect] always has a phrase to
    show: at every firing [messages[i % messages.length]] is one of the
    seven phrases, never [undefined]; the phrase differs from the one of
    the firing before, and the rotation repeats after seven firings,
    from "Encoding video buffer...". *)
Theorem rotating_message_cycle (i : nat) :
  exists m m',
    rotating_message i = Some m /\ In m messages /\
    rotating_message (S i) = Some m' /\ (m =? m')%string = false /\
    rotating_message (i + 7) = Some m /\
    rotating_message (7 * i) = Some "Encoding video buffer..."%string.
Proof.
  unfold rotating_message.
  change (List.length messages) with 7%nat.
  assert (H7 : ((i + 7) mod 7 = i mod 7)%nat).
  { replace (i + 7)%nat with (i + 1 * 7)%nat by lia. apply Nat.Div0.mod_add. }
  assert (H0 : ((7 * i) mod 7 = 0)%nat).
  { rewrite Nat.mul_comm. apply Nat.Div0.mod_mul. }
  assert (HS : (S i mod 7 = if (i mod 7 =? 6)%nat then 0 else S (i mod 7))%nat).
  { pose proof (Nat.mod_upper_bound i 7 ltac:(lia)) as Hb.
    pose proof (Nat.div_mod_eq i 7) as Hd.
    destruct (Nat.eqb_spec (i mod 7) 6) as [He|He].
    - symmetry. apply (Nat.mod_unique (S i) 7 (S (i / 7)) 0); lia.
    - symmetry. apply (Nat.mod_unique (S i) 7 (i / 7) (S (i mod 7))); lia. }
  rewrite H7, H0, HS.
  pose proof (Nat.mod_upper_bound i 7 ltac:(lia)) as Hb.
  destruct (i mod 7)%nat as [|[|[|[|[|[|[|k]]]]]]]; try lia;
    cbn; eexists; eexists; (split; [reflexivity |]);
    (split; [tauto |]); (split; [reflexivity |]); (split; [reflexivity |]);
    split; reflexivity.
Qed.

(** ** A source without a finite duration *)




(** ** The size of the canvas *)

Lemma digits_unique (m : positive) (d : Z) :
  2 ^ (d - 1) <= Zpos m < 2 ^ d -> digits m = d.
Proof.
  intros [Hl Hu]. pose proof (digits_bounds m) as [Hl' Hu'].
  pose proof (digits_pos m) as Hp.
  assert (Hd : 0 < d).
  { destruct (Z_lt_le_dec 0 d) as [|Hle]; [assumption |].
    destruct (Z.eq_dec d 0) as [->|]; [cbn in Hu; lia |].
    rewrite (Z.pow_neg_r 2 d) in Hu by lia. lia. }
  assert (H1 : 2 ^ (d - 1) < 2 ^ digits m) by lia.
  assert (H2 : 2 ^ (digits m - 1) < 2 ^ d) by lia.
  apply Z.pow_lt_mono_r_iff in H1; try lia.
  apply Z.pow_lt_mono_r_iff in H2; lia.
Qed.

(** A rounded mantissa of a normal number, packed. *)
Lemma pack_normal_cases (a e : Z) :
  2 ^ 52 <= a <= 2 ^ 53 -> e < 971 ->
  exists ms es,
    pack a e = S754_finite false ms es /\ digits ms = 53 /\
    e <= es <= e + 1 /\ Zpos ms * 2 ^ (es - e) = a.
Proof.
  intros Ha He. unfold pack.
  destruct (Z.eqb_spec a 0); [lia |].
  destruct (Z.eqb_spec a (2 ^ 53)) as [->|Hne].
  - destruct (Z.leb_spec (e + 1) 971); [| lia].
    exists (2 ^ 52)%positive, (e + 1). split; [reflexivity |].
    split; [reflexivity |]. split; [lia |].
    replace (e + 1 - e) with 1 by lia. reflexivity.
  - destruct (Z.leb_spec e 971); [| lia].
    exists (Z.to_pos a), e. split; [reflexivity |].
    assert (Hpos : Zpos (Z.to_pos a) = a) by (apply Z2Pos.id; lia).
    split; [apply digits_unique; rewrite Hpos; change (2 ^ (53 - 1)) with (2 ^ 52); lia |].
    split; [lia |]. rewrite Z.sub_diag, Hpos. lia.
Qed.

(** The integer part of a packed number below 2 ^ 53. *)
Lemma trunc_pack (a e : Z) :
  0 <= a <= 2 ^ 53 -> e < 0 -> trunc (pack a e) = a / 2 ^ (- e).
Proof.
  intros Ha He. unfold pack.
  destruct (Z.eqb_spec a 0) as [->|Hz]; [reflexivity |].
  destruct (Z.eqb_spec a (2 ^ 53)) as [->|Hne].
  - destruct (Z.leb_spec (e + 1) 971); [| lia].
    unfold trunc. change (Zpos (2 ^ 52)) with (2 ^ 52).
    destruct (Z.eq_dec e (-1)) as [->|Hm]; [reflexivity |].
    rewrite Z.shiftl_div_pow2 by lia.
    replace (- e) with (1 + - (e + 1)) by lia.
    rewrite Z.pow_add_r by lia. rewrite <- Z.div_div by (try lia; apply Z.pow_pos_nonneg; lia).
    reflexivity.
  - destruct (Z.leb_spec e 971); [| lia].
    unfold trunc. rewrite Z2Pos.id by lia.
    now rewrite Z.shiftl_div_pow2 by lia.
Qed.

Lemma div_448 (p : positive) :
  448 < Zpos p -> digits p <= 31 ->
  exists ms es,
    div (of_Z targetHeight) (of_Z (Zpos p)) = S754_finite false ms es /\
    digits ms = 53 /\
    -76 <= es <= -53 /\
    448 * 2 ^ (- es) - Zpos p < Zpos p * Zpos ms <= 448 * 2 ^ (- es) + Zpos p.
Proof.
  intros Hh Hd.
  destruct (of_Z_normal p ltac:(lia)) as (mh & -> & Hdm & Hmh).
  pose proof (digits_bounds p) as [Hpl Hpu]. pose proof (digits_pos p) as Hdp.
  assert (Hd9 : 9 <= digits p).
  { destruct (Z_le_gt_dec 9 (digits p)) as [|Hgt]; [assumption |].
    assert (2 ^ digits p <= 2 ^ 8) by (apply Z.pow_le_mono_r; lia).
    change (2 ^ 8) with 256 in *. lia. }
  set (dh := digits p) in *.
  change (of_Z targetHeight) with (S754_finite false 7881299347898368 (-44)).
  unfold div, SFdiv, SFdiv_core_binary, prec, emax. cbn [xorb Zdigits2].
  change (Zpos (digits2_pos 7881299347898368)) with 53.
  fold (digits mh). rewrite Hdm. rewrite fexp_eq.
  set (e' := IntDef.Z.min (Z.max (53 + -44 - (53 + (dh - 53)) - 53) (-1074))
               (-44 - (dh - 53))).
  assert (He' : e' = -44 - dh) by (unfold e'; change IntDef.Z.min with Z.min; lia).
  replace (-44 - (dh - 53) - e') with 53 by lia. cbv iota.
  change (IntDef.Z.shiftl 7881299347898368 53) with (448 * 2 ^ 97).
  set (D := 2 ^ (53 - dh)) in *.
  set (X := 2 ^ (44 + dh)).
  assert (HD : 0 < D) by (apply Z.pow_pos_nonneg; lia).
  assert (HX : 0 < X) by (apply Z.pow_pos_nonneg; lia).
  assert (HDX : 2 ^ 97 = D * X).
  { unfold D, X. rewrite <- Z.pow_add_r by lia. f_equal. lia. }
  pose proof (digits_bounds mh) as [Hml Hmu]. rewrite Hdm in Hml, Hmu.
  change (2 ^ (53 - 1)) with (2 ^ 52) in Hml.
  pose proof (Z.div_eucl_eq (448 * 2 ^ 97) (Zpos mh) ltac:(lia)) as Hdiv.
  pose proof (Z.mod_pos_bound (448 * 2 ^ 97) (Zpos mh) ltac:(lia)) as Hmod.
  unfold Z.modulo in Hmod.
  destruct (Z.div_eucl (448 * 2 ^ 97) (Zpos mh)) as [q r].
  set (h := Zpos p) in *.
  assert (Hq1 : q * h <= 448 * X).
  { rewrite HDX, Hmh in Hdiv. nia. }
  assert (Hq2 : 448 * X < (q + 1) * h).
  { rewrite HDX, Hmh in Hdiv. rewrite Hmh in Hmod. nia. }
  assert (Hql : 2 ^ 52 <= q).
  { change (2 ^ 97) with (2 ^ 44 * 2 ^ 53) in Hdiv.
    assert (448 * 2 ^ 44 * 2 ^ 53 < (q + 1) * 2 ^ 53) by nia.
    assert (448 * 2 ^ 44 < q + 1) by nia.
    change (448 * 2 ^ 44) with (7 * 2 ^ 50) in *. change (2 ^ 52) with (4 * 2 ^ 50). lia. }
  assert (Hqu : q < 2 ^ 54).
  { change (2 ^ 97) with (2 ^ 45 * 2 ^ 52) in Hdiv.
    assert (q * 2 ^ 52 <= 448 * 2 ^ 45 * 2 ^ 52) by nia.
    assert (q <= 448 * 2 ^ 45) by nia.
    change (448 * 2 ^ 45) with (7 * 2 ^ 51) in *. change (2 ^ 54) with (8 * 2 ^ 51). lia. }
  assert (Hq : 0 <= q) by lia.
  destruct (Zdigits2_bounds q Hq) as (Hz0 & Hzu & Hzl). specialize (Hzl ltac:(lia)).
  assert (Hdq : 53 <= Zdigits2 q <= 54).
  { split.
    - destruct (Z_le_gt_dec 53 (Zdigits2 q)) as [|Hgt]; [assumption |].
      assert (2 ^ Zdigits2 q <= 2 ^ 52) by (apply Z.pow_le_mono_r; lia). lia.
    - destruct (Z_le_gt_dec (Zdigits2 q) 54) as [|Hgt]; [assumption |].
      assert (2 ^ 54 <= 2 ^ (Zdigits2 q - 1)) by (apply Z.pow_le_mono_r; lia). lia. }
  assert (Hshift : e' <= fexp 53 1024 (Zdigits2 q + e')) by (rewrite fexp_eq; lia).
  destruct (binary_round_aux_floor q e' (new_location (Zpos mh) r)
              Hq ltac:(lia) Hshift) as (a & Ha & Hab & Hlow & ->).
  rewrite fexp_eq in *.
  replace (Z.max (Zdigits2 q + e' - 53) (-1074)) with (Zdigits2 q + e' - 53) in * by lia.
  set (e := Zdigits2 q + e' - 53) in *.
  specialize (Hlow ltac:(lia)).
  destruct (pack_normal_cases a e ltac:(lia) ltac:(lia)) as (ms & es & -> & Hdms & Hes & Hms).
  exists ms, es. split; [reflexivity |]. split; [exact Hdms |].
  set (S := 2 ^ (- es)). set (J := 2 ^ (es - e)) in *. set (N := 2 ^ (e - e')) in *.
  assert (HS : 0 < S) by (apply Z.pow_pos_nonneg; lia).
  assert (HJ : J = 1 \/ J = 2).
  { unfold J. destruct (Z.eq_dec es e) as [->|]; [rewrite Z.sub_diag; now left |].
    replace (es - e) with 1 by lia. now right. }
  assert (HN : N = 1 \/ N = 2).
  { unfold N. destruct (Z.eq_dec e e') as [->|]; [rewrite Z.sub_diag; now left |].
    replace (e - e') with 1 by lia. now right. }
  assert (HXS : X = S * J * N).
  { unfold X, S, J, N. rewrite <- !Z.pow_add_r by lia. f_equal. lia. }
  assert (HN0 : 0 < N) by lia.
  pose proof (Z.mul_div_le q N HN0) as Hfl.
  pose proof (Z.mul_succ_div_gt q N HN0) as Hfu.
  pose proof (digits_bounds ms) as [Hsl Hsu]. rewrite Hdms in Hsl, Hsu.
  change (2 ^ (53 - 1)) with (2 ^ 52) in Hsl.
  assert (A1 : h * a <= h * (q / N) + h).
  { replace (h * (q / N) + h) with (h * (q / N + 1)) by ring.
    apply Z.mul_le_mono_nonneg_l; lia. }
  assert (A2 : h * (N * (q / N)) <= h * q) by (apply Z.mul_le_mono_nonneg_l; lia).
  assert (A3 : h * (q / N) <= h * a) by (apply Z.mul_le_mono_nonneg_l; lia).
  assert (A4 : h * (q + 1) <= h * (N * Z.succ (q / N)))
    by (apply Z.mul_le_mono_nonneg_l; lia).
  rewrite <- Hms in A1, A3.
  assert (HS52 : -53 < es -> S <= 2 ^ 52).
  { intros Hgt. unfold S. apply Z.pow_le_mono_r; lia. }
  assert (Hh31 : h < 2 ^ 31).
  { apply Z.lt_le_trans with (1 := Hpu). apply Z.pow_le_mono_r; lia. }
  assert (A5 : h * 2 ^ 52 <= h * Zpos ms) by (apply Z.mul_le_mono_nonneg_l; lia).
  clearbody S J N X D. clear Hfl Hfu Hdiv Hmod Hms Ha.
  assert (Hup : h * Zpos ms <= 448 * S + h).
  { destruct HJ as [-> | ->], HN as [-> | ->]; subst X; lia. }
  assert (Hlo : 448 * S - h < h * Zpos ms).
  { destruct HJ as [-> | ->], HN as [-> | ->]; subst X; lia. }
  split; [| split; assumption].
  split; [lia |].
  destruct (Z_le_gt_dec es (-53)) as [|Hgt]; [assumption | exfalso].
  specialize (HS52 ltac:(lia)). lia.
Qed.

(** The integer part of a positive integer below 2 ^ 31 times a scale
    that is within one unit in the last place of [448 / h]. *)
Lemma trunc_mul_scale (pz : positive) (h : Z) (ms : positive) (es : Z) :
  digits pz <= 31 -> 448 < h < 2 ^ 31 ->
  digits ms = 53 -> -76 <= es <= -53 ->
  448 * 2 ^ (- es) - h < h * Zpos ms <= 448 * 2 ^ (- es) + h ->
  let c := trunc (mul (of_Z (Zpos pz)) (S754_finite false ms es)) in
  0 <= c /\
  448 * Zpos pz / h - 1 <= c <= 448 * Zpos pz / h /\
  ((448 * Zpos pz) mod h <> 0 -> c = 448 * Zpos pz / h).
Proof.
  intros Hdz Hh Hdms Hes Hs. cbv zeta.
  destruct (of_Z_normal pz ltac:(lia)) as (mz & -> & Hdmz & Hmz).
  pose proof (digits_bounds pz) as [Hzl Hzu]. pose proof (digits_pos pz) as Hdp.
  set (z := Zpos pz) in *. set (dz := digits pz) in *.
  assert (Hz31 : z < 2 ^ 31).
  { apply Z.lt_le_trans with (1 := Hzu). apply Z.pow_le_mono_r; lia. }
  assert (Hz0 : 0 < z) by (unfold z; lia).
  change (mul (S754_finite false mz (dz - 53)) (S754_finite false ms es))
    with (binary_round_aux 53 1024 false (Zpos (mz * ms)) (dz - 53 + es) loc_Exact).
  pose proof (digits_mul_normal mz ms Hdmz) as HdM.
  pose proof (digits_bounds (mz * ms)) as [HMl HMu].
  pose proof (digits_bounds ms) as [Hsl Hsu]. rewrite Hdms in Hsl, Hsu.
  change (2 ^ (53 - 1)) with (2 ^ 52) in Hsl.
  set (dM := digits (mz * ms)) in *.
  set (E := dz - 53 + es) in *.
  set (Dz := 2 ^ (53 - dz)) in *. set (S := 2 ^ (- es)) in *.
  assert (HDz : 0 < Dz) by (apply Z.pow_pos_nonneg; lia).
  assert (HS53 : 2 ^ 53 <= S) by (apply Z.pow_le_mono_r; lia).
  assert (HG : Dz * S = 2 ^ (- E)).
  { unfold Dz, S, E. rewrite <- Z.pow_add_r by lia. f_equal. lia. }
  assert (HM : Zpos (mz * ms) = z * Dz * Zpos ms) by (rewrite Pos2Z.inj_mul, Hmz; ring).
  assert (HdME : dM + E < 32).
  { assert (H1 : Zpos (mz * ms) < 2 ^ 31 * 2 ^ (- E)).
    { rewrite HM, <- HG.
      assert (z * Zpos ms < 2 ^ 31 * S) by nia.
      replace (z * Dz * Zpos ms) with (Dz * (z * Zpos ms)) by ring.
      replace (2 ^ 31 * (Dz * S)) with (Dz * (2 ^ 31 * S)) by ring.
      apply Z.mul_lt_mono_pos_l; assumption. }
    rewrite <- Z.pow_add_r in H1 by lia.
    assert (H2 : 2 ^ (dM - 1) < 2 ^ (31 + - E)) by lia.
    apply Z.pow_lt_mono_r_iff in H2; lia. }
  destruct (binary_round_aux_exact (mz * ms) E) as (a & Hn & Ha & Hlow & ->).
  { rewrite fexp_eq. fold dM. lia. }
  rewrite fexp_eq in *. fold dM in Hn, Hlow |- *.
  replace (Z.max (dM + E - 53) (-1074)) with (dM + E - 53) in * by lia.
  set (e := dM + E - 53) in *.
  rewrite trunc_pack by lia.
  replace (e - E) with (dM - 53) in Hn by (unfold e; lia).
  set (W := 2 ^ (- e)). set (Q := 2 ^ (dM - 53)) in *.
  assert (HW : 0 < W) by (apply Z.pow_pos_nonneg; lia).
  assert (HQ : 0 < Q) by (apply Z.pow_pos_nonneg; lia).
  assert (HQW : Dz * S = Q * W).
  { rewrite HG. unfold Q, W. rewrite <- Z.pow_add_r by lia. f_equal. unfold e. lia. }
  assert (HMQ : Q * 2 ^ 52 <= Zpos (mz * ms)).
  { unfold Q. rewrite <- Z.pow_add_r by lia. replace (dM - 53 + 52) with (dM - 1) by lia.
    exact HMl. }
  destruct Hn as [[Hn1 Hn2] _].
  pose proof (Z.div_mod (448 * z) h ltac:(lia)) as HK.
  pose proof (Z.mod_pos_bound (448 * z) h ltac:(lia)) as Hr.
  set (k := 448 * z / h) in *. set (r := (448 * z) mod h) in *.
  fold Q in Hn1, Hn2. specialize (Hlow ltac:(lia)).
  set (M := Zpos (mz * ms)) in *. set (G := Dz * S) in *.
  assert (HG0 : 0 < G) by (unfold G; apply Z.mul_pos_pos; lia).
  assert (HzD : 0 < z * Dz) by (apply Z.mul_pos_pos; lia).
  (* the exact product against 448 z / h *)
  assert (I1 : h * M <= 448 * z * G + z * h * Dz).
  { replace (h * M) with (z * Dz * (h * Zpos ms)) by (rewrite HM; ring).
    replace (448 * z * G + z * h * Dz) with (z * Dz * (448 * S + h)) by (unfold G; ring).
    apply Z.mul_le_mono_nonneg_l; lia. }
  assert (I2 : 448 * z * G - z * h * Dz < h * M).
  { replace (h * M) with (z * Dz * (h * Zpos ms)) by (rewrite HM; ring).
    replace (448 * z * G - z * h * Dz) with (z * Dz * (448 * S - h)) by (unfold G; ring).
    apply Z.mul_lt_mono_pos_l; lia. }
  (* the unit in the last place of the scale and of the product are small *)
  assert (HS43 : 2 ^ 43 * h <= S).
  { assert (h * 2 ^ 52 <= h * Zpos ms) by (apply Z.mul_le_mono_nonneg_l; lia). lia. }
  assert (I3 : 2 ^ 12 * (z * h * Dz) <= G).
  { assert (H1 : Dz * (2 ^ 43 * h) <= G) by (unfold G; apply Z.mul_le_mono_nonneg_l; lia).
    assert (H2 : z * (h * Dz) <= 2 ^ 31 * (h * Dz)).
    { apply Z.mul_le_mono_nonneg_r; [apply Z.mul_nonneg_nonneg; lia | lia]. }
    lia. }
  assert (I4 : 2 ^ 11 * (h * Q) <= G).
  { assert (H1 : h * (Q * 2 ^ 52) <= h * M) by (apply Z.mul_le_mono_nonneg_l; lia).
    assert (H2 : z * G <= 2 ^ 31 * G) by (apply Z.mul_le_mono_nonneg_r; lia).
    lia. }
  assert (HrG : r * G <= (h - 1) * G) by (apply Z.mul_le_mono_nonneg_r; lia).
  assert (HKG : 448 * z * G = h * k * G + r * G) by (rewrite HK; ring).
  assert (HhQ : 0 < h * Q) by (apply Z.mul_pos_pos; lia).
  assert (HzhD : 0 < z * h * Dz) by (repeat apply Z.mul_pos_pos; lia).
  assert (HGQW : G = Q * W) by (unfold G; exact HQW).
  (* the rounded mantissa is below (k + 1) W *)
  assert (HU : a < W * (k + 1)).
  { destruct (Z_lt_le_dec a (W * (k + 1))) as [|Hge]; [assumption | exfalso].
    assert (u1 : Q * (2 * (W * (k + 1)) - 1) <= Q * (2 * a - 1))
      by (apply Z.mul_le_mono_nonneg_l; lia).
    assert (u2 : h * (2 * (k + 1) * G - Q) <= h * (2 * M)).
    { apply Z.mul_le_mono_nonneg_l; [lia |].
      replace (2 * (k + 1) * G - Q) with (Q * (2 * (W * (k + 1)) - 1))
        by (rewrite HGQW; ring).
      lia. }
    clear - u2 I1 I3 I4 HrG HKG HG0 HhQ HzhD. lia. }
  assert (HhG : 1 * G <= h * G) by (apply Z.mul_le_mono_nonneg_r; lia).
  assert (HrG0 : 0 <= r * G) by (apply Z.mul_nonneg_nonneg; lia).
  (* and not below (k - 1) W, nor below k W when h does not divide 448 z *)
  assert (HL : forall k', (k' = k - 1 \/ (k' = k /\ r <> 0)) -> W * k' <= a).
  { intros k' Hk'.
    destruct (Z_le_gt_dec (W * k') a) as [|Hlt]; [assumption | exfalso].
    assert (l1 : Q * (2 * a + 1) <= Q * (2 * (W * k') - 1))
      by (apply Z.mul_le_mono_nonneg_l; lia).
    assert (l2 : h * (2 * M) <= h * (2 * k' * G - Q)).
    { apply Z.mul_le_mono_nonneg_l; [lia |].
      replace (2 * k' * G - Q) with (Q * (2 * (W * k') - 1)) by (rewrite HGQW; ring).
      lia. }
    destruct Hk' as [-> | [-> Hr0]].
    - clear - l2 I2 I3 HKG HG0 HhQ HzhD HhG HrG0. lia.
    - assert (Hr1 : 1 <= r) by (clear - Hr Hr0; lia).
      assert (HrG1 : 1 * G <= r * G)
        by (apply Z.mul_le_mono_nonneg_r; [clear - HG0; lia | exact Hr1]).
      clear - l2 I2 I3 HKG HG0 HhQ HzhD HrG1. lia. }
  assert (H1 : k - 1 <= a / W).
  { apply Z.div_le_lower_bound; [exact HW |]. apply HL. left. reflexivity. }
  assert (H2 : a / W <= k).
  { apply Z.lt_succ_r. apply Z.div_lt_upper_bound; [exact HW |].
    replace (Z.succ k) with (k + 1) by (clear; lia). exact HU. }
  split; [apply Z.div_pos; [exact (proj1 Ha) | exact HW] |].
  split; [split; assumption |].
  intros Hr0. apply Z.le_antisymm; [exact H2 |].
  apply Z.div_le_lower_bound; [exact HW |]. apply HL. right. split; [reflexivity | exact Hr0].
Qed.

Lemma digits_below (p : positive) (n : Z) : 0 <= n -> Zpos p < 2 ^ n -> digits p <= n.
Proof.
  intros Hn Hp. pose proof (digits_bounds p) as [Hl _]. pose proof (digits_pos p).
  assert (H1 : 2 ^ (digits p - 1) < 2 ^ n) by lia.
  apply Z.pow_lt_mono_r_iff in H1; lia.
Qed.

(** The scale of a source higher than 448: the quotient itself, below 1. *)
Lemma scale_of_tall (d : number) (wd : Z) (p : positive) :
  448 < Zpos p <= 2147483647 ->
  exists ms es,
    scale_of {| duration := d; videoWidth := wd; videoHeight := Zpos p |}
    = S754_finite false ms es /\
    digits ms = 53 /\ -76 <= es <= -53 /\
    448 * 2 ^ (- es) - Zpos p < Zpos p * Zpos ms <= 448 * 2 ^ (- es) + Zpos p.
Proof.
  intros Hh.
  assert (Hd : digits p <= 31) by (apply digits_below; [lia |]; change (2 ^ 31) with 2147483648; lia).
  destruct (div_448 p ltac:(lia) Hd) as (ms & es & Hdiv & Hdms & Hes & Hb).
  exists ms, es. split; [| auto].
  unfold scale_of. cbn [videoHeight]. rewrite Hdiv.
  change (of_Z 1) with (S754_finite false 4503599627370496 (-52)).
  unfold Math_min, SFcompare.
  assert (Hc : (-52 ?= es) = Gt) by (apply Z.compare_gt_iff; lia).
  now rewrite Hc.
Qed.

(** What assigning [z * scale] to a dimension of the canvas gives, for a
    source higher than 448. *)
Lemma canvas_dimension_tall (default : Z) (video : VideoMeta) (z : Z) :
  448 < videoHeight video <= 2147483647 ->
  0 <= z <= 2147483647 ->
  let c := set_dimension default (mul (of_Z z) (scale_of video)) in
  0 <= c /\
  448 * z / videoHeight video - 1 <= c <= 448 * z / videoHeight video /\
  ((448 * z) mod videoHeight video <> 0 -> c = 448 * z / videoHeight video).
Proof.
  intros Hh Hz. cbv zeta. destruct video as [d wd h]. cbn [videoHeight] in *.
  destruct h as [|p|p]; try lia.
  destruct (scale_of_tall d wd p Hh) as (ms & es & -> & Hdms & Hes & Hb).
  destruct z as [|pz|pz]; try lia.
  - change (mul (of_Z 0) (S754_finite false ms es)) with (S754_zero false).
    change (set_dimension default (S754_zero false)) with 0.
    rewrite Z.mul_0_r, Z.div_0_l, Z.mod_0_l by lia. lia.
  - assert (Hdz : digits pz <= 31)
      by (apply digits_below; [lia |]; change (2 ^ 31) with 2147483648; lia).
    pose proof (trunc_mul_scale pz (Zpos p) ms es Hdz
                  ltac:(change (2 ^ 31) with 2147483648; lia) Hdms Hes Hb) as Ht.
    cbv zeta in Ht. destruct Ht as (H0 & [H1 H2] & H3).
    set (c := trunc (mul (of_Z (Zpos pz)) (S754_finite false ms es))) in *.
    assert (Hk : 448 * Zpos pz / Zpos p <= Zpos pz).
    { apply Z.div_le_upper_bound; [lia |]. nia. }
    assert (Hset : set_dimension default (mul (of_Z (Zpos pz)) (S754_finite false ms es)) = c).
    { unfold set_dimension, to_unsigned_long. fold c.
      rewrite Z.mod_small by (change (2 ^ 32) with 4294967296; lia).
      destruct (Z.leb_spec c 2147483647); [reflexivity | lia]. }
    rewrite Hset. auto.
Qed.

(** X14.  The canvas of a source higher than 448, exactly: its height is
    448 or 447, and its width is [448 * width / height] rounded down, or
    one less; one less only when the height divides [448 * width]. *)
Theorem canvas_size_tall (video : VideoMeta) :
  0 <= videoWidth video <= 2147483647 ->
  448 < videoHeight video <= 2147483647 ->
  (canvas_height video = 448 \/ canvas_height video = 447) /\
  0 <= canvas_width video /\
  448 * videoWidth video / videoHeight video - 1 <= canvas_width video
    <= 448 * videoWidth video / videoHeight video /\
  ((448 * videoWidth video) mod videoHeight video <> 0 ->
   canvas_width video = 448 * videoWidth video / videoHeight video).
Proof.
  intros Hw Hh. split.
  - destruct (canvas_dimension_tall 150 video (videoHeight video) Hh ltac:(lia))
      as (_ & [H1 H2] & _).
    fold (canvas_height video) in H1, H2.
    rewrite Z.div_mul in H1, H2 by lia. lia.
  - exact (canvas_dimension_tall 300 video (videoWidth video) Hh Hw).
Qed.

Lemma canvas_size_tall_witness :
  (canvas_height Inputs.video568 = 448 \/ canvas_height Inputs.video568 = 447) /\
  canvas_width Inputs.video568 = 252.
Proof.
  destruct (canvas_size_tall Inputs.video568) as (Hh & _ & _ & Hw);
    [cbn; lia | cbn; lia |].
  split; [exact Hh |]. rewrite Hw; [reflexivity | vm_compute; discriminate].
Defined.

(** X15.  The sampler never upscales: for every source (of dimensions
    that fit a signed 32-bit integer) the canvas is at most as wide and
    as high as the source, and at most 448 high. *)
Theorem canvas_never_larger (video : VideoMeta) :
  0 <= videoWidth video <= 2147483647 ->
  0 <= videoHeight video <= 2147483647 ->
  0 <= canvas_width video <= videoWidth video /\
  0 <= canvas_height video <= videoHeight video /\
  canvas_height video <= 448.
Proof.
  intros Hw Hh.
  destruct (Z_le_gt_dec (videoHeight video) 448) as [Hs|Ht].
  - destruct (canvas_native_when_small video ltac:(lia) Hw) as [-> ->]. lia.
  - assert (Hh' : 448 < videoHeight video <= 2147483647) by lia.
    destruct (canvas_dimension_tall 150 video (videoHeight video) Hh' ltac:(lia))
      as (H0 & [_ H2] & _).
    destruct (canvas_dimension_tall 300 video (videoWidth video) Hh' Hw)
      as (H0' & [_ H2'] & _).
    fold (canvas_height video) in H0, H2. fold (canvas_width video) in H0', H2'.
    rewrite Z.div_mul in H2 by lia.
    assert (Hk : 448 * videoWidth video / videoHeight video <= videoWidth video).
    { apply Z.div_le_upper_bound; [lia |]. nia. }
    lia.
Qed.

Lemma canvas_never_larger_witness :
  0 <= canvas_width Inputs.video600 <= 1920 /\
  0 <= canvas_height Inputs.video600 <= 1080 /\
  canvas_height Inputs.video600 <= 448.
Proof.
  apply (canvas_never_larger Inputs.video600); cbn; lia.
Defined.

(** ** Sample times and the duration *)

(** A packed number, as the mantissa and exponent it holds. *)
Lemma pack_value (a e : Z) :
  0 <= a <= 2 ^ 53 -> -1074 <= e <= 964 ->
  pack a e = S754_zero false \/
  exists mx ex, pack a e = S754_finite false mx ex /\
                -1074 <= ex /\
                Zpos mx * 2 ^ (ex + 1200) = a * 2 ^ (e + 1200).
Proof.
  intros Ha He. unfold pack. destruct (Z.eqb_spec a 0); [now left | right].
  destruct (Z.eqb_spec a (2 ^ 53)) as [->|].
  - destruct (Z.leb_spec (e + 1) 971); [| lia].
    exists (2 ^ 52)%positive, (e + 1). split; [reflexivity |]. split; [lia |].
    replace (e + 1 + 1200) with (Z.succ (e + 1200)) by lia.
    rewrite Z.pow_succ_r by lia. change (Zpos (2 ^ 52)) with (2 ^ 52).
    change (2 ^ 53) with (2 * 2 ^ 52). ring.
  - destruct (Z.leb_spec e 971); [| lia].
    exists (Z.to_pos a), e. split; [reflexivity |]. split; [lia |].
    rewrite Z2Pos.id by lia. reflexivity.
Qed.

(** A normal number rounds to itself. *)
Lemma binary_round_aux_normal (m : positive) (e : Z) :
  digits m = 53 -> -1074 <= e <= 971 ->
  binary_round_aux 53 1024 false (Zpos m) e loc_Exact = S754_finite false m e.
Proof.
  intros Hd He.
  destruct (binary_round_aux_exact m e) as (a & Hn & _ & _ & ->).
  - rewrite fexp_eq, Hd. lia.
  - rewrite fexp_eq, Hd in *.
    replace (Z.max (53 + e - 53) (-1074)) with e in * by lia.
    rewrite Z.sub_diag in Hn.
    assert (a = Zpos m).
    { apply (nearest_exact (Zpos m) 0 a); [lia |]. now rewrite Z.pow_0_r, Z.mul_1_r. }
    subst a. apply pack_normal; [assumption | lia].
Qed.

(** A duration that is not below the smallest normal number. *)
Lemma normal_duration (d : number) :
  valid_binary 53 1024 d = true -> is_finite d = true -> leb min_normal d = true ->
  exists md ed, d = S754_finite false md ed /\ digits md = 53 /\ -1074 <= ed <= 971.
Proof.
  intros Hv Hf Hn. destruct d as [s|s| |s md ed]; try discriminate.
  destruct s; [vm_compute in Hn; discriminate |].
  cbn [valid_binary] in Hv. destruct (bounded_facts md ed Hv) as (Hd & He & Hnorm).
  exists md, ed. split; [reflexivity |]. split; [| exact He].
  destruct (Z.eq_dec ed (-1074)) as [->|Hne]; [| apply Hnorm; lia].
  unfold leb, SFleb, min_normal, SFcompare in Hn.
  change (-1074 ?= -1074) with Eq in Hn.
  change (PosDef.Pos.compare_cont Eq 4503599627370496 md)
    with (Zpos 4503599627370496 ?= Zpos md) in Hn.
  apply digits_unique. change (2 ^ (53 - 1)) with 4503599627370496.
  pose proof (digits_bounds md) as [_ Hu].
  assert (2 ^ digits md <= 2 ^ 53) by (apply Z.pow_le_mono_r; lia).
  split; [| lia].
  destruct (Z.compare_spec 4503599627370496 (Zpos md)); try lia; discriminate.
Qed.

(** No sample time is beyond the duration: [i * (d / 250) <= d] in
    binary64 for every index below 250, for a duration that is not
    subnormal. *)
Lemma sample_time_within (d : number) (i : nat) :
  valid_binary 53 1024 d = true -> is_finite d = true -> leb min_normal d = true ->
  (i < 250)%nat ->
  leb (sample_time (div d (of_nat 250)) i) d = true.
Proof.
  intros Hv Hf Hn Hi.
  destruct (normal_duration d Hv Hf Hn) as (md & ed & -> & Hd53 & Hed).
  cbn [valid_binary] in Hv.
  destruct (div_250 md ed Hv) as (a & e & -> & Ha & He & Hlow & Hval).
  unfold sample_time.
  destruct (pack_value a e Ha He) as [-> | (mx & ex & -> & Hex & Hvx)].
  - destruct (of_nat_cases i Hi) as [[_ ->] | (mi & ei & -> & _)]; reflexivity.
  - destruct (of_nat_cases i Hi) as [[_ ->] | (mi & ei & -> & Hdi & Hmi & Hei)];
      [reflexivity |].
    assert (Hipos : 1 <= Z.of_nat i).
    { destruct i; [discriminate Hmi + (cbn in Hmi; lia) | lia]. }
    assert (Hei' : -52 <= ei <= -45).
    { subst ei. pose proof (Z.log2_nonneg (Z.of_nat i)).
      assert (Z.log2 (Z.of_nat i) <= Z.log2 250) by (apply Z.log2_le_mono; lia).
      change (Z.log2 250) with 7 in *. lia. }
    change (mul (S754_finite false mi ei) (S754_finite false mx ex))
      with (binary_round_aux 53 1024 false (Zpos (mi * mx)) (ei + ex) loc_Exact).
    rewrite <- (binary_round_aux_normal md ed Hd53 Hed).
    apply (binary_round_aux_mono _ _ _ _ (-1200)); try lia.
    + rewrite fexp_eq. pose proof (digits_mul_normal mi mx Hdi). lia.
    + rewrite fexp_eq, Hd53. lia.
    + replace (ei + ex - -1200) with (ei + ex + 1200) by lia.
      replace (ed - -1200) with (ed + 1200) by lia.
      rewrite Pos2Z.inj_mul, Hmi.
      assert (HP : 2 ^ (ei + ex + 1200) * 2 ^ (- ei) = 2 ^ (ex + 1200)).
      { rewrite <- Z.pow_add_r by lia. f_equal. lia. }
      replace (Z.of_nat i * 2 ^ (- ei) * Zpos mx * 2 ^ (ei + ex + 1200))
        with (Z.of_nat i * (Zpos mx * (2 ^ (ei + ex + 1200) * 2 ^ (- ei)))) by ring.
      rewrite HP, Hvx.
      set (Y := 2 ^ (e + 1200)) in *. set (Dd := Zpos md * 2 ^ (ed + 1200)) in *.
      assert (HY : 0 < Y) by (apply Z.pow_pos_nonneg; lia).
      assert (HaY : 0 <= a * Y) by (apply Z.mul_nonneg_nonneg; lia).
      assert (H1 : Z.of_nat i * (a * Y) <= 249 * (a * Y))
        by (apply Z.mul_le_mono_nonneg_r; lia).
      assert (H2 : 249 * 250 * Y <= Dd).
      { destruct (Z.eq_dec e (-1074)) as [He0|He0].
        - unfold Y, Dd. rewrite He0. change (2 ^ (-1074 + 1200)) with (2 ^ 126).
          pose proof (digits_bounds md) as [Hml _]. rewrite Hd53 in Hml.
          change (2 ^ (53 - 1)) with (2 ^ 52) in Hml.
          assert (2 ^ 126 <= 2 ^ (ed + 1200)) by (apply Z.pow_le_mono_r; lia).
          assert (0 < 2 ^ 126) by (apply Z.pow_pos_nonneg; lia).
          apply Z.le_trans with (2 ^ 52 * 2 ^ 126); [| apply Z.mul_le_mono_nonneg; lia].
          change (2 ^ 52) with 4503599627370496. lia.
        - specialize (Hlow ltac:(lia)).
          assert ((2 ^ 52 - 1) * (250 * Y) <= (a - 1) * (250 * Y))
            by (apply Z.mul_le_mono_nonneg_r; lia).
          change (2 ^ 52) with 4503599627370496 in *. lia. }
      clear - H1 H2 Hval HaY HY. lia.
Qed.

Lemma sample_time_nonneg (d : number) (i : nat) :
  valid_binary 53 1024 d = true -> is_finite d = true -> leb min_normal d = true ->
  (i < 250)%nat ->
  leb zero (sample_time (div d (of_nat 250)) i) = true.
Proof.
  intros Hv Hf Hn Hi.
  destruct (normal_duration d Hv Hf Hn) as (md & ed & -> & Hd53 & Hed).
  cbn [valid_binary] in Hv.
  destruct (div_250 md ed Hv) as (a & e & -> & Ha & He & Hlow & Hval).
  unfold sample_time.
  destruct (pack_value a e Ha He) as [-> | (mx & ex & -> & Hex & Hvx)].
  - destruct (of_nat_cases i Hi) as [[_ ->] | (mi & ei & -> & _)]; reflexivity.
  - destruct (of_nat_cases i Hi) as [[_ ->] | (mi & ei & -> & Hdi & Hmi & Hei)];
      [reflexivity |].
    destruct (mul_normal_pack mi mx ei ex Hdi) as (a' & e' & ->).
    apply leb_zero_pack.
Qed.

(** The seeks of the loop, however it ends: to the sample times of some
    first indices, in order. *)
Lemma sample_loop_seeks B file interval cw ch n :
  forall i frames w w' r,
    sample_loop B file interval cw ch n i frames w = (w', r) ->
    exists m, (m <= n)%nat /\
      seeks (log w') = (seeks (log w) ++ map (sample_time interval) (seq i m))%list.
Proof.
  induction n as [|n IH]; intros i frames w w' r H.
  - simpl in H. unfold ret in H. injection H as <- _.
    exists 0%nat. split; [lia |]. cbn. now rewrite app_nil_r.
  - cbn [sample_loop] in H. unfold set_currentTime in H.
    destruct (is_finite (sample_time interval i)).
    + unfold bind at 1 in H. cbn [emit] in H.
      assert (Hone : forall w0 : World,
                 log w0 = (log w ++ [ev_seek (sample_time interval i)])%list ->
                 seeks (log w0)
                 = (seeks (log w) ++ map (sample_time interval) (seq i 1))%list).
      { intros w0 ->. rewrite seeks_app. reflexivity. }
      assert (Hmore : forall w0 w1 frames0 r0,
                 seeks (log w0) = (seeks (log w) ++ [sample_time interval i])%list ->
                 sample_loop B file interval cw ch n (S i) frames0 w0 = (w1, r0) ->
                 exists m, (m <= S n)%nat /\
                   seeks (log w1)
                   = (seeks (log w) ++ map (sample_time interval) (seq i m))%list).
      { intros w0 w1 frames0 r0 Hw0 Hrun. apply IH in Hrun as (m & Hm & Hs).
        exists (S m). split; [lia |]. rewrite Hs, Hw0, <- app_assoc. reflexivity. }
      destruct (media_seek B file i (sample_time interval i)).
      * unfold capture in H. destruct (getContext_2d B).
        -- unfold bind, emit, ret in H. apply Hmore in H; [exact H |].
           cbn [log]. rewrite !seeks_app. cbn. now rewrite app_nil_r.
        -- unfold bind, ret in H. apply Hmore in H; [exact H |].
           cbn [log]. rewrite !seeks_app. reflexivity.
      * unfold ret in H. injection H as <- _. exists 1%nat. split; [lia |].
        now apply Hone.
      * unfold never in H. injection H as <- _. exists 1%nat. split; [lia |].
        now apply Hone.
    + unfold bind, throw in H. injection H as <- _.
      exists 0%nat. split; [lia |]. cbn. now rewrite app_nil_r.
Qed.

Lemma extractFramesFromVideo_seeks B file w video :
  media_load B file = loadedmetadata video ->
  exists m, (m <= maxFrames)%nat /\
    seeks (log (fst (extractFramesFromVideo B file w)))
    = (seeks (log w) ++ map (sample_time (interval_of video)) (seq 0 m))%list.
Proof.
  intros Hl.
  remember (extractFramesFromVideo B file w) as p eqn:Hp.
  unfold extractFramesFromVideo, new_Promise in Hp.
  unfold bind at 1 in Hp. cbn [createObjectURL] in Hp. rewrite Hl in Hp.
  unfold bind at 1 in Hp. fold (interval_of video) in Hp. revert Hp.
  match goal with
  | |- context [sample_loop ?b ?f ?iv ?cw ?ch ?n ?i ?fr ?w0] =>
      destruct (sample_loop b f iv cw ch n i fr w0) as [w1 r1] eqn:Hloop
  end.
  apply sample_loop_seeks in Hloop as (m & Hm & Hs).
  cbn [log] in Hs. rewrite seeks_app in Hs. cbn in Hs. rewrite app_nil_r in Hs.
  exists m. split; [exact Hm |].
  destruct r1 as [[frames|e]|e|]; subst p.
  - unfold bind, revokeObjectURL, ret. cbn [fst log].
    rewrite seeks_app, Hs. cbn. now rewrite app_nil_r.
  - exact Hs.
  - exact Hs.
  - exact Hs.
Qed.

(** X16.  Whatever the outcome, the sampler makes at most 250 seeks, and
    every seek is to a time between 0 and the duration of the source,
    for a duration that is finite and not below the smallest normal
    number: no sample time lies beyond the end of the video. *)
Theorem extractFramesFromVideo_seeks_within
    (B : Browser) (file : File) (w : World) (video : VideoMeta) :
  media_load B file = loadedmetadata video ->
  valid_binary prec emax (duration video) = true ->
  is_finite (duration video) = true ->
  leb min_normal (duration video) = true ->
  exists times,
    seeks (log (fst (extractFramesFromVideo B file w))) = (seeks (log w) ++ times)%list /\
    (List.length times <= maxFrames)%nat /\
    Forall (fun t => leb zero t = true /\ leb t (duration video) = true) times.
Proof.
  intros Hl Hv Hf Hn.
  destruct (extractFramesFromVideo_seeks B file w video Hl) as (m & Hm & Hs).
  exists (map (sample_time (interval_of video)) (seq 0 m)).
  split; [exact Hs |]. split; [now rewrite length_map, length_seq |].
  apply Forall_forall. intros t Ht. apply in_map_iff in Ht as (j & <- & Hj).
  apply in_seq in Hj. change maxFrames with 250%nat in Hm.
  unfold interval_of. change maxFrames with 250%nat.
  split.
  - apply sample_time_nonneg; try assumption. lia.
  - apply sample_time_within; try assumption. lia.
Qed.

Lemma extractFramesFromVideo_seeks_within_witness :
  exists times,
    seeks (log (fst (extractFramesFromVideo Inputs.browser_ok Inputs.clip
                       (world0 initialState)))) = ([] ++ times)%list /\
    (List.length times <= maxFrames)%nat /\
    Forall (fun t => leb zero t = true /\ leb t (of_Z 600) = true) times.
Proof.
  apply (extractFramesFromVideo_seeks_within Inputs.browser_ok Inputs.clip
           (world0 initialState) Inputs.video600); reflexivity.
Defined.

(** ** The data of a frame *)





